(** * slynx-auto-poster: the scheduled post dispatcher

    A shallow embedding of [.github/workflows/scripts/post_to_x.js].  The
    file holds five successive revisions of the same script, separated by
    marker lines; each revision is a complete program with its own [main]:

    - revision 1, lines 1-166: posts through the twitter-api-v2 client,
      sorts the due rows by date then id, rewrites the whole row;
    - revision 2, lines 167-299: quotes the tab name and checks that the tab
      exists; its [postToX] is a placeholder that does not parse;
    - revision 3, lines 300-633: signs the request itself
      ([buildOAuth1Header]), has the dry-run switch;
    - revision 4, lines 634-860: signs through the oauth-1.0a package, scans
      the rows in sheet order and stops at the first due one;
    - revision 5, lines 861-1146: signs itself ([oauth1Header]) and updates
      the sheet cell by cell ([updateRowByHeader]).

    Each revision lives in a module of its own ([Rev1] .. [Rev5]); what they
    share (the JavaScript primitives, the sheet, the run monad) comes first.
    All definitions come before all proofs.

    JavaScript strings are modelled by [string], read as the UTF-8 bytes of
    the text: [encodeURIComponent] works on exactly these bytes.  Trimming,
    case folding and [length] are the ASCII ones, so the model speaks about
    sheets whose headers, statuses and time cells are ASCII. *)

From Stdlib Require Import NArith ZArith Lia.
From Stdlib Require Import Ascii String.
From Stdlib Require Import DecimalString HexadecimalString DecimalN.
From stdpp Require Import base option list sets sorting strings.

(** ** JavaScript primitives *)

Module JS.

Definition code (c : ascii) : N := N_of_ascii c.

Definition between (lo hi : N) (c : ascii) : bool :=
  ((lo <=? code c) && (code c <=? hi))%N.

Definition isUpper : ascii → bool := between 65 90.
Definition isLower : ascii → bool := between 97 122.
Definition isDigit : ascii → bool := between 48 57.
Definition isAlpha (c : ascii) : bool := isUpper c || isLower c.

(** White space as [trim] sees it (tab, line feed, vertical tab, form
    feed, carriage return, space). *)
Definition isSpace (c : ascii) : bool :=
  match c with
  | "009" | "010" | "011" | "012" | "013" | " " => true
  | _ => false
  end%char.

(** [String.prototype.toUpperCase] and [toLowerCase], on ASCII letters. *)
Definition upperChar (c : ascii) : ascii :=
  if isLower c then ascii_of_N (code c - 32) else c.
Definition lowerChar (c : ascii) : ascii :=
  if isUpper c then ascii_of_N (code c + 32) else c.

Fixpoint mapChars (f : ascii → ascii) (s : string) : string :=
  match s with
  | EmptyString => EmptyString
  | String c s' => String (f c) (mapChars f s')
  end.

Definition toUpperCase : string → string := mapChars upperChar.
Definition toLowerCase : string → string := mapChars lowerChar.

Fixpoint trimStart (s : string) : string :=
  match s with
  | EmptyString => EmptyString
  | String c s' => if isSpace c then trimStart s' else s
  end.

Fixpoint trimEnd (s : string) : string :=
  match s with
  | EmptyString => EmptyString
  | String c s' =>
      match trimEnd s' with
      | EmptyString => if isSpace c then EmptyString else String c EmptyString
      | t => String c t
      end
  end.

Definition trim (s : string) : string := trimEnd (trimStart s).

(** Truthiness of a string: the empty string is the only falsy one. *)
Definition truthy (s : string) : bool :=
  match s with EmptyString => false | _ => true end.

(** [v || ""] and [v ?? ""] for a cell that may be [undefined]; on
    strings the two agree. *)
Definition orEmpty (v : option string) : string := default "" v.

(** [String(v)] for a cell that may be [undefined]; a template literal
    converts the same way. *)
Definition String_ (v : option string) : string := default "undefined" v.

(** [s.split(sep)] for a one-character separator. *)
Fixpoint split (sep : ascii) (s : string) : list string :=
  match s with
  | EmptyString => [EmptyString]
  | String c s' =>
      if Ascii.eqb c sep then EmptyString :: split sep s'
      else match split sep s' with
           | [] => [String c EmptyString]
           | p :: ps => String c p :: ps
           end
  end.

Fixpoint repeatChar (n : nat) (c : ascii) : string :=
  match n with
  | O => EmptyString
  | S n' => String c (repeatChar n' c)
  end.

(** [s.padStart(n, c)] for a one-character filler. *)
Definition padStart (n : nat) (c : ascii) (s : string) : string :=
  repeatChar (n - String.length s) c +:+ s.

(** [xs.join(sep)]. *)
Definition join (sep : string) (xs : list string) : string :=
  String.concat sep xs.

(** [s.replace(/[...]/g, f)] for a character class: every character of
    the class is replaced by what the callback returns for it. *)
Fixpoint replaceClass (cls : ascii → bool) (f : ascii → string)
    (s : string) : string :=
  match s with
  | EmptyString => EmptyString
  | String c s' =>
      (if cls c then f c else String c EmptyString) +:+ replaceClass cls f s'
  end.

(** [n.toString(16)] and [String(n)] for a non-negative integer. *)
Definition toString16 (n : N) : string :=
  HexadecimalString.NilZero.string_of_uint (N.to_hex_uint n).
Definition toString10 (n : N) : string :=
  DecimalString.NilZero.string_of_uint (N.to_uint n).

(** [String.fromCharCode(n)]: one UTF-16 code unit, here as its UTF-8
    bytes (one byte below 128, two below 2048, three above). *)
Definition fromCharCode (n : N) : string :=
  let u := (n mod 65536)%N in
  if (u <? 128)%N then String (ascii_of_N u) EmptyString
  else if (u <? 2048)%N then
    String (ascii_of_N (192 + u / 64))
      (String (ascii_of_N (128 + u mod 64)) EmptyString)
  else
    String (ascii_of_N (224 + u / 4096))
      (String (ascii_of_N (128 + (u / 64) mod 64))
        (String (ascii_of_N (128 + u mod 64)) EmptyString)).

(** The two upper-case hexadecimal digits of an octet, as the escape
    step of [encodeURIComponent] pads them. *)
Definition hexDigit (n : N) : ascii :=
  if (n <? 10)%N then ascii_of_N (48 + n) else ascii_of_N (55 + n).

Definition escapeOctet (c : ascii) : string :=
  String "%" (String (hexDigit (code c / 16))
             (String (hexDigit (code c mod 16)) EmptyString)).

(** The characters [encodeURIComponent] leaves alone: letters, digits
    and [- _ . ! ~ * ' ( )]. *)
Definition uriUnescaped (c : ascii) : bool :=
  isAlpha c || isDigit c ||
  match c with
  | "-" | "_" | "." | "!" | "~" | "*" | "'" | "(" | ")" => true
  | _ => false
  end%char.

Fixpoint encodeURIComponent (s : string) : string :=
  match s with
  | EmptyString => EmptyString
  | String c s' =>
      (if uriUnescaped c then String c EmptyString else escapeOctet c)
      +:+ encodeURIComponent s'
  end.

(** [xs.findIndex(p)]; [None] stands for -1. *)
Definition findIndex {A} (P : A → Prop) `{!∀ x, Decision (P x)}
    (xs : list A) : option nat :=
  fst <$> list_find P xs.

(** [xs.find(p)]; [None] stands for [undefined]. *)
Definition find {A} (P : A → Prop) `{!∀ x, Decision (P x)}
    (xs : list A) : option A :=
  snd <$> list_find P xs.

(** Two names equal up to the case of their letters, the test
    [h.toLowerCase() === name.toLowerCase()] of the header look-ups. *)
Definition sameName (name h : string) : Prop :=
  toLowerCase h = toLowerCase name.

#[global] Instance sameName_dec name h : Decision (sameName name h).
Proof. unfold sameName. apply _. Defined.

(** *** Objects

    An object with string values is the list of its own properties in
    insertion order.  Assigning to a key that exists keeps its place.
    (Integer-like keys would be listed first by [Object.keys]; every
    listing of keys below is sorted before use or looked up by name.) *)
Definition object := list (string * string).

Fixpoint objSet (k v : string) (o : object) : object :=
  match o with
  | [] => [(k, v)]
  | (k', v') :: o' =>
      if decide (k' = k) then (k, v) :: o' else (k', v') :: objSet k v o'
  end.

Fixpoint objGet (k : string) (o : object) : option string :=
  match o with
  | [] => None
  | (k', v') :: o' => if decide (k' = k) then Some v' else objGet k o'
  end.

(** [{ ...a, ...b }], and an object literal read left to right. *)
Definition objAssign (a b : object) : object :=
  fold_left (λ o kv, objSet kv.1 kv.2 o) b a.

Definition objLiteral (kvs : list (string * string)) : object :=
  objAssign [] kvs.

Definition objKeys (o : object) : list string := o.*1.

(** [keys.sort()]: the default order of [Array.prototype.sort] compares
    strings code unit by code unit, which on these byte strings is
    [String.le]. *)
Definition sortStrings (ks : list string) : list string :=
  merge_sort String.le ks.

(** [xs.sort(comparefn)].  The sort is stable and reads a [NaN] from
    [comparefn] (here [None]) as 0.  The language fixes the result only
    for a consistent comparator; the definition below is the stable
    insertion sort, one of the orders an engine may produce otherwise. *)
Fixpoint insertSorted {A} (le : A → A → bool) (x : A) (l : list A) : list A :=
  match l with
  | [] => [x]
  | y :: l' => if le x y then x :: l else y :: insertSorted le x l'
  end.

Fixpoint sortWith {A} (le : A → A → bool) (l : list A) : list A :=
  match l with
  | [] => []
  | x :: l' => insertSorted le x (sortWith le l')
  end.

Definition sortCompare {A} (comparefn : A → A → option Z) (a b : A) : Z :=
  default 0%Z (comparefn a b).

Definition sort {A} (comparefn : A → A → option Z) : list A → list A :=
  sortWith (λ a b, (sortCompare comparefn a b <=? 0)%Z).

End JS.

(** ** What the engine provides

    [Date] and [Number] are taken as they are: [dateParse s] is
    [new Date(s).getTime()] with [None] for [NaN] (an invalid date),
    [dateToISOString t] is [new Date(t).toISOString()], and [toNumber v] is
    [Number(v)] with [None] for [NaN]; numbers read from id cells are
    integers.  Times are milliseconds since the epoch. *)
Class Engine := {
  dateParse : string → option Z;
  dateToISOString : Z → string;
  toNumber : option string → option Z
}.

(** ** The signer: what revisions 3 and 5 share *)

(** The class [[!'()*]] of the regular expression in [percentEncode]. *)
Definition bangQuoteParenStar (c : ascii) : bool :=
  match c with
  | "!" | "'" | "(" | ")" | "*" => true
  | _ => false
  end%char.

(** [percentEncode], lines 422-425 and 907-910 (the same text). *)
Definition percentEncode (str : string) : string :=
  JS.replaceClass bangQuoteParenStar
    (λ c, "%" +:+ JS.toUpperCase (JS.toString16 (JS.code c)))
    (JS.encodeURIComponent str).

(** What the specification asks of the encoding, character by
    character: RFC 3986 unreserved characters stay, the rest is escaped. *)
Definition rfc3986Unreserved (c : ascii) : bool :=
  JS.isAlpha c || JS.isDigit c ||
  match c with
  | "-" | "_" | "." | "~" => true
  | _ => false
  end%char.

Fixpoint percentEncodeSpec (s : string) : string :=
  match s with
  | EmptyString => EmptyString
  | String c s' =>
      (if rfc3986Unreserved c then String c EmptyString else JS.escapeOctet c)
      +:+ percentEncodeSpec s'
  end.

(** The four-part credential. *)
Record Credentials := {
  consumerKey : string;
  consumerSecret : string;
  token : string;
  tokenSecret : string
}.

(** What the script reads off [new URL(url)]: [u.origin], [u.pathname]
    and the pairs [u.searchParams.forEach] visits, in order. *)
Record URL := {
  origin : string;
  pathname : string;
  searchParams : list (string * string)
}.

(** The six parameters both signers start from (lines 428-434 and
    920-927), in the order of the object literal. *)
Definition oauthLiteral (c : Credentials) (nonce timestamp : string)
    : list (string * string) :=
  [ ("oauth_consumer_key", consumerKey c);
    ("oauth_nonce", nonce);
    ("oauth_signature_method", "HMAC-SHA1");
    ("oauth_timestamp", timestamp);
    ("oauth_token", token c);
    ("oauth_version", "1.0") ].

(** [`${percentEncode(k)}=${percentEncode(params[k])}`] over the sorted
    keys, joined by [&] (lines 448-451; [buildQueryString], 912-917). *)
Definition buildQueryString (params : JS.object) : string :=
  JS.join "&"
    (map (λ k, percentEncode k +:+ "=" +:+
               percentEncode (JS.String_ (JS.objGet k params)))
         (JS.sortStrings (JS.objKeys params))).

(** [`${percentEncode(consumerSecret)}&${percentEncode(tokenSecret)}`]. *)
Definition signingKey (c : Credentials) : string :=
  percentEncode (consumerSecret c) +:+ "&" +:+ percentEncode (tokenSecret c).

Definition dquote : string := String (ascii_of_nat 34) EmptyString.

(** The header: [OAuth ] and the sorted [key="value"] pairs, joined by
    a comma and a space (lines 464-467 and 945-950). *)
Definition authorizationHeader (headerParams : JS.object) : string :=
  "OAuth " +:+
  JS.join ", "
    (map (λ k, percentEncode k +:+ "=" +:+ dquote +:+
               percentEncode (JS.String_ (JS.objGet k headerParams)) +:+ dquote)
         (JS.sortStrings (JS.objKeys headerParams))).

(** *** The signature base string as the specification words it *)

(** The last value a list of pairs gives to a name. *)
Fixpoint lastValue (k : string) (kvs : list (string * string)) : option string :=
  match kvs with
  | [] => None
  | kv :: rest =>
      match lastValue k rest with
      | Some v => Some v
      | None => if decide (kv.1 = k) then Some kv.2 else None
      end
  end.

(** The value a name is signed with: the signing parameter of that name
    if there is one, else what the query gives it. *)
Definition signedValue (signing query : list (string * string)) (k : string)
    : option string :=
  match lastValue k signing with
  | Some v => Some v
  | None => lastValue k query
  end.

(** [ps] is the set of signing and query parameters, one pair per name,
    in strictly ascending order of the names. *)
Definition sortedParamSet (signing query ps : list (string * string)) : Prop :=
  StronglySorted (λ a b, strict String.le a.1 b.1) ps ∧
  ∀ k v, (k, v) ∈ ps ↔ signedValue signing query k = Some v.

(** Method, base URL and parameters, each percent-encoded, joined by [&]. *)
Definition signatureBaseString (method baseUrl : string)
    (ps : list (string * string)) : string :=
  JS.toUpperCase method +:+ "&" +:+ percentEncode baseUrl +:+ "&" +:+
  percentEncode
    (JS.join "&" (map (λ kv, percentEncode kv.1 +:+ "=" +:+ percentEncode kv.2) ps)).

(** ** The backing sheet

    One tab of the spreadsheet: its rows from the top, the header row
    first, each row the list of its cells from column A.  An empty cell
    and a cell past the end of its row are the same thing, the empty
    string. *)
Abbreviation Sheet := (list (list string)).

(** The cell in row [r], column [c], both counted from 0. *)
Definition cell (s : Sheet) (r c : nat) : string :=
  default "" (default [] (s !! r) !! c).

(** Assignment at an index, padding with [d] when the list is short. *)
Definition setAt {A} (d : A) (i : nat) (x : A) (l : list A) : list A :=
  <[i := x]> (l ++ replicate (S i - length l) d).

Definition writeCell (r c : nat) (v : string) (s : Sheet) : Sheet :=
  setAt [] r (setAt "" c v (default [] (s !! r))) s.

(** Writes [cells] into row [r] from column [c] on; [None] (a JSON
    [null]) leaves its cell as it is. *)
Fixpoint writeRow (r c : nat) (cells : list (option string)) (s : Sheet) : Sheet :=
  match cells with
  | [] => s
  | v :: cells' =>
      writeRow r (S c) cells'
        (match v with Some x => writeCell r c x s | None => s end)
  end.

(** *** A1 notation

    A range is kept as the script builds it: the tab text, and the two
    cell references either side of the colon.  A reference is column
    letters followed by an optional row number. *)
Record Range := {
  rangeTab : string;
  rangeFrom : string;
  rangeTo : string
}.

Record Ref := {
  refCol : nat;          (* column, from 0 *)
  refRow : option nat    (* row number, from 1; absent in [A:Z] *)
}.

Definition letterIndex (c : ascii) : option nat :=
  if JS.isUpper c then Some (N.to_nat (JS.code c) - 65)
  else if JS.isLower c then Some (N.to_nat (JS.code c) - 97)
  else None.

Fixpoint spanLetters (s : string) : list nat * string :=
  match s with
  | EmptyString => ([], EmptyString)
  | String c s' =>
      match letterIndex c with
      | Some d => let '(ds, rest) := spanLetters s' in (d :: ds, rest)
      | None => ([], s)
      end
  end.

(** The row number a run of decimal digits stands for. *)
Definition rowOfDigits (s : string) : option nat :=
  (λ d, N.to_nat (N.of_uint d)) <$> DecimalString.NilEmpty.uint_of_string s.

(** Column letters count in bijective base 26: A is 0, Z is 25, AA is 26. *)
Definition columnOfLetters (ds : list nat) : nat :=
  fold_left (λ acc d, acc * 26 + S d) ds 0 - 1.

Definition parseRef (s : string) : option Ref :=
  let '(ds, rest) := spanLetters s in
  match ds with
  | [] => None
  | _ =>
      match rest with
      | EmptyString => Some {| refCol := columnOfLetters ds; refRow := None |}
      | _ =>
          match rowOfDigits rest with
          | Some (S n) => Some {| refCol := columnOfLetters ds; refRow := Some (S n) |}
          | _ => None
          end
      end
  end.

(** *** The values API

    Modelled from the Google Sheets API reference
    (spreadsheets.values.get, .update and .batchUpdate), which is not part
    of the repository: a read returns the cells of the range, without the
    empty cells that end a row and without the empty rows that end the
    range; a write puts one row of values into the range from its first
    cell, skips [null]s, and is refused when the row is wider than the
    range or the range does not parse; a batch is applied whole or not at
    all.  Column letters are read in either case.  The tab text of a range
    is taken to name the sheet. *)
Fixpoint dropTrailing {A} (isEmpty : A → bool) (l : list A) : list A :=
  match l with
  | [] => []
  | x :: l' =>
      match dropTrailing isEmpty l' with
      | [] => if isEmpty x then [] else [x]
      | t => x :: t
      end
  end.

Definition isEmptyCell (v : string) : bool := negb (JS.truthy v).
Definition isEmptyRow (row : list string) : bool :=
  match row with [] => true | _ => false end.

Definition valuesGet (rg : Range) (s : Sheet) : option (list (list string)) :=
  from ← parseRef (rangeFrom rg);
  to ← parseRef (rangeTo rg);
  guard (refCol from ≤ refCol to);;
  let firstRow := default 1 (refRow from) in
  let rows :=
    match refRow to with
    | Some lastRow => take (S lastRow - firstRow) (drop (firstRow - 1) s)
    | None => drop (firstRow - 1) s
    end in
  Some (dropTrailing isEmptyRow
          (map (λ row, dropTrailing isEmptyCell
                         (take (S (refCol to) - refCol from) (drop (refCol from) row)))
               rows)).

Definition valuesUpdate (rg : Range) (cells : list (option string)) (s : Sheet)
    : option Sheet :=
  from ← parseRef (rangeFrom rg);
  to ← parseRef (rangeTo rg);
  row ← refRow from;
  guard (refCol from ≤ refCol to);;
  guard (length cells ≤ S (refCol to) - refCol from);;
  Some (writeRow (row - 1) (refCol from) cells s).

Fixpoint valuesBatchUpdate (data : list (Range * string)) (s : Sheet)
    : option Sheet :=
  match data with
  | [] => Some s
  | (rg, v) :: data' =>
      s' ← valuesUpdate rg [Some v] s;
      valuesBatchUpdate data' s'
  end.

(** *** What an update writes, as the specification words it

    [addr] tells which column a field name addresses, if any; the value
    a list of field updates leaves in column [c] is that of the last
    update whose name addresses [c]. *)
Fixpoint lastWrite (addr : string → option nat) (updates : list (string * string))
    (c : nat) : option string :=
  match updates with
  | [] => None
  | kv :: rest =>
      match lastWrite addr rest c with
      | Some v => Some v
      | None => if decide (addr kv.1 = Some c) then Some kv.2 else None
      end
  end.

(** The column a field name addresses: the first header equal to it up
    to the case of the letters, or the first header equal to it. *)
Definition foldedCol (headers : list string) (name : string) : option nat :=
  JS.findIndex (JS.sameName name) headers.

Definition exactCol (headers : list string) (name : string) : option nat :=
  JS.findIndex (λ h, h = name) headers.

(** The cell [(r, c)] after the fields [updates] of row [row] were
    written to sheet [s]. *)
Definition cellAfter (addr : string → option nat) (updates : list (string * string))
    (row : nat) (s : Sheet) (r c : nat) : string :=
  match (if decide (r = row) then lastWrite addr updates c else None) with
  | Some v => v
  | None => cell s r c
  end.

(** ** The posting API

    What the scripts read off a reply: the status, the body text
    ([res.text()]) and, when the body is JSON, the fields they look at.
    [detail], [title] and [dataId] ([body.data.id]) are [None] when the
    field is absent or falsy; [stringified] is [JSON.stringify(body)]. *)
Record Json := {
  detail : option string;
  title : option string;
  dataId : option string;
  stringified : string
}.

Record Response := {
  status : N;
  body : string;
  json : option Json
}.

(** [res.ok]: a status from 200 to 299. *)
Definition ok (r : Response) : bool :=
  ((200 <=? status r) && (status r <=? 299))%N.

(** [{}], what [resp.json().catch(() => ({}))] falls back to. *)
Definition emptyJson : Json :=
  {| detail := None; title := None; dataId := None; stringified := "{}" |}.

(** ** One run

    A run threads the sheet, the requests sent so far and the number of
    clock readings; it ends with a value or with a thrown error, which
    every [main] turns into exit code 1.  The clock and the posting API
    are outside the script: [clock k] is the k-th reading of the clock,
    [postingApi text] the reply to a post of [text]. *)
Inductive Event :=
| EvGet (rg : Range)
| EvPost (text : string)
| EvUpdate (rg : Range) (cells : list (option string))
| EvBatchUpdate (data : list (Range * string)).

Record World := {
  sheet : Sheet;
  trace : list Event;
  clockReads : nat
}.

Class Outside := {
  clock : nat → Z;
  postingApi : string → Response
}.

Inductive Outcome (A : Type) :=
| Ok (a : A)
| Err (msg : string).
Arguments Ok {A} a.
Arguments Err {A} msg.

Definition Run (A : Type) : Type := World → Outcome A * World.

Definition ret {A} (a : A) : Run A := λ w, (Ok a, w).

Definition bind {A B} (m : Run A) (k : A → Run B) : Run B :=
  λ w, match m w with
       | (Ok a, w') => k a w'
       | (Err e, w') => (Err e, w')
       end.

Definition throw {A} (msg : string) : Run A := λ w, (Err msg, w).

Notation "x ⇐ m ;; k" := (bind m (λ x, k))
  (at level 100, m at next level, right associativity, only parsing).
Notation "m ;;; k" := (bind m (λ _, k))
  (at level 100, right associativity, only parsing).

Definition emit (e : Event) (w : World) : World :=
  {| sheet := sheet w; trace := trace w ++ [e]; clockReads := clockReads w |}.

Definition withSheet (s : Sheet) (w : World) : World :=
  {| sheet := s; trace := trace w; clockReads := clockReads w |}.

Definition tick (w : World) : World :=
  {| sheet := sheet w; trace := trace w; clockReads := S (clockReads w) |}.

(** [new Date()] and [Date.now()]: the next reading of the clock. *)
Definition readClock `{Outside} : Run Z :=
  λ w, (Ok (clock (clockReads w)), tick w).

(** [sheets.spreadsheets.values.get]: a refused request throws. *)
Definition sheetsGet (rg : Range) : Run (list (list string)) :=
  λ w, match valuesGet rg (sheet w) with
       | Some values => (Ok values, emit (EvGet rg) w)
       | None => (Err "Unable to parse range", emit (EvGet rg) w)
       end.

(** [sheets.spreadsheets.values.update] with one row of values. *)
Definition sheetsUpdate (rg : Range) (cells : list (option string)) : Run unit :=
  λ w, match valuesUpdate rg cells (sheet w) with
       | Some s' => (Ok (), withSheet s' (emit (EvUpdate rg cells) w))
       | None => (Err "Invalid values.update request", emit (EvUpdate rg cells) w)
       end.

(** [sheets.spreadsheets.values.batchUpdate]. *)
Definition sheetsBatchUpdate (data : list (Range * string)) : Run unit :=
  λ w, match valuesBatchUpdate data (sheet w) with
       | Some s' => (Ok (), withSheet s' (emit (EvBatchUpdate data) w))
       | None => (Err "Invalid values.batchUpdate request", emit (EvBatchUpdate data) w)
       end.

(** The HTTP request to the posting endpoint. *)
Definition sendPost `{Outside} (text : string) : Run Response :=
  λ w, (Ok (postingApi text), emit (EvPost text) w).

(** The texts posted and the writes made, read off a trace. *)
Definition posts (tr : list Event) : list string :=
  omap (λ e, match e with EvPost t => Some t | _ => None end) tr.

Definition isWrite (e : Event) : bool :=
  match e with EvUpdate _ _ | EvBatchUpdate _ => true | _ => false end.

Definition writes (tr : list Event) : list Event := filter (λ e, isWrite e = true) tr.

Definition start (s : Sheet) : World :=
  {| sheet := s; trace := []; clockReads := 0 |}.

(** ** Revision 1 (lines 1-166) *)

Module Rev1.
Section Rev1.
Context `{Engine} `{Outside}.

(** [process.env.GOOGLE_SHEET_TAB]. *)
Variable GOOGLE_SHEET_TAB : string.

(** [mustEnv], lines 4-8 (and 638-642 of revision 4, word for word);
    [env name] is [process.env[name]]. *)
Definition mustEnv (env : string → option string) (name : string) : Outcome string :=
  match env name with
  | Some v => if JS.truthy v then Ok v else Err ("Missing env var: " +:+ name)
  | None => Err ("Missing env var: " +:+ name)
  end.

(** [parseUtcDateTime], lines 21-30; [None] is the [null] it returns. *)
Definition parseUtcDateTime (publishDate timeUtc : option string) : option Z :=
  let t := JS.trim (JS.orEmpty timeUtc) in
  let time := if decide (String.length t = 5) then t +:+ ":00" else t in
  let iso := JS.String_ publishDate +:+ "T" +:+ time +:+ "Z" in
  dateParse iso.

(** The objects of the candidate pipeline, lines 85-91. *)
Record Candidate := {
  r : list string;
  i : nat;
  sheetRow : nat;
  dt : option Z;
  id : option Z
}.

(** [const col = (name) => headers.findIndex(...)], line 62. *)
Definition col (headers : list string) (name : string) : option nat :=
  JS.findIndex (JS.sameName name) headers.

Definition isPending (idxStatus : nat) (x : nat * list string) : Prop :=
  JS.toLowerCase (JS.trim (JS.orEmpty (x.2 !! idxStatus))) = "pending".

#[global] Instance isPending_dec idxStatus x : Decision (isPending idxStatus x).
Proof. unfold isPending. apply _. Defined.

(** [x.dt && x.dt <= now], line 92. *)
Definition isDue (now : Z) (x : Candidate) : Prop :=
  match dt x with
  | Some t => (t <= now)%Z
  | None => False
  end.

#[global] Instance isDue_dec now x : Decision (isDue now x).
Proof. unfold isDue. destruct (dt x); apply _. Defined.

(** [(a, b) => a.dt - b.dt || a.id - b.id], line 93.  A [null] date
    would count as 0 in the subtraction; none reaches the sort. *)
Definition comparefn (a b : Candidate) : option Z :=
  let d := (default 0 (dt a) - default 0 (dt b))%Z in
  if decide (d = 0%Z)
  then match id a, id b with
       | Some x, Some y => Some (x - y)%Z
       | _, _ => None
       end
  else Some d.

(** The column indices of lines 64-69, once the check of lines 75-79
    has passed.  ([idxImageUrl] feeds a value that is never used.) *)
Record Columns := {
  idxPublishDate : nat;
  idxTimeUtc : nat;
  idxPostText : nat;
  idxStatus : nat;
  idxId : nat
}.

Definition columns (headers : list string) : option Columns :=
  match col headers "Publish Date", col headers "Time (UTC)",
        col headers "Post Text", col headers "Status", col headers "id" with
  | Some iPublishDate, Some iTimeUtc, Some iPostText, Some iStatus, Some iId =>
      Some {| idxPublishDate := iPublishDate; idxTimeUtc := iTimeUtc;
              idxPostText := iPostText; idxStatus := iStatus; idxId := iId |}
  | _, _, _, _, _ => None
  end.

(** Lines 84-93. *)
Definition candidates (cols : Columns) (rows : list (list string)) (now : Z)
    : list Candidate :=
  JS.sort comparefn
    (filter (isDue now)
      (map (λ x : nat * list string,
              {| r := x.2; i := x.1; sheetRow := x.1 + 2;
                 dt := parseUtcDateTime (x.2 !! idxPublishDate cols)
                                        (x.2 !! idxTimeUtc cols);
                 id := toNumber (x.2 !! idxId cols) |})
        (filter (isPending (idxStatus cols)) (imap (λ i r, (i, r)) rows)))).

Definition rowRange (sheetRow : nat) : Range :=
  {| rangeTab := GOOGLE_SHEET_TAB;
     rangeFrom := "A" +:+ JS.toString10 (N.of_nat sheetRow);
     rangeTo := "Z" +:+ JS.toString10 (N.of_nat sheetRow) |}.

(** The loop of lines 150-153 over [Object.entries(updatesObj)]. *)
Definition applyUpdates (headers : list string) (updatesObj : JS.object)
    (cells : list string) : list string :=
  fold_left
    (λ cells kv,
       match JS.findIndex (JS.sameName kv.1) headers with
       | Some idx => <[idx := kv.2]> cells
       | None => cells
       end)
    updatesObj cells.

(** [updateRow], lines 136-161. *)
Definition updateRow (sheetRow : nat) (headers : list string)
    (updatesObj : JS.object) : Run unit :=
  rowRes ⇐ sheetsGet (rowRange sheetRow) ;;
  let current := default [] (head rowRes) in
  let cells := map (λ i, JS.orEmpty (current !! i)) (seq 0 (length headers)) in
  sheetsUpdate (rowRange sheetRow) (Some <$> applyUpdates headers updatesObj cells).

(** [twitter.v2.tweet(text)].  Modelled from the twitter-api-v2 client,
    which is not part of the repository: one request; the parsed body on
    a 2xx reply, a rejection otherwise. *)
Definition tweet (text : string) : Run Json :=
  resp ⇐ sendPost text ;;
  if ok resp then ret (default emptyJson (json resp))
  else throw ("Request failed with code " +:+ JS.toString10 (status resp)).

(** The text of the selected row, line 101. *)
Definition textOf (cols : Columns) (item : Candidate) : string :=
  JS.trim (JS.orEmpty (r item !! idxPostText cols)).

(** Lines 100-133 of [main]: what is done with the selected row. *)
Definition dispatch (headers : list string) (cols : Columns) (item : Candidate)
    : Run unit :=
  let postText := textOf cols item in
  if JS.truthy postText then
    tweet ⇐ tweet postText ;;
    stamp ⇐ readClock ;;
    updateRow (sheetRow item) headers
      [ ("Status", "Posted");
        ("Posted At", dateToISOString stamp);
        ("Tweet ID", JS.orEmpty (dataId tweet)) ]
  else
    stamp ⇐ readClock ;;
    updateRow (sheetRow item) headers
      [ ("Status", "Skipped");
        ("Posted At", dateToISOString stamp) ].

(** [main], lines 43-134. *)
Definition main : Run unit :=
  values ⇐ sheetsGet {| rangeTab := GOOGLE_SHEET_TAB;
                        rangeFrom := "A1"; rangeTo := "Z10000" |} ;;
  if decide (length values < 2) then ret ()
  else
    let headers := JS.trim <$> default [] (head values) in
    let rows := drop 1 values in
    match columns headers with
    | Some cols =>
        now ⇐ readClock ;;
        match candidates cols rows now with
        | [] => ret ()
        | item :: _ => dispatch headers cols item
        end
    | None =>
        throw "Missing required columns. Need: Publish Date, Time (UTC), Post Text, Status, id"
    end.

End Rev1.
End Rev1.

(** ** Revision 2 (lines 167-299)

    Only the read is modelled: [postToX] declares its parameter [text]
    a second time (line 258), so this revision does not load. *)

Module Rev2.

(** [quoteSheetName], lines 177-182. *)
Definition quoteSheetName (name : string) : string :=
  "'" +:+ JS.replaceClass (λ c, Ascii.eqb c "'") (λ _, "''") name +:+ "'".

(** The range of [fetchRows], line 231. *)
Definition fetchRange (tabName : string) : Range :=
  {| rangeTab := quoteSheetName tabName; rangeFrom := "A"; rangeTo := "Z" |}.

End Rev2.

(** ** Revision 3 (lines 300-633) *)

Module Rev3.

(** [mustEnv], lines 309-313 (and 171-175, 866-870 of revisions 2 and
    5, word for word); [env name] is [process.env[name]]. *)
Definition mustEnv (env : string → option string) (name : string) : Outcome string :=
  match env name with
  | Some v =>
      if negb (JS.truthy v) || negb (JS.truthy (JS.trim v))
      then Err ("Missing env var: " +:+ name)
      else Ok (JS.trim v)
  | None => Err ("Missing env var: " +:+ name)
  end.

(** [optEnv], lines 315-318, and [DRY_RUN], line 320. *)
Definition optEnv (env : string → option string) (name def : string) : string :=
  default def (env name).

Definition dryRun (env : string → option string) : bool :=
  bool_decide (JS.toLowerCase (optEnv env "DRY_RUN" "") ∈ ["1"; "true"; "yes"]).

(** *** The signer *)

Section Signer.

(** [new URL(url)], with [None] for the [TypeError] it throws on a
    malformed URL. *)
Variable newURL : string → option URL.

(** [crypto.createHmac("sha1", key).update(text).digest("base64")]. *)
Variable hmacSha1Base64 : string → string → string.

(** Lines 428-436: the literal, then [...extraParams].  The nonce and
    the time stamp are what [crypto.randomBytes] and [Date.now] gave. *)
Definition oauthParams (c : Credentials) (nonce timestamp : string)
    (extraParams : JS.object) : JS.object :=
  JS.objAssign (JS.objLiteral (oauthLiteral c nonce timestamp)) extraParams.

(** Lines 441-444. *)
Definition queryParams (u : URL) : JS.object :=
  fold_left (λ o kv, JS.objSet kv.1 kv.2 o) (searchParams u) [].

(** The local [baseString], lines 439-457. *)
Definition baseString (method url : string) (c : Credentials)
    (nonce timestamp : string) (extraParams : JS.object) : option string :=
  u ← newURL url;
  let baseUrl := origin u +:+ pathname u in
  let allParams :=
    JS.objAssign (queryParams u) (oauthParams c nonce timestamp extraParams) in
  let paramPairs := buildQueryString allParams in
  Some (JS.join "&"
          [ JS.toUpperCase method; percentEncode baseUrl; percentEncode paramPairs ]).

(** [buildOAuth1Header], lines 427-470. *)
Definition buildOAuth1Header (method url : string) (c : Credentials)
    (nonce timestamp : string) (extraParams : JS.object) : option string :=
  base ← baseString method url c nonce timestamp extraParams;
  let signature := hmacSha1Base64 (signingKey c) base in
  Some (authorizationHeader
          (JS.objSet "oauth_signature" signature
             (oauthParams c nonce timestamp extraParams))).

End Signer.

(** *** The sheet as objects *)

(** One data row: its cells under the header names, and [__rowIndex1]. *)
Record Item := {
  fields : JS.object;
  rowIndex1 : nat
}.

(** [item[key]]. *)
Definition itemGet (key : string) (it : Item) : option string :=
  if decide (key = "__rowIndex1") then Some (JS.toString10 (N.of_nat (rowIndex1 it)))
  else JS.objGet key (fields it).

(** [safeSheetTab], lines 325-336, for the non-blank name [mustEnv]
    lets through. *)
Definition needsQuotes (raw : string) : bool :=
  negb (String.eqb (JS.replaceClass (λ c, negb (JS.isAlpha c || JS.isDigit c || Ascii.eqb c "_"))
                      (λ _, "") raw) raw).

Definition safeSheetTab (tabName : string) : string :=
  let raw := JS.trim tabName in
  if needsQuotes raw
  then "'" +:+ JS.replaceClass (λ c, Ascii.eqb c "'") (λ _, "''") raw +:+ "'"
  else raw.

(** The whole of [safeSheetTab], with the check of line 327; [None] is
    an [undefined] argument. *)
Definition safeSheetTabChecked (tabName : option string) : Outcome string :=
  let raw := JS.trim (JS.orEmpty tabName) in
  if negb (JS.truthy raw) then Err "Missing env var: GOOGLE_SHEET_TAB"
  else if needsQuotes raw
  then Ok ("'" +:+ JS.replaceClass (λ c, Ascii.eqb c "'") (λ _, "''") raw +:+ "'")
  else Ok raw.

(** [parseSheet], lines 349-366. *)
Definition parseSheet (rows : list (list string)) : list string * list Item :=
  if decide (length rows < 2) then ([], [])
  else
    let header := JS.trim <$> default [] (head rows) in
    (header,
     imap (λ k row,
             {| fields := JS.objLiteral (imap (λ c h, (h, JS.orEmpty (row !! c))) header);
                rowIndex1 := k + 2 |})
          (drop 1 rows)).

(** [findHeaderIndex], lines 368-371. *)
Definition findHeaderIndex (header : list string) (name : string) : option nat :=
  JS.findIndex (JS.sameName name) header.

(** [toIsoUtcFromColumns], lines 373-391. *)
Definition toIsoUtcFromColumns (publishDate timeUtc : option string) : option string :=
  let d := JS.trim (JS.orEmpty publishDate) in
  let t := JS.trim (JS.orEmpty timeUtc) in
  if negb (JS.truthy d) || negb (JS.truthy t) then None
  else
    let parts := JS.trim <$> JS.split ":" t in
    match parts with
    | p0 :: p1 :: rest =>
        let hh := JS.padStart 2 "0" p0 in
        let mm := JS.padStart 2 "0" p1 in
        let ss := JS.padStart 2 "0" (default "00" (head rest)) in
        Some (d +:+ "T" +:+ hh +:+ ":" +:+ mm +:+ ":" +:+ ss +:+ "Z")
    | _ => None
    end.

(** [header.find((h) => h.toLowerCase() === name)]. *)
Definition headerKey (header : list string) (name : string) : option string :=
  JS.find (λ h, JS.toLowerCase h = name) header.

Definition timeKey (header : list string) : option string :=
  match headerKey header "time (utc)" with
  | Some k => if JS.truthy k then Some k else headerKey header "time utc"
  | None => headerKey header "time utc"
  end.

(** [key ? item[key] : ""]. *)
Definition column (key : option string) (it : Item) : option string :=
  match key with
  | Some k => if JS.truthy k then itemGet k it else Some ""
  | None => Some ""
  end.

Definition postTextOf (header : list string) (it : Item) : string :=
  JS.trim (JS.orEmpty (column (headerKey header "post text") it)).

Definition isoOf (header : list string) (it : Item) : option string :=
  toIsoUtcFromColumns (column (headerKey header "publish date") it)
                      (column (timeKey header) it).

Definition newline2 : string :=
  String (ascii_of_nat 10) (String (ascii_of_nat 10) EmptyString).

(** The text that is posted, lines 586-597: the image URL, if any, is
    appended after a blank line. *)
Definition finalTextOf (header : list string) (it : Item) : string :=
  let text := postTextOf header it in
  let imageUrl := JS.trim (JS.orEmpty (column (headerKey header "image url") it)) in
  if JS.truthy imageUrl then text +:+ newline2 +:+ imageUrl else text.

Section Rev3.
Context `{Engine} `{Outside}.

(** [DRY_RUN] (line 320) and [GOOGLE_SHEET_TAB]. *)
Variable DRY_RUN : bool.
Variable GOOGLE_SHEET_TAB : string.

(** [isDue], lines 397-417; the clock is read once a row has text, is
    pending and has a date. *)
Definition isDue (it : Item) (header : list string) : Run bool :=
  let status := JS.trim (JS.orEmpty (column (headerKey header "status") it)) in
  if negb (JS.truthy (postTextOf header it)) then ret false
  else if decide (JS.toLowerCase status ≠ "pending") then ret false
  else match isoOf header it with
       | None => ret false
       | Some iso =>
           now ⇐ readClock ;;
           ret (match dateParse iso with
                | Some scheduled => bool_decide (scheduled ≤ now)%Z
                | None => false
                end)
       end.

Fixpoint filterRun {A} (p : A → Run bool) (xs : list A) : Run (list A) :=
  match xs with
  | [] => ret []
  | x :: xs' =>
      keep ⇐ p x ;;
      rest ⇐ filterRun p xs' ;;
      ret (if keep then x :: rest else rest)
  end.

(** The comparator of line 572. *)
Definition comparefn (a b : Item * option string) : option Z :=
  ta ← (a.2 ≫= dateParse); tb ← (b.2 ≫= dateParse); Some (ta - tb)%Z.

(** Lines 561-572. *)
Definition due (header : list string) (items : list Item)
    : Run (list (Item * option string)) :=
  kept ⇐ filterRun
           (λ x : Item * option string,
              match x.2 with
              | Some iso => if JS.truthy iso then isDue x.1 header else ret false
              | None => ret false
              end)
           ((λ it, (it, isoOf header it)) <$> items) ;;
  ret (JS.sort comparefn kept).

(** [postToX], lines 472-506.  The Authorization header it sends is
    [buildOAuth1Header] above; the reply does not depend on it here. *)
Definition postToX (text : string) : Run Json :=
  res ⇐ sendPost text ;;
  if ok res then
    match json res with
    | Some parsed => ret parsed
    | None => throw "Unexpected token in JSON"
    end
  else throw ("X post failed (" +:+ JS.toString10 (status res) +:+ "): " +:+ body res).

Definition rowRange (rowIndex1 : nat) : Range :=
  {| rangeTab := safeSheetTab GOOGLE_SHEET_TAB;
     rangeFrom := "A" +:+ JS.toString10 (N.of_nat rowIndex1);
     rangeTo := "Z" +:+ JS.toString10 (N.of_nat rowIndex1) |}.

(** [updateRow], lines 521-544. *)
Definition updateRow (header : list string) (it : Item) (updates : JS.object)
    : Run unit :=
  let existingRow := (λ h, JS.orEmpty (itemGet h it)) <$> header in
  let outRow :=
    fold_left
      (λ outRow kv,
         match findHeaderIndex header kv.1 with
         | Some idx => <[idx := kv.2]> outRow
         | None => outRow
         end)
      updates existingRow in
  sheetsUpdate (rowRange (rowIndex1 it)) (Some <$> outRow).

(** Lines 579-626 of [main]: what is done with the selected row. *)
Definition dispatch (header : list string) (next : Item) : Run unit :=
  let text := postTextOf header next in
  if negb (JS.truthy text) then ret ()
  else
    (if DRY_RUN then ret () else (_ ⇐ postToX (finalTextOf header next) ;; ret ())) ;;;
    match headerKey header "status" with
    | Some _ =>
        stamp ⇐ (match findHeaderIndex header "Posted At (UTC)" with
                 | Some _ => t ⇐ readClock ;; ret (Some (dateToISOString t))
                 | None => ret None
                 end) ;;
        let updates :=
          ("Status", "Posted") ::
          match stamp with
          | Some s => [("Posted At (UTC)", s)]
          | None => []
          end in
        if DRY_RUN then ret () else updateRow header next updates
    | None => ret ()
    end.

(** [main], lines 546-627. *)
Definition main : Run unit :=
  values ⇐ sheetsGet {| rangeTab := safeSheetTab GOOGLE_SHEET_TAB;
                        rangeFrom := "A"; rangeTo := "Z" |} ;;
  let '(header, items) := parseSheet values in
  match header with
  | [] => ret ()
  | _ =>
      dueRows ⇐ due header items ;;
      match dueRows with
      | [] => _ ⇐ readClock ;; ret ()
      | first :: _ => dispatch header first.1
      end
  end.

End Rev3.
End Rev3.

(** ** Revision 4 (lines 634-860) *)

Module Rev4.
Section Rev4.
Context `{Engine} `{Outside}.

(** [ENV.GOOGLE_SHEET_TAB]. *)
Variable GOOGLE_SHEET_TAB : string.

(** [parseUtcDateTime], lines 666-677: it throws on an invalid date. *)
Definition parseUtcDateTime (publishDate timeUtc : option string) : Outcome Z :=
  let dateStr := JS.trim (JS.String_ publishDate) in
  let timeStr := JS.trim (JS.String_ timeUtc) in
  let iso := dateStr +:+ "T" +:+ timeStr +:+ ":00Z" in
  match dateParse iso with
  | Some dt => Ok dt
  | None =>
      Err ("Invalid date/time from sheet: Publish Date=" +:+ dquote +:+ dateStr +:+ dquote
           +:+ ", Time (UTC)=" +:+ dquote +:+ timeStr +:+ dquote
           +:+ " -> " +:+ dquote +:+ iso +:+ dquote)
  end.

(** [fetchRows], lines 694-709. *)
Definition fetchRows : Run (list string * list (list string)) :=
  values ⇐ sheetsGet {| rangeTab := GOOGLE_SHEET_TAB; rangeFrom := "A"; rangeTo := "Z" |} ;;
  if decide (length values < 2) then ret ([], [])
  else ret (JS.trim <$> default [] (head values), drop 1 values).

(** [headerIndex], lines 711-715. *)
Definition headerIndex (headers : list string) (name : string) : Outcome nat :=
  match JS.findIndex (JS.sameName name) headers with
  | Some idx => Ok idx
  | None => Err ("Missing required column in sheet header: " +:+ dquote +:+ name +:+ dquote)
  end.

Definition lift {A} (o : Outcome A) : Run A :=
  match o with
  | Ok a => ret a
  | Err e => throw e
  end.

(** The loop of lines 730-733; an assignment past the end of the row
    leaves holes, which the request sends as [null]. *)
Fixpoint applyUpdates (headers : list string) (updates : list (string * string))
    (row : list (option string)) : Outcome (list (option string)) :=
  match updates with
  | [] => Ok row
  | (key, val) :: updates' =>
      match headerIndex headers key with
      | Ok idx => applyUpdates headers updates' (setAt None idx (Some val) row)
      | Err e => Err e
      end
  end.

(** Line 737: the letter of the last column written, [Z] at most. *)
Definition endCol (headers : list string) : string :=
  JS.fromCharCode (Z.to_N (65 + Z.min (Z.of_nat (length headers) - 1) 25)).

(** [updateRow], lines 717-746. *)
Definition updateRow (rowNumber1Based : nat) (headers : list string)
    (updatesObj : JS.object) : Run unit :=
  fetched ⇐ fetchRows ;;
  let rows := fetched.2 in
  match (if decide (rowNumber1Based < 2) then None else rows !! (rowNumber1Based - 2)) with
  | None => throw ("Row number out of range: " +:+ JS.toString10 (N.of_nat rowNumber1Based))
  | Some current =>
      row ⇐ lift (applyUpdates headers updatesObj (Some <$> current)) ;;
      sheetsUpdate
        {| rangeTab := GOOGLE_SHEET_TAB;
           rangeFrom := "A" +:+ JS.toString10 (N.of_nat rowNumber1Based);
           rangeTo := endCol headers +:+ JS.toString10 (N.of_nat rowNumber1Based) |}
        (take (length headers) row)
  end.

(** [postToX], lines 758-791; the oauth-1.0a package signs the request. *)
Definition postToX (statusText : string) : Run string :=
  resp ⇐ sendPost statusText ;;
  let parsed := default emptyJson (json resp) in
  if ok resp then
    match dataId parsed with
    | Some tweetId => ret tweetId
    | None => throw ("X post succeeded but no tweet id returned: " +:+ stringified parsed)
    end
  else throw ("X post failed (" +:+ JS.toString10 (status resp) +:+ "): " +:+ stringified parsed).

(** What the loop of lines 815-833 leaves in [picked]. *)
Record Picked := {
  r : nat;
  rowNumber : nat;
  postText : string;
  scheduled : Z
}.

Fixpoint scan (now : Z) (iPublishDate iTimeUtc iPostText iStatus : nat)
    (rows : list (list string)) (k : nat) : Outcome (option Picked) :=
  match rows with
  | [] => Ok None
  | row :: rows' =>
      let status := JS.trim (JS.orEmpty (row !! iStatus)) in
      if decide (JS.toLowerCase status ≠ "pending")
      then scan now iPublishDate iTimeUtc iPostText iStatus rows' (S k)
      else
        let text := JS.trim (JS.orEmpty (row !! iPostText)) in
        if negb (JS.truthy text)
        then scan now iPublishDate iTimeUtc iPostText iStatus rows' (S k)
        else
          match parseUtcDateTime (row !! iPublishDate) (row !! iTimeUtc) with
          | Err e => Err e
          | Ok t =>
              if decide (t ≤ now)%Z
              then Ok (Some {| r := k; rowNumber := k + 2; postText := text; scheduled := t |})
              else scan now iPublishDate iTimeUtc iPostText iStatus rows' (S k)
          end
  end.

(** Lines 840-854 of [main], with the optional columns of lines
    809-810: what is done with the picked row. *)
Definition dispatch (headers : list string) (picked : Picked) : Run unit :=
  let iTweetId := JS.findIndex (λ h, JS.toLowerCase h = "tweet_id") headers in
  let iPostedAt := JS.findIndex (λ h, JS.toLowerCase h = "posted_at") headers in
  tweetId ⇐ postToX (postText picked) ;;
  stamp ⇐ (match iPostedAt with
           | Some _ => t ⇐ readClock ;; ret [("posted_at", dateToISOString t)]
           | None => ret []
           end) ;;
  let updates :=
    [("Status", "Posted")] ++
    (match iTweetId with Some _ => [("tweet_id", tweetId)] | None => [] end) ++
    stamp in
  updateRow (rowNumber picked) headers updates.

(** [main], lines 793-855. *)
Definition main : Run unit :=
  now ⇐ readClock ;;
  fetched ⇐ fetchRows ;;
  let '(headers, rows) := fetched in
  match headers with
  | [] => ret ()
  | _ =>
      iPublishDate ⇐ lift (headerIndex headers "Publish Date") ;;
      iTimeUtc ⇐ lift (headerIndex headers "Time (UTC)") ;;
      iPostText ⇐ lift (headerIndex headers "Post Text") ;;
      iStatus ⇐ lift (headerIndex headers "Status") ;;
      picked ⇐ lift (scan now iPublishDate iTimeUtc iPostText iStatus rows 0) ;;
      match picked with
      | None => ret ()
      | Some picked => dispatch headers picked
      end
  end.

End Rev4.
End Rev4.

(** ** Revision 5 (lines 861-1146) *)

Module Rev5.

(** *** The signer *)

(** The local [baseString] of [oauth1Header], lines 920-938. *)
Definition baseString (method url : string) (c : Credentials)
    (nonce timestamp : string) : string :=
  let oauthParams := JS.objLiteral (oauthLiteral c nonce timestamp) in
  let baseParams := JS.objAssign [] oauthParams in
  let paramString := buildQueryString baseParams in
  JS.join "&" [ JS.toUpperCase method; percentEncode url; percentEncode paramString ].

(** [oauth1Header], lines 919-953; [hmacSha1Base64 key text] is
    [crypto.createHmac("sha1", key).update(text).digest("base64")]. *)
Definition oauth1Header (hmacSha1Base64 : string → string → string)
    (method url : string) (c : Credentials) (nonce timestamp : string) : string :=
  let oauthParams := JS.objLiteral (oauthLiteral c nonce timestamp) in
  let signature := hmacSha1Base64 (signingKey c) (baseString method url c nonce timestamp) in
  authorizationHeader (JS.objAssign oauthParams [("oauth_signature", signature)]).

(** *** The sheet as objects *)

(** One data row: its cells under the header names, and [__rowIndex].
    The script reads the cells by four fixed names only. *)
Record Row := {
  fields : JS.object;
  rowIndex : nat
}.

(** [toLowerTrim], lines 884-886. *)
Definition toLowerTrim (v : option string) : string :=
  JS.toLowerCase (JS.trim (JS.orEmpty v)).

(** [quoteSheetName], lines 872-875. *)
Definition quoteSheetName (name : string) : string :=
  "'" +:+ JS.replaceClass (λ c, Ascii.eqb c "'") (λ _, "''") name +:+ "'".

(** The text of the row, as lines 1105 and 1117 read it. *)
Definition textOf (row : Row) : string :=
  JS.trim (JS.orEmpty (JS.objGet "Post Text" (fields row))).

Definition isPending (row : Row) : Prop :=
  toLowerTrim (JS.objGet "Status" (fields row)) = "pending".

#[global] Instance isPending_dec row : Decision (isPending row).
Proof. unfold isPending. apply _. Defined.

(** The comparator of line 1108. *)
Definition comparefn (a b : Row * option Z) : option Z :=
  Some (default 0 a.2 - default 0 b.2)%Z.

(** The filter of lines 1104-1107. *)
Definition isDue (now : Z) (x : Row * option Z) : Prop :=
  JS.truthy (textOf x.1) = true ∧
  match x.2 with
  | Some t => (t ≤ now)%Z
  | None => False
  end.

#[global] Instance isDue_dec now x : Decision (isDue now x).
Proof. unfold isDue. destruct (x.2); apply _. Defined.

(** The range and the batch of [updateRowByHeader], lines 1016-1028:
    [indexOf] compares the names as they are. *)
Definition colLetter (colIdx : nat) : string :=
  JS.fromCharCode (65 + N.of_nat colIdx).

Definition cellRange (tabName : string) (colIdx rowIndex : nat) : Range :=
  {| rangeTab := quoteSheetName tabName;
     rangeFrom := colLetter colIdx +:+ JS.toString10 (N.of_nat rowIndex);
     rangeTo := colLetter colIdx +:+ JS.toString10 (N.of_nat rowIndex) |}.

Definition batchOf (tabName : string) (headers : list string) (rowIndex : nat)
    (updates : JS.object) : list (Range * string) :=
  omap (λ kv : string * string,
          (λ colIdx, (cellRange tabName colIdx rowIndex, kv.2))
          <$> JS.findIndex (λ h, h = kv.1) headers)
       updates.

Section Rev5.
Context `{Engine} `{Outside}.

(** [GOOGLE_SHEET_TAB], trimmed by [mustEnv]. *)
Variable tabName : string.

(** [parseUtcDueDate], lines 888-905: first what is done with the two
    trimmed texts (lines 895-904), then the function on a row. *)
Definition dueDateOf (d t : string) : option Z :=
  if negb (JS.truthy d) || negb (JS.truthy t) then None
  else
    let time := if decide (String.length t = 5) then t +:+ ":00" else t in
    dateParse (d +:+ "T" +:+ time +:+ "Z").

Definition parseUtcDueDate (row : Row) : option Z :=
  dueDateOf (JS.trim (JS.orEmpty (JS.objGet "Publish Date" (fields row))))
            (JS.trim (JS.orEmpty (JS.objGet "Time (UTC)" (fields row)))).

(** [fetchRowsAndHeaders], lines 986-1014 (the tab is taken to exist). *)
Definition fetchRowsAndHeaders : Run (list string * list Row) :=
  values ⇐ sheetsGet {| rangeTab := quoteSheetName tabName;
                        rangeFrom := "A"; rangeTo := "Z" |} ;;
  if decide (length values < 2) then ret ([], [])
  else
    let headers := JS.trim <$> default [] (head values) in
    ret (headers,
         imap (λ idx row,
                 {| fields := JS.objLiteral (imap (λ k h, (h, JS.orEmpty (row !! k))) headers);
                    rowIndex := idx + 2 |})
              (drop 1 values)).

(** [updateRowByHeader], lines 1016-1039. *)
Definition updateRowByHeader (headers : list string) (rowIndex : nat)
    (updates : JS.object) : Run unit :=
  match batchOf tabName headers rowIndex updates with
  | [] => ret ()
  | data => sheetsBatchUpdate data
  end.

(** [postToX], lines 1042-1080. *)
Definition postToX (text : string) : Run string :=
  resp ⇐ sendPost text ;;
  let parsed := default emptyJson (json resp) in
  if ok resp then
    match dataId parsed with
    | Some tweetId => ret tweetId
    | None => throw "X post returned success but no tweet id."
    end
  else
    let msg := default (default (stringified parsed) (title parsed)) (detail parsed) in
    throw ("X post failed (" +:+ JS.toString10 (status resp) +:+ "): " +:+ msg).

(** Lines 1098-1108. *)
Definition candidates (rows : list Row) (now : Z) : list (Row * option Z) :=
  JS.sort comparefn
    (filter (isDue now)
       ((λ row, (row, parseUtcDueDate row)) <$> filter isPending rows)).

(** Lines 1115-1139 of [main]: what is done with the chosen row. *)
Definition dispatch (headers : list string) (chosen : Row) : Run unit :=
  tweetId ⇐ postToX (textOf chosen) ;;
  stamp ⇐ readClock ;;
  updateRowByHeader headers (rowIndex chosen)
    [ ("Status", "Posted");
      ("Tweet ID", tweetId);
      ("Posted At (UTC)", dateToISOString stamp) ].

(** [main], lines 1083-1145. *)
Definition main : Run unit :=
  fetched ⇐ fetchRowsAndHeaders ;;
  let '(headers, rows) := fetched in
  match rows with
  | [] => ret ()
  | _ =>
      now ⇐ readClock ;;
      match candidates rows now with
      | [] => ret ()
      | first :: _ => dispatch headers first.1
      end
  end.

End Rev5.
End Rev5.

(** ** Views used in the statements *)

(** The pairs [buildQueryString] joins. *)
Definition pairsOf (params : JS.object) : list (string * string) :=
  (λ k, (k, JS.String_ (JS.objGet k params))) <$> JS.sortStrings (JS.objKeys params).

(** What a read of [A:Z] returns ([A1:Z10000] returns the same of the
    first 10000 rows). *)
Definition readAZ (s : Sheet) : list (list string) :=
  dropTrailing isEmptyRow ((λ row, dropTrailing isEmptyCell (take 26 row)) <$> s).

(** The cells revision 1's [updateRow] starts from: those of the row,
    as read. *)
Definition rowAsRead (s : Sheet) (n width : nat) : list string :=
  (λ i, if decide (i < 26) then cell s n i else "") <$> seq 0 width.

(** What revision 4's [fetchRows] returns, as a function of the sheet. *)
Definition tableOf (s : Sheet) : list string * list (list string) :=
  if decide (length (readAZ s) < 2) then ([], [])
  else (JS.trim <$> default [] (head (readAZ s)), drop 1 (readAZ s)).

(** What revision 5's [fetchRowsAndHeaders] returns. *)
Definition objectsOf (s : Sheet) : list string * list Rev5.Row :=
  if decide (length (readAZ s) < 2) then ([], [])
  else
    let headers := JS.trim <$> default [] (head (readAZ s)) in
    (headers,
     imap (λ idx row,
             {| Rev5.fields :=
                  JS.objLiteral (imap (λ k h, (h, JS.orEmpty (row !! k))) headers);
                Rev5.rowIndex := idx + 2 |})
          (drop 1 (readAZ s))).

(** [sends n m]: whatever the world, the computation [m] adds requests
    to the trace and at most [n] of them are posts. *)
Definition sends {A} (n : nat) (m : Run A) : Prop :=
  ∀ w, ∃ tr, trace (m w).2 = trace w ++ tr ∧ length (posts tr) ≤ n.

(** [keeps R m]: the sheet after [m] is related by [R] to the sheet
    before. *)
Definition keeps (R : relation Sheet) {A} (m : Run A) : Prop :=
  ∀ w, R (sheet w) (sheet (m w).2).

(** No cell to the right of column Z differs. *)
Definition sameBeyondZ (s s' : Sheet) : Prop :=
  ∀ r c, 26 ≤ c → cell s' r c = cell s r c.

(** A range whose last column is Z or before, if it parses at all. *)
Definition endsByZ (rg : Range) : Prop :=
  ∀ to, parseRef (rangeTo rg) = Some to → refCol to < 26.

(** *** The order of the candidates

    Revision 1: [a] stands before [b] when its instant is earlier or,
    the instants being equal, when both carry a numeric id and [a]'s is
    smaller or, the ids being equal or one of them missing, when [a] comes
    first in the sheet. *)
Definition notLater (a b : Rev1.Candidate) : Prop :=
  match Rev1.dt a, Rev1.dt b with
  | Some ta, Some tb => (ta ≤ tb)%Z
  | _, _ => False
  end.

Definition before1 (a b : Rev1.Candidate) : Prop :=
  match Rev1.dt a, Rev1.dt b with
  | Some ta, Some tb =>
      (ta < tb)%Z ∨
      (ta = tb ∧
       match Rev1.id a, Rev1.id b with
       | Some x, Some y => (x < y)%Z ∨ (x = y ∧ Rev1.i a < Rev1.i b)
       | _, _ => Rev1.i a < Rev1.i b
       end)
  | _, _ => False
  end.

(** Among candidates of the same instant, either all carry a numeric id
    or none does: what makes the comparator of revision 1 consistent. *)
Definition uniformIds (l : list Rev1.Candidate) : Prop :=
  ∀ a b, a ∈ l → b ∈ l → Rev1.dt a = Rev1.dt b →
         (is_Some (Rev1.id a) ↔ is_Some (Rev1.id b)).

(** Revision 5: [a] stands before [b] when its instant is earlier or,
    the instants being equal, when it comes first in the sheet. *)
Definition before5 (a b : Rev5.Row * option Z) : Prop :=
  match a.2, b.2 with
  | Some ta, Some tb => (ta < tb)%Z ∨ (ta = tb ∧ Rev5.rowIndex a.1 < Rev5.rowIndex b.1)
  | _, _ => False
  end.

(** The rows revision 1 sorts: pending and due, in sheet order. *)
Definition dueRows1 `{Engine} (cols : Rev1.Columns) (rows : list (list string)) (now : Z)
    : list Rev1.Candidate :=
  filter (Rev1.isDue now)
    (map (λ x : nat * list string,
            {| Rev1.r := x.2; Rev1.i := x.1; Rev1.sheetRow := x.1 + 2;
               Rev1.dt := Rev1.parseUtcDateTime (x.2 !! Rev1.idxPublishDate cols)
                                                (x.2 !! Rev1.idxTimeUtc cols);
               Rev1.id := toNumber (x.2 !! Rev1.idxId cols) |})
      (filter (Rev1.isPending (Rev1.idxStatus cols)) (imap (λ i r, (i, r)) rows))).

(** The rows revision 5 sorts. *)
Definition dueRows5 `{Engine} (rows : list Rev5.Row) (now : Z) : list (Rev5.Row * option Z) :=
  filter (Rev5.isDue now)
    ((λ row, (row, Rev5.parseUtcDueDate row)) <$> filter Rev5.isPending rows).

(** [quiet m]: [m] returns, and neither the sheet nor the trace changes
    (it may read the clock). *)
Definition quiet {A} (m : Run A) : Prop :=
  ∀ w, ∃ a, (m w).1 = Ok a ∧ sheet (m w).2 = sheet w ∧ trace (m w).2 = trace w.

(** The status test of revision 3's [isDue], line 405. *)
Definition pending3 (header : list string) (it : Rev3.Item) : Prop :=
  JS.toLowerCase (JS.trim (JS.orEmpty (Rev3.column (Rev3.headerKey header "status") it)))
  = "pending".

(** The two forms of a time of day: [hh:mm] and [hh:mm:ss]. *)
Definition hhmm (a b c e : ascii) : string :=
  String a (String b (String ":" (String c (String e EmptyString)))).

Definition hhmmss (a b c e f g : ascii) : string :=
  hhmm a b c e +:+ String ":" (String f (String g EmptyString)).

(** Every character of [s] satisfies [p]. *)
Fixpoint everyChar (p : ascii → bool) (s : string) : bool :=
  match s with
  | EmptyString => true
  | String c s' => p c && everyChar p s'
  end.

(** The characters outside the class [[^A-Za-z0-9_]] of line 331. *)
Definition wordChar (c : ascii) : bool :=
  JS.isAlpha c || JS.isDigit c || Ascii.eqb c "_".

(** A row the loop of revision 4 picks when it reaches it: pending,
    with text, and due. *)
Definition eligible4 `{Engine} (now : Z) (iPublishDate iTimeUtc iPostText iStatus : nat)
    (row : list string) : Prop :=
  JS.toLowerCase (JS.trim (JS.orEmpty (row !! iStatus))) = "pending" ∧
  JS.truthy (JS.trim (JS.orEmpty (row !! iPostText))) = true ∧
  ∃ t, Rev4.parseUtcDateTime (row !! iPublishDate) (row !! iTimeUtc) = Ok t ∧ (t ≤ now)%Z.

(** The last position of [h] in a list of headers. *)
Fixpoint lastIndexOf (h : string) (headers : list string) : option nat :=
  match headers with
  | [] => None
  | x :: rest =>
      match lastIndexOf h rest with
      | Some c => Some (S c)
      | None => if decide (x = h) then Some 0 else None
      end
  end.

(** The column whose value revision 3's [updateRow] writes back to
    column [c]: the last column with the same header name. *)
Definition sourceCol (header : list string) (c : nat) : nat :=
  default c (header !! c ≫= λ h, lastIndexOf h header).

(** Revision 3: [a] stands before [b] when its instant is earlier or,
    the instants being equal, when it comes first in the sheet. *)
Definition before3 `{Engine} (a b : Rev3.Item * option string) : Prop :=
  match a.2 ≫= dateParse, b.2 ≫= dateParse with
  | Some ta, Some tb =>
      (ta < tb)%Z ∨ (ta = tb ∧ Rev3.rowIndex1 a.1 < Rev3.rowIndex1 b.1)
  | _, _ => False
  end.

(** One field of the Authorization header: [key="value"], both
    percent-encoded. *)
Definition headerField (k v : string) : string :=
  percentEncode k +:+ "=" +:+ dquote +:+ percentEncode v +:+ dquote.

(** The octet two upper-case hexadecimal digits stand for. *)
Definition hexValue (c : ascii) : N :=
  if JS.isDigit c then (JS.code c - 48)%N else (JS.code c - 55)%N.

Definition unescapeOctet (h l : ascii) : ascii :=
  ascii_of_N (16 * hexValue h + hexValue l).

(** ** A reference engine

    The examples run the scripts on an engine that behaves as the
    language standard prescribes on the texts the examples use:
    [Date.parse] on the date-time format [YYYY-MM-DDTHH:mm], with
    optional [:ss] and [.sss], followed by [Z] (texts with a field out of
    range, and in this engine every text of another shape, are invalid
    dates); [toISOString] for years 0 to 9999; [Number] on [undefined],
    on blank text and on decimal integers (every other text gives
    [NaN] in this engine). *)
Module Reference.

Definition digit (c : ascii) : option Z :=
  if JS.isDigit c then Some (Z.of_N (JS.code c) - 48)%Z else None.

Definition num2 (a b : ascii) : option Z :=
  x ← digit a; y ← digit b; Some (10 * x + y)%Z.

Definition num3 (a b c : ascii) : option Z :=
  x ← digit a; y ← num2 b c; Some (100 * x + y)%Z.

Definition num4 (a b c d : ascii) : option Z :=
  x ← num2 a b; y ← num2 c d; Some (100 * x + y)%Z.

Definition isLeap (y : Z) : bool :=
  ((y mod 4 =? 0) && negb (y mod 100 =? 0) || (y mod 400 =? 0))%Z.

Definition daysInMonth (y m : Z) : Z :=
  if (m =? 2)%Z then (if isLeap y then 29 else 28)%Z
  else if ((m =? 4) || (m =? 6) || (m =? 9) || (m =? 11))%Z then 30%Z
  else 31%Z.

(** Days from 1970-01-01 to the given day of the Gregorian calendar. *)
Definition daysFromCivil (y m d : Z) : Z :=
  let y' := (if m <=? 2 then y - 1 else y)%Z in
  let era := (y' / 400)%Z in
  let yoe := (y' - era * 400)%Z in
  let mp := ((m + 9) mod 12)%Z in
  let doy := ((153 * mp + 2) / 5 + d - 1)%Z in
  let doe := (yoe * 365 + yoe / 4 - yoe / 100 + doy)%Z in
  (era * 146097 + doe - 719468)%Z.

(** The seconds and milliseconds that may follow [HH:mm], up to [Z]. *)
Definition parseSeconds (rest : string) : option Z :=
  match rest with
  | String "Z" EmptyString => Some 0%Z
  | String ":" (String s1 (String s2 (String "Z" EmptyString))) =>
      s ← num2 s1 s2; guard (s <= 59)%Z;; Some (1000 * s)%Z
  | String ":" (String s1 (String s2 (String "."
      (String f1 (String f2 (String f3 (String "Z" EmptyString))))))) =>
      s ← num2 s1 s2; f ← num3 f1 f2 f3; guard (s <= 59)%Z;; Some (1000 * s + f)%Z
  | _ => None
  end%char.

Definition parseDate (s : string) : option Z :=
  match s with
  | String y1 (String y2 (String y3 (String y4 (String "-"
      (String m1 (String m2 (String "-" (String d1 (String d2 (String "T"
      (String h1 (String h2 (String ":" (String n1 (String n2 rest)))))))))))))))
    =>
      y ← num4 y1 y2 y3 y4; m ← num2 m1 m2; d ← num2 d1 d2;
      h ← num2 h1 h2; n ← num2 n1 n2; ms ← parseSeconds rest;
      guard (1 <= m <= 12)%Z;;
      guard (1 <= d <= daysInMonth y m)%Z;;
      guard (h <= 23 ∧ n <= 59 ∨ h = 24 ∧ n = 0 ∧ ms = 0)%Z;;
      Some (((daysFromCivil y m d * 24 + h) * 60 + n) * 60000 + ms)%Z
  | _ => None
  end%char.

Definition pad (width : nat) (n : Z) : string :=
  JS.padStart width "0" (JS.toString10 (Z.to_N n)).

(** [toISOString] of a time value whose year is from 0 to 9999. *)
Definition toISOString (t : Z) : string :=
  let days := (t / 86400000)%Z in
  let msOfDay := (t mod 86400000)%Z in
  let z := (days + 719468)%Z in
  let era := (z / 146097)%Z in
  let doe := (z - era * 146097)%Z in
  let yoe := ((doe - doe / 1460 + doe / 36524 - doe / 146096) / 365)%Z in
  let doy := (doe - (365 * yoe + yoe / 4 - yoe / 100))%Z in
  let mp := ((5 * doy + 2) / 153)%Z in
  let d := (doy - (153 * mp + 2) / 5 + 1)%Z in
  let m := (if mp <? 10 then mp + 3 else mp - 9)%Z in
  let y := (yoe + era * 400 + (if m <=? 2 then 1 else 0))%Z in
  pad 4 y +:+ "-" +:+ pad 2 m +:+ "-" +:+ pad 2 d +:+ "T" +:+
  pad 2 (msOfDay / 3600000) +:+ ":" +:+ pad 2 (msOfDay / 60000 mod 60) +:+ ":" +:+
  pad 2 (msOfDay / 1000 mod 60) +:+ "." +:+ pad 3 (msOfDay mod 1000) +:+ "Z".

Fixpoint digitsZ (s : string) (acc : Z) : option Z :=
  match s with
  | EmptyString => Some acc
  | String c s' => d ← digit c; digitsZ s' (10 * acc + d)%Z
  end.

Definition number (v : option string) : option Z :=
  match v with
  | None => None
  | Some s =>
      match JS.trim s with
      | EmptyString => Some 0%Z
      | String "-" (String c s') => Z.opp <$> digitsZ (String c s') 0
      | String "+" (String c s') => digitsZ (String c s') 0
      | t => digitsZ t 0
      end%char
  end.

(** The URL class on the URLs of the examples: lower-case [http] and
    [https] URLs with a host and a path, without port, user information,
    escapes or dot segments. *)
Fixpoint cutAt (stop : ascii → bool) (s : string) : string * string :=
  match s with
  | EmptyString => (EmptyString, EmptyString)
  | String c s' =>
      if stop c then (EmptyString, s)
      else let '(a, b) := cutAt stop s' in (String c a, b)
  end.

Definition isChar (x c : ascii) : bool := Ascii.eqb c x.

Definition parsePair (kv : string) : string * string :=
  let '(k, rest) := cutAt (isChar "=") kv in
  (k, match rest with String _ v => v | EmptyString => EmptyString end).

Definition parseQuery (q : string) : list (string * string) :=
  parsePair <$> filter (λ kv, kv ≠ EmptyString) (JS.split "&" q).

Definition parseAfterScheme (scheme rest : string) : option URL :=
  let '(host, rest1) := cutAt (λ c, isChar "/" c || isChar "?" c || isChar "#" c) rest in
  let '(path, rest2) := cutAt (λ c, isChar "?" c || isChar "#" c) rest1 in
  let '(query, _) :=
    match rest2 with
    | String "?" q => cutAt (isChar "#") q
    | _ => (EmptyString, EmptyString)
    end%char in
  match host with
  | EmptyString => None
  | _ =>
      Some {| origin := scheme +:+ "://" +:+ host;
              pathname := match path with EmptyString => "/" | _ => path end;
              searchParams := parseQuery query |}
  end.

Definition parseURL (url : string) : option URL :=
  match url with
  | String "h" (String "t" (String "t" (String "p" (String "s"
      (String ":" (String "/" (String "/" rest))))))) =>
      parseAfterScheme "https" rest
  | String "h" (String "t" (String "t" (String "p"
      (String ":" (String "/" (String "/" rest)))))) =>
      parseAfterScheme "http" rest
  | _ => None
  end%char.

(** The credentials, nonce and time stamp of the examples. *)
Definition creds : Credentials :=
  {| consumerKey := "ck"; consumerSecret := "cs"; token := "tk"; tokenSecret := "ts" |}.
Definition nonce : string := "0123456789abcdef0123456789abcdef".
Definition timestamp : string := "1769904000".

Definition engine : Engine := {|
  dateParse := parseDate;
  dateToISOString := toISOString;
  toNumber := number
|}.

(** A posting API that accepts every post and names it by a fixed id,
    and one that answers every post with [reply]. *)
Definition created : Response :=
  {| status := 201;
     body := "{}";
     json := Some {| detail := None; title := None;
                     dataId := Some "1900000000000000001";
                     stringified := "{}" |} |}.

Definition answering (reply : Response) (time : Z) : Outside :=
  {| clock := λ k, (time + Z.of_nat k)%Z; postingApi := λ _, reply |}.

(** The reply to a post with bad credentials. *)
Definition unauthorizedText : string :=
  "{" +:+ dquote +:+ "detail" +:+ dquote +:+ ":" +:+ dquote +:+ "Unauthorized" +:+ dquote +:+ "}".

Definition unauthorized : Response :=
  {| status := 401;
     body := unauthorizedText;
     json := Some {| detail := Some "Unauthorized"; title := None; dataId := None;
                     stringified := unauthorizedText |} |}.

(** A reply that reports success and names no post. *)
Definition bare : Response :=
  {| status := 200; body := "{}"; json := Some emptyJson |}.

(** The outside of most examples: every post is accepted, and the run
    starts on 1 February 2026 at midnight. *)
Definition accepting : Outside := answering created 1769904000000.

(** 2026-02-01T00:00:00.000Z. *)
Definition feb1 : Z := 1769904000000.

(** A small queue: the header row and three posts. *)
Definition queue : Sheet :=
  [ ["id"; "Publish Date"; "Time (UTC)"; "Post Text"; "Status"; "Posted At"; "Tweet ID"];
    ["1"; "2026-01-31"; "20:05"; "second"; "Pending"];
    ["2"; "2026-01-31"; "10:00:00"; "first"; "pending"];
    ["3"; "2026-03-01"; "10:00"; "later"; "Pending"] ].

(** The columns of [queue], as revision 1 finds them. *)
Definition queueCols : Rev1.Columns :=
  {| Rev1.idxPublishDate := 1; Rev1.idxTimeUtc := 2; Rev1.idxPostText := 3;
     Rev1.idxStatus := 4; Rev1.idxId := 0 |}.

(** Two posts due at the same instant, the larger id first. *)
Definition ties : Sheet :=
  [ ["id"; "Publish Date"; "Time (UTC)"; "Post Text"; "Status"; "Tweet ID"; "Posted At (UTC)"];
    ["2"; "2026-01-31"; "10:00"; "two"; "Pending"];
    ["1"; "2026-01-31"; "10:00"; "one"; "Pending"] ].

(** One pending, due row without text. *)
Definition blank : Sheet :=
  [ ["id"; "Publish Date"; "Time (UTC)"; "Post Text"; "Status"; "Posted At"];
    ["1"; "2026-01-31"; "10:00"; ""; "Pending"] ].

(** A pending row dated in month 13, before a row that is due; and a
    due row whose time carries seconds. *)
Definition misdated : Sheet :=
  [ ["Publish Date"; "Time (UTC)"; "Post Text"; "Status"];
    ["2026-13-01"; "10:00"; "never"; "Pending"];
    ["2026-01-31"; "10:00"; "due"; "Pending"] ].

Definition withSeconds : Sheet :=
  [ ["Publish Date"; "Time (UTC)"; "Post Text"; "Status"];
    ["2026-01-31"; "10:00:00"; "due"; "Pending"] ].

(** A queue with the columns revision 4 fills in. *)
Definition logged : Sheet :=
  [ ["Publish Date"; "Time (UTC)"; "Post Text"; "Status"; "tweet_id"; "posted_at"];
    ["2026-01-31"; "10:00"; "hello"; "Pending"] ].

End Reference.


(** * Proofs *)

(** ** Strings *)

Lemma append_cons c (s t : string) : String c s +:+ t = String c (s +:+ t).
Proof. reflexivity. Qed.

Lemma append_nil_r (s : string) : s +:+ "" = s.
Proof. induction s as [|c s IH]; [done|]. by rewrite append_cons, IH. Qed.

Lemma append_assoc (s t u : string) : (s +:+ t) +:+ u = s +:+ (t +:+ u).
Proof. induction s as [|c s IH]; [done|]. by rewrite !append_cons, IH. Qed.

Lemma length_append (s t : string) :
  String.length (s +:+ t) = String.length s + String.length t.
Proof.
  induction s as [|c s IH]; [done|]. rewrite append_cons. simpl. by rewrite IH.
Qed.

Lemma replaceClass_app cls f s t :
  JS.replaceClass cls f (s +:+ t) = JS.replaceClass cls f s +:+ JS.replaceClass cls f t.
Proof.
  induction s as [|c s IH]; [done|].
  rewrite append_cons. cbn [JS.replaceClass]. by rewrite IH, append_assoc.
Qed.

(** ** Percent-encoding *)

Example percentEncode_sample :
  percentEncode "Hi there! (it's *me*)~" = "Hi%20there%21%20%28it%27s%20%2Ame%2A%29~".
Proof. vm_compute. reflexivity. Qed.

(** One character at a time: the second pass of [percentEncode] undoes
    the five exceptions of [encodeURIComponent] and touches nothing else,
    the escapes of the first pass included. *)
Lemma percentEncode_char (c : ascii) :
  JS.replaceClass bangQuoteParenStar
    (λ c, "%" +:+ JS.toUpperCase (JS.toString16 (JS.code c)))
    (if JS.uriUnescaped c then String c EmptyString else JS.escapeOctet c)
  = if rfc3986Unreserved c then String c EmptyString else JS.escapeOctet c.
Proof.
  destruct c as [[] [] [] [] [] [] [] []]; vm_compute; reflexivity.
Qed.

(** C8.  [percentEncode] leaves the RFC 3986 unreserved characters
    (letters, digits, [- _ . ~]) as they are and replaces every other
    octet, the five characters [! ' ( ) *] included, by its upper-case
    percent-escape. *)
Theorem percentEncode_rfc3986 (s : string) :
  percentEncode s = percentEncodeSpec s.
Proof.
  unfold percentEncode. induction s as [|c s IH]; [done|].
  cbn [JS.encodeURIComponent percentEncodeSpec].
  rewrite replaceClass_app, IH. f_equal. apply percentEncode_char.
Qed.

(** ** Objects *)

Lemma objGet_objSet k k' v (o : JS.object) :
  JS.objGet k (JS.objSet k' v o) = if decide (k' = k) then Some v else JS.objGet k o.
Proof.
  induction o as [|[k0 v0] o IH]; simpl.
  - by case_decide.
  - destruct (decide (k0 = k')) as [->|Hne]; simpl.
    + by case_decide.
    + destruct (decide (k0 = k)) as [->|]; [|done].
      by rewrite decide_False by congruence.
Qed.

Lemma objKeys_objSet k v (o : JS.object) k' :
  k' ∈ JS.objKeys (JS.objSet k v o) ↔ k' = k ∨ k' ∈ JS.objKeys o.
Proof.
  unfold JS.objKeys. induction o as [|[k0 v0] o IH]; simpl.
  - rewrite list_elem_of_singleton. set_solver.
  - destruct (decide (k0 = k)) as [->|Hne]; simpl.
    + set_solver.
    + rewrite !elem_of_cons, IH. naive_solver.
Qed.

Lemma objSet_NoDup k v (o : JS.object) :
  NoDup (JS.objKeys o) → NoDup (JS.objKeys (JS.objSet k v o)).
Proof.
  unfold JS.objKeys. induction o as [|[k0 v0] o IH]; simpl; intros Hnd.
  - apply NoDup_singleton.
  - apply NoDup_cons in Hnd as [Hnotin Hnd].
    destruct (decide (k0 = k)) as [->|Hne]; simpl.
    + by apply NoDup_cons.
    + apply NoDup_cons. split; [|by apply IH].
      intros Hin. apply (objKeys_objSet k v o k0) in Hin as [?|?]; done.
Qed.

Lemma objAssign_NoDup (a b : JS.object) :
  NoDup (JS.objKeys a) → NoDup (JS.objKeys (JS.objAssign a b)).
Proof.
  unfold JS.objAssign. revert a.
  induction b as [|[k v] b IH]; intros a Ha; simpl; [done|].
  apply IH. by apply objSet_NoDup.
Qed.

Lemma objGet_objAssign k (a b : JS.object) :
  JS.objGet k (JS.objAssign a b) =
  match lastValue k b with Some v => Some v | None => JS.objGet k a end.
Proof.
  unfold JS.objAssign. revert a.
  induction b as [|[k0 v0] b IH]; intros a; simpl; [done|].
  rewrite IH. destruct (lastValue k b); [done|].
  rewrite objGet_objSet. simpl. by case_decide.
Qed.

Lemma objGet_Some_keys k v (o : JS.object) :
  JS.objGet k o = Some v → k ∈ JS.objKeys o.
Proof.
  unfold JS.objKeys. induction o as [|[k0 v0] o IH]; simpl; [done|].
  case_decide; set_solver.
Qed.

Lemma objKeys_objGet k (o : JS.object) :
  k ∈ JS.objKeys o → is_Some (JS.objGet k o).
Proof.
  unfold JS.objKeys. induction o as [|[k0 v0] o IH]; simpl; [set_solver|].
  case_decide; [eauto|]. set_solver.
Qed.

(** In an object every name occurs once, so its value is the last one. *)
Lemma lastValue_object k (o : JS.object) :
  NoDup (JS.objKeys o) → lastValue k o = JS.objGet k o.
Proof.
  unfold JS.objKeys. induction o as [|[k0 v0] o IH]; simpl; [done|].
  intros [Hnotin Hnd]%NoDup_cons. rewrite IH by done.
  destruct (decide (k0 = k)) as [->|]; [|by destruct (JS.objGet k o)].
  destruct (JS.objGet k o) eqn:Hget; [|done].
  by apply objGet_Some_keys in Hget.
Qed.

(** ** Sorted keys *)

Lemma StronglySorted_strict {A} (R : relation A) `{!AntiSymm (=) R} (l : list A) :
  StronglySorted R l → NoDup l → StronglySorted (strict R) l.
Proof.
  induction 1 as [|x l Hsorted IH Hall]; intros Hnd; [constructor|].
  apply NoDup_cons in Hnd as [Hnotin Hnd].
  constructor; [by apply IH|].
  rewrite Forall_forall in Hall |- *. intros y Hy. split; [by apply Hall|].
  intros Hyx. assert (x = y) as -> by (apply (anti_symm R); auto). done.
Qed.

Lemma sortStrings_sorted (ks : list string) :
  NoDup ks → StronglySorted (strict String.le) (JS.sortStrings ks).
Proof.
  intros Hnd. apply StronglySorted_strict; [apply _| |].
  - apply StronglySorted_merge_sort; apply _.
  - unfold JS.sortStrings. by rewrite merge_sort_Permutation.
Qed.

Lemma sortStrings_elem_of k (ks : list string) : k ∈ JS.sortStrings ks ↔ k ∈ ks.
Proof. unfold JS.sortStrings. by rewrite merge_sort_Permutation. Qed.

Lemma buildQueryString_pairs (params : JS.object) :
  buildQueryString params =
  JS.join "&" (map (λ kv, percentEncode kv.1 +:+ "=" +:+ percentEncode kv.2) (pairsOf params)).
Proof. unfold buildQueryString, pairsOf. by rewrite map_map. Qed.

Lemma pairsOf_sorted (params : JS.object) :
  NoDup (JS.objKeys params) →
  StronglySorted (λ a b, strict String.le a.1 b.1) (pairsOf params).
Proof.
  intros Hnd. unfold pairsOf.
  eapply StronglySorted_fmap, sortStrings_sorted; [|done]. by intros x y.
Qed.

Lemma pairsOf_elem_of k v (params : JS.object) :
  (k, v) ∈ pairsOf params ↔ JS.objGet k params = Some v.
Proof.
  unfold pairsOf. rewrite list_elem_of_fmap. split.
  - intros (k' & [= -> ->] & Hin).
    apply (proj1 (sortStrings_elem_of _ _)) in Hin.
    by destruct (objKeys_objGet _ _ Hin) as [v ->].
  - intros Hget. exists k. rewrite Hget. split; [done|].
    apply (proj2 (sortStrings_elem_of _ _)). by eapply objGet_Some_keys.
Qed.

Lemma join3 (a b c : string) : JS.join "&" [a; b; c] = a +:+ "&" +:+ b +:+ "&" +:+ c.
Proof. reflexivity. Qed.

(** ** The signature base string *)

Lemma objLiteral_NoDup kvs : NoDup (JS.objKeys (JS.objLiteral kvs)).
Proof. apply objAssign_NoDup. constructor. Qed.

Lemma oauthParams_NoDup c nonce timestamp extraParams :
  NoDup (JS.objKeys (Rev3.oauthParams c nonce timestamp extraParams)).
Proof. apply objAssign_NoDup, objLiteral_NoDup. Qed.

(** Revision 3 signs the query of the URL together with its own
    parameters, one pair per name. *)
Lemma Rev3_baseString_spec newURL method url u c nonce timestamp extraParams :
  newURL url = Some u →
  ∃ ps,
    sortedParamSet (Rev3.oauthParams c nonce timestamp extraParams) (searchParams u) ps ∧
    Rev3.baseString newURL method url c nonce timestamp extraParams =
      Some (signatureBaseString method (origin u +:+ pathname u) ps).
Proof.
  intros Hu.
  set (signing := Rev3.oauthParams c nonce timestamp extraParams).
  set (allParams := JS.objAssign (Rev3.queryParams u) signing).
  exists (pairsOf allParams). split; [split|].
  - apply pairsOf_sorted, objAssign_NoDup, (objAssign_NoDup []). constructor.
  - intros k v. rewrite pairsOf_elem_of. unfold allParams, signedValue.
    rewrite objGet_objAssign.
    destruct (lastValue k signing); [done|].
    change (Rev3.queryParams u) with (JS.objAssign [] (searchParams u)).
    rewrite objGet_objAssign. by destruct (lastValue k _).
  - unfold Rev3.baseString. rewrite Hu. cbn [mbind option_bind].
    by rewrite join3, buildQueryString_pairs.
Qed.

(** Revision 5 signs the URL as it is given and its own parameters only. *)
Lemma Rev5_baseString_spec method url c nonce timestamp :
  ∃ ps,
    sortedParamSet (oauthLiteral c nonce timestamp) [] ps ∧
    Rev5.baseString method url c nonce timestamp = signatureBaseString method url ps.
Proof.
  set (baseParams := JS.objAssign [] (JS.objLiteral (oauthLiteral c nonce timestamp))).
  exists (pairsOf baseParams). split; [split|].
  - apply pairsOf_sorted, (objAssign_NoDup []). constructor.
  - intros k v. rewrite pairsOf_elem_of. unfold baseParams, signedValue.
    rewrite objGet_objAssign, lastValue_object by apply objLiteral_NoDup.
    unfold JS.objLiteral. rewrite objGet_objAssign.
    by destruct (lastValue k _).
  - unfold Rev5.baseString. by rewrite join3, buildQueryString_pairs.
Qed.

(** C7, as amended.  In revision 3 the base string is the upper-cased
    method, the percent-encoded [origin] and [pathname] of the URL, and the
    percent-encoding of the sorted [name=value] pairs of the signing and
    query parameters, one pair per name, joined by [&].  In revision 5 it
    is the same with the URL as it is given and the signing parameters
    alone. *)
Theorem signature_base_string :
  (∀ newURL method url u c nonce timestamp extraParams,
     newURL url = Some u →
     ∃ ps,
       sortedParamSet (Rev3.oauthParams c nonce timestamp extraParams)
                      (searchParams u) ps ∧
       Rev3.baseString newURL method url c nonce timestamp extraParams =
         Some (signatureBaseString method (origin u +:+ pathname u) ps)) ∧
  (∀ method url c nonce timestamp,
     ∃ ps,
       sortedParamSet (oauthLiteral c nonce timestamp) [] ps ∧
       Rev5.baseString method url c nonce timestamp =
         signatureBaseString method url ps).
Proof.
  split.
  - intros. by apply Rev3_baseString_spec.
  - intros. apply Rev5_baseString_spec.
Qed.

(** The theorem at a URL with a query, signed by revision 3. *)
Lemma signature_base_string_witness :
  ∃ ps,
    sortedParamSet
      (Rev3.oauthParams Reference.creds Reference.nonce Reference.timestamp [])
      [("b", "1"); ("a", "2")] ps ∧
    Rev3.baseString Reference.parseURL "post" "https://api.twitter.com/2/tweets?b=1&a=2"
      Reference.creds Reference.nonce Reference.timestamp [] =
      Some (signatureBaseString "post" "https://api.twitter.com/2/tweets" ps).
Proof.
  exact (proj1 signature_base_string Reference.parseURL "post"
           "https://api.twitter.com/2/tweets?b=1&a=2"
           {| origin := "https://api.twitter.com"; pathname := "/2/tweets";
              searchParams := [("b", "1"); ("a", "2")] |}
           Reference.creds Reference.nonce Reference.timestamp [] eq_refl).
Defined.

(** C7 fails on revision 5: [oauth1Header] encodes the URL with its
    query and signs no query parameter. *)
Lemma oauth1Header_keeps_query :
  Reference.parseURL "https://api.twitter.com/2/tweets?a=b" =
    Some {| origin := "https://api.twitter.com"; pathname := "/2/tweets";
            searchParams := [("a", "b")] |} ∧
  ¬ ∃ ps,
      sortedParamSet
        (oauthLiteral Reference.creds Reference.nonce Reference.timestamp)
        [("a", "b")] ps ∧
      Rev5.baseString "POST" "https://api.twitter.com/2/tweets?a=b"
        Reference.creds Reference.nonce Reference.timestamp =
        signatureBaseString "POST" "https://api.twitter.com/2/tweets" ps.
Proof.
  split; [reflexivity|]. intros (ps & _ & Heq).
  unfold signatureBaseString in Heq.
  set (rest := percentEncode (JS.join _ (map _ ps))) in Heq.
  vm_compute in Heq. discriminate Heq.
Qed.

(** ** The sheet *)

Lemma lookup_setAt_eq {A} (d : A) i x l : setAt d i x l !! i = Some x.
Proof.
  unfold setAt. apply list_lookup_insert_eq.
  rewrite length_app, length_replicate. lia.
Qed.

Lemma default_lookup_setAt {A} (d : A) i x l j :
  default d (setAt d i x l !! j) = if decide (j = i) then x else default d (l !! j).
Proof.
  case_decide as Hj; [subst; by rewrite lookup_setAt_eq|].
  unfold setAt. rewrite list_lookup_insert_ne by done.
  destruct (decide (j < length l)) as [Hlt|Hge].
  - by rewrite lookup_app_l.
  - rewrite lookup_app_r by lia. rewrite (lookup_ge_None_2 l j) by lia. simpl.
    destruct (replicate _ d !! _) as [y|] eqn:E; [|done].
    by apply lookup_replicate in E as [-> _].
Qed.

Lemma cell_writeCell r c v (s : Sheet) r' c' :
  cell (writeCell r c v s) r' c' = if decide (r' = r ∧ c' = c) then v else cell s r' c'.
Proof.
  unfold cell, writeCell. rewrite default_lookup_setAt.
  destruct (decide (r' = r)) as [->|Hr].
  - rewrite default_lookup_setAt. repeat case_decide; naive_solver.
  - case_decide; naive_solver.
Qed.

Lemma cell_writeRow r c0 cells (s : Sheet) r' c' :
  cell (writeRow r c0 cells s) r' c' =
  if decide (r' = r ∧ c0 ≤ c')
  then match cells !! (c' - c0) with
       | Some (Some v) => v
       | _ => cell s r' c'
       end
  else cell s r' c'.
Proof.
  revert c0 s. induction cells as [|v cells IH]; intros c0 s; simpl.
  - by case_decide.
  - rewrite IH.
    assert (cell (match v with Some x => writeCell r c0 x s | None => s end) r' c' =
            if decide (r' = r ∧ c' = c0)
            then match v with Some x => x | None => cell s r' c' end
            else cell s r' c') as ->.
    { destruct v; [apply cell_writeCell|]. by destruct (decide _). }
    destruct (decide (r' = r ∧ c0 ≤ c')) as [[-> Hle]|Hn].
    + destruct (decide (c' = c0)) as [->|Hne].
      * rewrite Nat.sub_diag. simpl.
        rewrite (decide_False (P := r = r ∧ S c0 ≤ c0)) by lia.
        rewrite decide_True by done. by destruct v.
      * rewrite (decide_True (P := r = r ∧ S c0 ≤ c')) by lia.
        replace (c' - c0) with (S (c' - S c0)) by lia. simpl.
        rewrite (decide_False (P := r = r ∧ c' = c0)) by lia. done.
    + rewrite (decide_False (P := r' = r ∧ S c0 ≤ c')) by lia.
      rewrite (decide_False (P := r' = r ∧ c' = c0)) by lia. done.
Qed.

(** Cells of other rows, and cells to the left of a write, stay. *)
Lemma cell_writeRow_other r c0 cells (s : Sheet) r' c' :
  r' ≠ r ∨ c' < c0 ∨ c0 + length cells ≤ c' →
  cell (writeRow r c0 cells s) r' c' = cell s r' c'.
Proof.
  intros Hout. rewrite cell_writeRow. case_decide as Hin; [|done].
  destruct Hin as [-> Hle]. rewrite lookup_ge_None_2; [done|]. lia.
Qed.

(** *** Dropping what the API drops *)

Lemma dropTrailing_prefix {A} (p : A → bool) (l : list A) :
  dropTrailing p l `prefix_of` l.
Proof.
  induction l as [|x l IH]; simpl; [done|].
  destruct (dropTrailing p l) as [|y t] eqn:E.
  - destruct (p x); [apply prefix_nil|]. by apply prefix_cons, prefix_nil.
  - by apply prefix_cons.
Qed.

Lemma dropTrailing_length {A} (p : A → bool) (l : list A) :
  length (dropTrailing p l) ≤ length l.
Proof. apply prefix_length, dropTrailing_prefix. Qed.

Lemma dropTrailing_lookup {A} (p : A → bool) (d : A) (l : list A) i :
  (∀ x, p x = true → x = d) →
  default d (dropTrailing p l !! i) = default d (l !! i).
Proof.
  intros Hp. revert i. induction l as [|x l IH]; intros i; simpl; [done|].
  destruct (dropTrailing p l) as [|y t] eqn:E.
  - destruct (p x) eqn:Hx.
    + destruct i as [|i]; simpl; [by rewrite (Hp x Hx)|]. by rewrite <- IH.
    + destruct i as [|i]; simpl; [done|]. by rewrite <- IH.
  - destruct i as [|i]; simpl; [done|]. apply IH.
Qed.

Lemma isEmptyCell_empty v : isEmptyCell v = true → v = "".
Proof. by destruct v. Qed.

Lemma isEmptyRow_empty (row : list string) : isEmptyRow row = true → row = [].
Proof. by destruct row. Qed.

(** *** References *)

Lemma letterIndex_lt c d : letterIndex c = Some d → d < 26.
Proof.
  unfold letterIndex, JS.isUpper, JS.isLower, JS.between.
  repeat case_match; intros; simplify_eq;
    repeat match goal with
           | H : (_ && _) = true |- _ => apply andb_prop in H as [? ?]
           | H : (_ <=? _)%N = true |- _ => apply N.leb_le in H
           end; lia.
Qed.

Lemma letterIndex_high c : (128 <= JS.code c)%N → letterIndex c = None.
Proof.
  intros Hc. unfold letterIndex, JS.isUpper, JS.isLower, JS.between.
  rewrite (proj2 (N.leb_gt (JS.code c) 90)), (proj2 (N.leb_gt (JS.code c) 122)) by lia.
  by rewrite !andb_false_r.
Qed.

Lemma uint_of_char_not_letter c o d :
  DecimalString.uint_of_char c o = Some d → letterIndex c = None.
Proof.
  destruct o; [|done].
  destruct c as [[] [] [] [] [] [] [] []]; simpl; intros; by simplify_eq.
Qed.

Lemma uint_of_string_toString10 n :
  DecimalString.NilEmpty.uint_of_string (JS.toString10 n) =
  Some (match N.to_uint n with Decimal.Nil => Decimal.D0 Decimal.Nil | d => d end).
Proof.
  unfold JS.toString10, DecimalString.NilZero.string_of_uint.
  generalize (N.to_uint n). intros d.
  destruct d; [done|..]; apply DecimalString.NilEmpty.usu.
Qed.

Lemma rowOfDigits_toString10 n : rowOfDigits (JS.toString10 (N.of_nat n)) = Some n.
Proof.
  unfold rowOfDigits. rewrite uint_of_string_toString10. simpl. f_equal.
  rewrite <- (Nat2N.id n) at 2. f_equal.
  rewrite <- (DecimalN.Unsigned.of_to (N.of_nat n)) at 2.
  by destruct (N.to_uint (N.of_nat n)).
Qed.

Lemma toString10_head n :
  ∃ c s, JS.toString10 n = String c s ∧ letterIndex c = None.
Proof.
  pose proof (uint_of_string_toString10 n) as H.
  destruct (JS.toString10 n) as [|c s]; simpl in H.
  - destruct (N.to_uint n); done.
  - exists c, s. split; [done|]. by eapply uint_of_char_not_letter.
Qed.

Lemma parseRef_letter_row a d n :
  letterIndex a = Some d →
  parseRef (String a (JS.toString10 (N.of_nat (S n)))) =
    Some {| refCol := d; refRow := Some (S n) |}.
Proof.
  intros Ha. unfold parseRef. cbn [spanLetters]. rewrite Ha.
  destruct (toString10_head (N.of_nat (S n))) as (c & s & Hs & Hc).
  pose proof (rowOfDigits_toString10 (S n)) as Hrow.
  rewrite Hs in *. cbn [spanLetters]. rewrite Hc, Hrow.
  unfold columnOfLetters. simpl. by rewrite Nat.sub_0_r.
Qed.

Lemma parseRef_one_letter a rest ref :
  (∀ c s, rest = String c s → letterIndex c = None) →
  parseRef (String a rest) = Some ref → refCol ref < 26.
Proof.
  intros Hrest. unfold parseRef. cbn [spanLetters].
  destruct (letterIndex a) as [d|] eqn:Ha; [|done].
  apply letterIndex_lt in Ha.
  destruct rest as [|c s]; cbn [spanLetters].
  - intros [= <-]. unfold columnOfLetters. simpl. lia.
  - rewrite (Hrest c s eq_refl).
    destruct (rowOfDigits _) as [[|m]|]; intros; simplify_eq.
    unfold columnOfLetters. simpl. lia.
Qed.

(** A column letter computed as one code unit names a column from A to
    Z, or none. *)
Lemma parseRef_fromCharCode k n ref :
  parseRef (JS.fromCharCode k +:+ JS.toString10 n) = Some ref → refCol ref < 26.
Proof.
  destruct (toString10_head n) as (c & s & Hs & Hc).
  assert (∀ c' s', JS.toString10 n = String c' s' → letterIndex c' = None) as Hrest.
  { intros c' s' Heq. rewrite Hs in Heq. by simplify_eq. }
  unfold JS.fromCharCode.
  assert (k mod 65536 < 65536)%N as Hu by (apply N.mod_lt; lia).
  set (u := (k mod 65536)%N) in *. clearbody u.
  destruct (u <? 128)%N eqn:H1; [by apply parseRef_one_letter|].
  apply N.ltb_ge in H1.
  assert (∀ x rest, (128 <= x < 256)%N → parseRef (String (ascii_of_N x) rest) = None) as Hhigh.
  { intros x rest Hx. unfold parseRef. cbn [spanLetters].
    rewrite letterIndex_high; [done|].
    unfold JS.code. rewrite N_ascii_embedding by lia. lia. }
  destruct (u <? 2048)%N eqn:H2.
  - apply N.ltb_lt in H2. rewrite !append_cons, Hhigh; [done|].
    assert (u / 64 < 32)%N by (apply N.Div0.div_lt_upper_bound; lia).
    generalize dependent (u / 64)%N. intros; lia.
  - rewrite !append_cons, Hhigh; [done|].
    assert (u / 4096 < 16)%N by (apply N.Div0.div_lt_upper_bound; lia).
    generalize dependent (u / 4096)%N. intros; lia.
Qed.

(** *** Reads and writes of a range *)

Lemma valuesGet_width rg (s : Sheet) values to :
  valuesGet rg s = Some values → parseRef (rangeTo rg) = Some to →
  Forall (λ row, length row ≤ S (refCol to)) values.
Proof.
  unfold valuesGet. intros Hget Hto. rewrite Hto in Hget.
  destruct (parseRef (rangeFrom rg)) as [from|]; [|done]. simpl in Hget.
  case_guard; [|done]. simplify_eq/=.
  eapply Forall_forall. intros row Hrow.
  assert (row ∈ (λ row, dropTrailing isEmptyCell
                      (take (S (refCol to) - refCol from) (drop (refCol from) row)))
                <$> (match refRow to with
                     | Some lastRow =>
                         take (S lastRow - default 1 (refRow from))
                              (drop (default 1 (refRow from) - 1) s)
                     | None => drop (default 1 (refRow from) - 1) s
                     end)) as Hin.
  { destruct (dropTrailing_prefix isEmptyRow
                ((λ row, dropTrailing isEmptyCell
                      (take (S (refCol to) - refCol from) (drop (refCol from) row)))
                <$> (match refRow to with
                     | Some lastRow =>
                         take (S lastRow - default 1 (refRow from))
                              (drop (default 1 (refRow from) - 1) s)
                     | None => drop (default 1 (refRow from) - 1) s
                     end))) as [k Hk].
    rewrite Hk. apply elem_of_app. by left. }
  apply list_elem_of_fmap in Hin as (row0 & -> & _).
  etrans; [apply dropTrailing_length|]. rewrite length_take. lia.
Qed.

Lemma valuesGet_AZ tab (s : Sheet) :
  valuesGet {| rangeTab := tab; rangeFrom := "A"; rangeTo := "Z" |} s = Some (readAZ s).
Proof. reflexivity. Qed.

Lemma valuesGet_A1Z10000 tab (s : Sheet) :
  valuesGet {| rangeTab := tab; rangeFrom := "A1"; rangeTo := "Z10000" |} s =
  Some (readAZ (take 10000 s)).
Proof. reflexivity. Qed.

Lemma readAZ_width (s : Sheet) : Forall (λ row, length row ≤ 26) (readAZ s).
Proof.
  apply (valuesGet_width {| rangeTab := ""; rangeFrom := "A"; rangeTo := "Z" |} s _
           {| refCol := 25; refRow := None |}); [apply valuesGet_AZ|done].
Qed.

Lemma letterIndex_A : letterIndex "A" = Some 0.
Proof. reflexivity. Qed.

Lemma letterIndex_Z : letterIndex "Z" = Some 25.
Proof. reflexivity. Qed.

(** The read of one row, from A to Z. *)
Lemma valuesGet_row tab n (s : Sheet) :
  valuesGet {| rangeTab := tab;
               rangeFrom := "A" +:+ JS.toString10 (N.of_nat (S n));
               rangeTo := "Z" +:+ JS.toString10 (N.of_nat (S n)) |} s =
  Some (dropTrailing isEmptyRow
          ((λ row, dropTrailing isEmptyCell (take 26 row)) <$> take 1 (drop n s))).
Proof.
  unfold valuesGet. cbn [rangeFrom rangeTo]. rewrite !append_cons.
  change ("" +:+ ?x) with x.
  rewrite (parseRef_letter_row _ _ n letterIndex_A), (parseRef_letter_row _ _ n letterIndex_Z).
  simpl. replace (S n - n) with 1 by lia. by rewrite Nat.sub_0_r.
Qed.

(** What [current[i] ?? ""] is after that read. *)
Lemma row_read_cell n (s : Sheet) i :
  JS.orEmpty
    (default []
       (head (dropTrailing isEmptyRow
                ((λ row, dropTrailing isEmptyCell (take 26 row)) <$> take 1 (drop n s))))
     !! i) = if decide (i < 26) then cell s n i else "".
Proof.
  unfold cell, JS.orEmpty.
  assert ((λ row, dropTrailing isEmptyCell (take 26 row)) <$> take 1 (drop n s) =
          match s !! n with
          | Some row => [dropTrailing isEmptyCell (take 26 row)]
          | None => []
          end) as ->.
  { assert (s !! n = drop n s !! 0) as -> by (by rewrite lookup_drop, Nat.add_0_r).
    by destruct (drop n s) as [|row [|? ?]]. }
  destruct (s !! n) as [row|]; simpl; [|by case_decide].
  assert (default "" (dropTrailing isEmptyCell (take 26 row) !! i) =
          if decide (i < 26) then default "" (row !! i) else "") as Hcell.
  { rewrite (dropTrailing_lookup _ "") by apply isEmptyCell_empty.
    case_decide; [by rewrite lookup_take_lt|].
    by rewrite lookup_take_ge by lia. }
  destruct (dropTrailing isEmptyCell (take 26 row)) eqn:E; simpl; [|done].
  rewrite <- Hcell. by destruct i.
Qed.

Lemma valuesUpdate_row tab a d n cells (s : Sheet) :
  letterIndex a = Some d →
  valuesUpdate {| rangeTab := tab;
                  rangeFrom := "A" +:+ JS.toString10 (N.of_nat (S n));
                  rangeTo := String a "" +:+ JS.toString10 (N.of_nat (S n)) |} cells s =
  if decide (length cells ≤ S d) then Some (writeRow n 0 cells s) else None.
Proof.
  intros Ha. unfold valuesUpdate. cbn [rangeFrom rangeTo]. rewrite !append_cons.
  change ("" +:+ ?x) with x.
  rewrite (parseRef_letter_row _ _ n letterIndex_A), (parseRef_letter_row _ _ n Ha).
  simpl. rewrite Nat.sub_0_r.
  by case_guard.
Qed.

(** A write through a range that ends in column Z or before changes no
    cell to the right of column Z. *)
Lemma valuesUpdate_beyond rg cells (s s' : Sheet) :
  valuesUpdate rg cells s = Some s' →
  (∀ to, parseRef (rangeTo rg) = Some to → refCol to < 26) →
  ∀ r c, 26 ≤ c → cell s' r c = cell s r c.
Proof.
  unfold valuesUpdate. intros Hupd Hto r c Hc.
  destruct (parseRef (rangeFrom rg)) as [from|]; [|done]. simpl in Hupd.
  destruct (parseRef (rangeTo rg)) as [to|] eqn:E; [|done]. simpl in Hupd.
  specialize (Hto to eq_refl).
  destruct (refRow from) as [row|]; [|done]. simpl in Hupd.
  simplify_option_eq. apply cell_writeRow_other. lia.
Qed.

(** ** Updating a row *)

Lemma findIndex_lt {A} (P : A → Prop) `{!∀ x, Decision (P x)} (l : list A) idx :
  JS.findIndex P l = Some idx → idx < length l.
Proof.
  unfold JS.findIndex. intros Hfind.
  destruct (list_find P l) as [[i x]|] eqn:E; simplify_eq/=.
  apply list_find_Some in E as (Hl & _). by eapply lookup_lt_Some.
Qed.

(** Assigning the updates one after the other leaves in each column the
    value of the last update that addresses it. *)
Lemma fold_insert_lookup (addr : string → option nat) updates (cells : list string) c :
  (∀ k idx, addr k = Some idx → idx < length cells) →
  fold_left (λ cells (kv : string * string),
               match addr kv.1 with
               | Some idx => <[idx := kv.2]> cells
               | None => cells
               end) updates cells !! c
  = match lastWrite addr updates c with
    | Some v => Some v
    | None => cells !! c
    end.
Proof.
  revert cells. induction updates as [|[k v] updates IH]; intros cells Haddr; simpl; [done|].
  rewrite IH.
  - destruct (lastWrite addr updates c); [done|].
    destruct (addr k) as [idx|] eqn:Hk.
    + case_decide as Hc; simplify_eq.
      * apply list_lookup_insert_eq. by eapply Haddr.
      * apply list_lookup_insert_ne. congruence.
    + by rewrite decide_False.
  - intros k' idx Hk'. destruct (addr k); rewrite ?length_insert; by eapply Haddr.
Qed.

Lemma fold_insert_length (addr : string → option nat) updates (cells : list string) :
  length (fold_left (λ cells (kv : string * string),
                       match addr kv.1 with
                       | Some idx => <[idx := kv.2]> cells
                       | None => cells
                       end) updates cells) = length cells.
Proof.
  revert cells. induction updates as [|[k v] updates IH]; intros cells; simpl; [done|].
  rewrite IH. destruct (addr k); by rewrite ?length_insert.
Qed.

Lemma lastWrite_lt (addr : string → option nat) n updates c v :
  (∀ k idx, addr k = Some idx → idx < n) →
  lastWrite addr updates c = Some v → c < n.
Proof.
  intros Haddr. induction updates as [|[k v'] updates IH]; simpl; [done|].
  destruct (lastWrite addr updates c); [by intros; apply IH|].
  case_decide; [|done]. intros _. by eapply Haddr.
Qed.

(** *** Revision 1 *)

Lemma Rev1_applyUpdates_fold headers updates cells :
  Rev1.applyUpdates headers updates cells =
  fold_left (λ cells (kv : string * string),
               match Rev1.col headers kv.1 with
               | Some idx => <[idx := kv.2]> cells
               | None => cells
               end) updates cells.
Proof. reflexivity. Qed.

Lemma Rev1_updateRow_run tab n headers updates w :
  Rev1.updateRow tab (S n) headers updates w =
  let rg := Rev1.rowRange tab (S n) in
  let cells := Some <$> Rev1.applyUpdates headers updates
                           (rowAsRead (sheet w) n (length headers)) in
  if decide (length headers ≤ 26)
  then (Ok (), withSheet (writeRow n 0 cells (sheet w))
                 (emit (EvUpdate rg cells) (emit (EvGet rg) w)))
  else (Err "Invalid values.update request", emit (EvUpdate rg cells) (emit (EvGet rg) w)).
Proof.
  unfold Rev1.updateRow, bind, sheetsGet, sheetsUpdate, Rev1.rowRange.
  rewrite valuesGet_row. cbn [sheet emit].
  rewrite (valuesUpdate_row _ _ _ _ _ _ letterIndex_Z).
  assert (map (λ i, JS.orEmpty
                 (default []
                    (head (dropTrailing isEmptyRow
                       ((λ row, dropTrailing isEmptyCell (take 26 row))
                        <$> take 1 (drop n (sheet w))))) !! i))
              (seq 0 (length headers))
          = rowAsRead (sheet w) n (length headers)) as ->.
  { apply map_ext. intros i. apply row_read_cell. }
  rewrite length_fmap, Rev1_applyUpdates_fold, fold_insert_length.
  unfold rowAsRead. rewrite length_fmap, length_seq.
  by case_decide.
Qed.

Lemma Rev1_updateRow_cells tab n headers updates w r c :
  length headers ≤ 26 →
  cell (sheet (Rev1.updateRow tab (S n) headers updates w).2) r c =
  cellAfter (foldedCol headers) updates n (sheet w) r c.
Proof.
  intros Hw. rewrite Rev1_updateRow_run. cbn zeta. rewrite decide_True by done.
  cbn [snd withSheet sheet]. rewrite cell_writeRow, Nat.sub_0_r. unfold cellAfter.
  destruct (decide (r = n)) as [->|Hr].
  - rewrite decide_True by (split; [done|lia]).
    rewrite list_lookup_fmap, Rev1_applyUpdates_fold, fold_insert_lookup.
    + destruct (lastWrite _ _ _); [done|].
      unfold rowAsRead. rewrite list_lookup_fmap.
      destruct (seq 0 (length headers) !! c) as [i|] eqn:E; [|done]. simpl.
      apply lookup_seq in E as [-> Hc]. simpl. by rewrite decide_True by lia.
    + intros k idx Hk. apply findIndex_lt in Hk.
      unfold rowAsRead. by rewrite length_fmap, length_seq.
  - rewrite decide_False by (intros [? _]; done). done.
Qed.

(** *** Revision 5 *)

Lemma colLetter_letter colIdx :
  colIdx < 26 →
  ∃ a, Rev5.colLetter colIdx = String a "" ∧ letterIndex a = Some colIdx.
Proof.
  intros Hc. exists (ascii_of_N (65 + N.of_nat colIdx)). split.
  - unfold Rev5.colLetter, JS.fromCharCode.
    rewrite N.mod_small by lia. by rewrite (proj2 (N.ltb_lt _ _)) by lia.
  - unfold letterIndex, JS.isUpper, JS.between, JS.code.
    rewrite N_ascii_embedding by lia.
    rewrite (proj2 (N.leb_le 65 _)), (proj2 (N.leb_le _ 90)) by lia. simpl.
    f_equal. lia.
Qed.

Lemma Rev5_cell_update tab colIdx n v (s : Sheet) :
  colIdx < 26 →
  valuesUpdate (Rev5.cellRange tab colIdx (S n)) [Some v] s = Some (writeCell n colIdx v s).
Proof.
  intros Hc. destruct (colLetter_letter colIdx Hc) as (a & Ha & Hidx).
  unfold valuesUpdate, Rev5.cellRange. cbn [rangeFrom rangeTo]. rewrite Ha.
  rewrite append_cons. change ("" +:+ ?x) with x.
  rewrite (parseRef_letter_row _ _ n Hidx). simpl.
  rewrite Nat.sub_0_r.
  case_guard; [|lia]. simpl. case_guard; [done|lia].
Qed.

Lemma Rev5_batchOf_cons tab headers rowIndex k v updates :
  Rev5.batchOf tab headers rowIndex ((k, v) :: updates) =
  match exactCol headers k with
  | Some colIdx => (Rev5.cellRange tab colIdx rowIndex, v) :: Rev5.batchOf tab headers rowIndex updates
  | None => Rev5.batchOf tab headers rowIndex updates
  end.
Proof. unfold Rev5.batchOf, exactCol. simpl. by destruct (JS.findIndex _ _). Qed.

Lemma Rev5_batch_cells tab headers n updates (s : Sheet) :
  length headers ≤ 26 →
  ∃ s', valuesBatchUpdate (Rev5.batchOf tab headers (S n) updates) s = Some s' ∧
        ∀ r c, cell s' r c = cellAfter (exactCol headers) updates n s r c.
Proof.
  intros Hw. revert s. induction updates as [|[k v] updates IH]; intros s.
  - exists s. split; [done|]. intros r c. unfold cellAfter. simpl. by case_decide.
  - rewrite Rev5_batchOf_cons.
    destruct (exactCol headers k) as [colIdx|] eqn:Hk.
    + assert (colIdx < 26) as Hc by (apply findIndex_lt in Hk; lia).
      cbn [valuesBatchUpdate]. rewrite Rev5_cell_update by done.
      cbn [mbind option_bind].
      destruct (IH (writeCell n colIdx v s)) as (s' & Hs' & Hcells).
      exists s'. split; [done|]. intros r c. rewrite Hcells.
      unfold cellAfter. simpl. rewrite cell_writeCell.
      destruct (decide (r = n)) as [->|Hr].
      * destruct (lastWrite (exactCol headers) updates c); [done|].
        rewrite Hk. destruct (decide (Some colIdx = Some c)) as [[= ->]|Hne].
        -- by rewrite decide_True.
        -- rewrite decide_False; [done|]. intros [_ ->]. done.
      * rewrite decide_False; [done|]. by intros [? _].
    + destruct (IH s) as (s' & Hs' & Hcells).
      exists s'. split; [done|]. intros r c. rewrite Hcells.
      unfold cellAfter. simpl. rewrite Hk.
      destruct (decide (r = n)); [|done].
      destruct (lastWrite (exactCol headers) updates c); [done|].
      by rewrite decide_False.
Qed.

Lemma Rev5_updateRowByHeader_cells tab headers n updates w :
  length headers ≤ 26 →
  (Rev5.updateRowByHeader tab headers (S n) updates w).1 = Ok () ∧
  ∀ r c, cell (sheet (Rev5.updateRowByHeader tab headers (S n) updates w).2) r c =
         cellAfter (exactCol headers) updates n (sheet w) r c.
Proof.
  intros Hw.
  destruct (Rev5_batch_cells tab headers n updates (sheet w) Hw) as (s' & Hs' & Hcells).
  unfold Rev5.updateRowByHeader.
  destruct (Rev5.batchOf tab headers (S n) updates) as [|d data] eqn:E.
  - simpl in Hs'. simplify_eq. by split.
  - unfold sheetsBatchUpdate. rewrite Hs'. by split.
Qed.

(** *** Revision 4 *)

Lemma Rev4_fetchRows_run tab w :
  Rev4.fetchRows tab w =
  (Ok (tableOf (sheet w)),
   emit (EvGet {| rangeTab := tab; rangeFrom := "A"; rangeTo := "Z" |}) w).
Proof.
  unfold Rev4.fetchRows, bind, sheetsGet. rewrite valuesGet_AZ.
  unfold tableOf. by case_decide.
Qed.

Lemma readAZ_lookup (s : Sheet) k row :
  readAZ s !! k = Some row →
  ∀ c, default "" (row !! c) = if decide (c < 26) then cell s k c else "".
Proof.
  intros Hrow c.
  eapply prefix_lookup_Some in Hrow; [|apply dropTrailing_prefix].
  rewrite list_lookup_fmap in Hrow.
  unfold cell. destruct (s !! k) as [row0|]; simplify_eq/=.
  rewrite (dropTrailing_lookup _ "") by apply isEmptyCell_empty.
  case_decide; [by rewrite lookup_take_lt|].
  by rewrite lookup_take_ge by lia.
Qed.

Lemma tableOf_rows (s : Sheet) k row :
  (tableOf s).2 !! k = Some row → readAZ s !! S k = Some row.
Proof.
  unfold tableOf. case_decide; simpl; [done|]. by rewrite lookup_drop.
Qed.

Lemma Rev4_applyUpdates_lookup headers updates row :
  (∀ kv, kv ∈ updates → is_Some (foldedCol headers kv.1)) →
  ∃ row', Rev4.applyUpdates headers updates row = Ok row' ∧
          ∀ c, default None (row' !! c) =
               match lastWrite (foldedCol headers) updates c with
               | Some v => Some v
               | None => default None (row !! c)
               end.
Proof.
  revert row. induction updates as [|[k v] updates IH]; intros row Hall.
  - exists row. by split.
  - destruct (Hall (k, v)) as [idx Hidx]; [by left|]. simpl in Hidx.
    cbn [Rev4.applyUpdates]. unfold Rev4.headerIndex.
    change (JS.findIndex (JS.sameName k) headers) with (foldedCol headers k).
    rewrite Hidx.
    destruct (IH (setAt None idx (Some v) row)) as (row' & Hrow' & Hlook).
    { intros kv Hkv. apply Hall. by right. }
    exists row'. split; [done|]. intros c. rewrite Hlook. simpl.
    destruct (lastWrite (foldedCol headers) updates c); [done|].
    rewrite default_lookup_setAt, Hidx.
    destruct (decide (c = idx)) as [->|Hne].
    + by rewrite decide_True.
    + rewrite decide_False; [done|]. congruence.
Qed.

Lemma Rev4_applyUpdates_missing headers updates row k v :
  (k, v) ∈ updates → foldedCol headers k = None →
  ∃ msg, Rev4.applyUpdates headers updates row = Err msg.
Proof.
  revert row. induction updates as [|[k' v'] updates IH]; intros row Hin Hk.
  - by apply elem_of_nil in Hin.
  - cbn [Rev4.applyUpdates]. unfold Rev4.headerIndex.
    change (JS.findIndex (JS.sameName k') headers) with (foldedCol headers k').
    destruct (foldedCol headers k') as [idx|] eqn:Hk'; [|eauto].
    apply elem_of_cons in Hin as [[= -> ->]|Hin]; [congruence|]. by apply IH.
Qed.

Lemma endCol_letter headers :
  1 ≤ length headers →
  ∃ a, Rev4.endCol headers = String a "" ∧
       letterIndex a = Some (Nat.min (length headers - 1) 25).
Proof.
  intros Hlen.
  destruct (colLetter_letter (Nat.min (length headers - 1) 25)) as (a & Ha & Hidx); [lia|].
  exists a. split; [|done]. rewrite <- Ha. unfold Rev4.endCol, Rev5.colLetter.
  f_equal. lia.
Qed.

Lemma Rev4_updateRow_cells tab k headers updates w :
  1 ≤ length headers ≤ 26 →
  is_Some ((tableOf (sheet w)).2 !! k) →
  (∀ kv, kv ∈ updates → is_Some (foldedCol headers kv.1)) →
  (Rev4.updateRow tab (S (S k)) headers updates w).1 = Ok () ∧
  ∀ r c, cell (sheet (Rev4.updateRow tab (S (S k)) headers updates w).2) r c =
         cellAfter (foldedCol headers) updates (S k) (sheet w) r c.
Proof.
  intros Hlen [current Hcur] Hall.
  unfold Rev4.updateRow, bind. rewrite Rev4_fetchRows_run. cbn [snd sheet emit].
  rewrite decide_False by lia.
  replace (S (S k) - 2) with k by lia. rewrite Hcur.
  destruct (Rev4_applyUpdates_lookup headers updates (Some <$> current) Hall)
    as (row' & -> & Hlook).
  cbn [Rev4.lift ret].
  destruct (endCol_letter headers) as (a & -> & Ha); [lia|].
  unfold sheetsUpdate. cbn [sheet emit].
  rewrite (valuesUpdate_row _ _ _ _ _ _ Ha).
  rewrite decide_True by (rewrite length_take; lia).
  split; [done|]. intros r c. cbn [snd sheet withSheet].
  rewrite cell_writeRow, Nat.sub_0_r. unfold cellAfter.
  destruct (decide (r = S k)) as [->|Hr].
  - rewrite decide_True by (split; [done|lia]).
    assert (default None (take (length headers) row' !! c) =
            match lastWrite (foldedCol headers) updates c with
            | Some v => Some v
            | None => if decide (c < length headers)
                      then default None ((Some <$> current) !! c) else None
            end) as Hcell.
    { destruct (decide (c < length headers)) as [Hc|Hc].
      - by rewrite lookup_take_lt, Hlook.
      - rewrite lookup_take_ge by lia.
        destruct (lastWrite (foldedCol headers) updates c) as [v|] eqn:Hlast; [|done].
        apply (lastWrite_lt _ (length headers)) in Hlast; [lia|].
        intros k' idx. apply findIndex_lt. }
    destruct (lastWrite (foldedCol headers) updates c) as [v|].
    + by destruct (take (length headers) row' !! c) as [[?|]|]; simplify_eq/=.
    + case_decide as Hc.
      * rewrite list_lookup_fmap in Hcell.
        pose proof (readAZ_lookup (sheet w) (S k) current (tableOf_rows _ _ _ Hcur) c) as Hread.
        rewrite decide_True in Hread by lia.
        destruct (take (length headers) row' !! c) as [[?|]|];
          destruct (current !! c); simplify_eq/=; done.
      * by destruct (take (length headers) row' !! c) as [[?|]|]; simplify_eq/=.
  - rewrite decide_False by (intros [? _]; done). done.
Qed.

Lemma Rev4_updateRow_missing tab rowNumber headers updates w k v :
  (k, v) ∈ updates → foldedCol headers k = None →
  ∃ msg, Rev4.updateRow tab rowNumber headers updates w =
         (Err msg, emit (EvGet {| rangeTab := tab; rangeFrom := "A"; rangeTo := "Z" |}) w).
Proof.
  intros Hin Hk. unfold Rev4.updateRow, bind. rewrite Rev4_fetchRows_run.
  cbn [snd sheet emit].
  destruct (if decide (rowNumber < 2) then None else _) as [current|]; [|by eexists].
  destruct (Rev4_applyUpdates_missing headers updates (Some <$> current) k v Hin Hk)
    as [msg ->].
  by eexists.
Qed.

(** ** Runs *)

Lemma posts_app tr1 tr2 : posts (tr1 ++ tr2) = posts tr1 ++ posts tr2.
Proof. unfold posts. apply omap_app. Qed.

Lemma writes_app tr1 tr2 : writes (tr1 ++ tr2) = writes tr1 ++ writes tr2.
Proof. unfold writes. apply filter_app. Qed.


(** *** The requests of a computation *)

Lemma sends_mono {A} n n' (m : Run A) : n ≤ n' → sends n m → sends n' m.
Proof. intros Hle Hm w. destruct (Hm w) as (tr & ? & ?). exists tr. split; [done|lia]. Qed.

Lemma sends_ret {A} n (a : A) : sends n (ret a).
Proof. intros w. exists []. simpl. rewrite app_nil_r. split; [done|lia]. Qed.

Lemma sends_throw {A} n msg : sends n (@throw A msg).
Proof. intros w. exists []. simpl. rewrite app_nil_r. split; [done|lia]. Qed.

Lemma sends_bind {A B} n k (m : Run A) (f : A → Run B) :
  sends n m → (∀ a, sends k (f a)) → sends (n + k) (bind m f).
Proof.
  intros Hm Hf w. unfold bind. destruct (Hm w) as (tr1 & Htr1 & Hn).
  destruct (m w) as [[a|e] w1]; simpl in *.
  - destruct (Hf a w1) as (tr2 & Htr2 & Hk).
    exists (tr1 ++ tr2). rewrite Htr2, Htr1, posts_app, length_app, app_assoc.
    split; [done|lia].
  - exists tr1. split; [done|lia].
Qed.

Lemma sends_bind_first {A B} n (m : Run A) (f : A → Run B) :
  sends n m → (∀ a, sends 0 (f a)) → sends n (bind m f).
Proof. intros. rewrite <- (Nat.add_0_r n). by apply sends_bind. Qed.

Lemma sends_bind_then {A B} n (m : Run A) (f : A → Run B) :
  sends 0 m → (∀ a, sends n (f a)) → sends n (bind m f).
Proof. intros. by apply (sends_bind 0 n). Qed.

Lemma sends_readClock `{Outside} n : sends n readClock.
Proof. intros w. exists []. simpl. rewrite app_nil_r. split; [done|lia]. Qed.

Lemma sends_sheetsGet n rg : sends n (sheetsGet rg).
Proof.
  intros w. exists [EvGet rg]. unfold sheetsGet.
  destruct (valuesGet rg (sheet w)); simpl; (split; [done|lia]).
Qed.

Lemma sends_sheetsUpdate n rg cells : sends n (sheetsUpdate rg cells).
Proof.
  intros w. exists [EvUpdate rg cells]. unfold sheetsUpdate.
  destruct (valuesUpdate rg cells (sheet w)); simpl; (split; [done|lia]).
Qed.

Lemma sends_sheetsBatchUpdate n data : sends n (sheetsBatchUpdate data).
Proof.
  intros w. exists [EvBatchUpdate data]. unfold sheetsBatchUpdate.
  destruct (valuesBatchUpdate data (sheet w)); simpl; (split; [done|lia]).
Qed.

Lemma sends_sendPost `{Outside} text : sends 1 (sendPost text).
Proof. intros w. exists [EvPost text]. simpl. split; [done|lia]. Qed.

Create HintDb run discriminated.

#[export] Hint Resolve sends_ret sends_throw sends_readClock sends_sheetsGet
  sends_sheetsUpdate sends_sheetsBatchUpdate sends_sendPost : run.

(** Walks down a computation: a bind is split at the request that may
    post, a branch is entered. *)
Ltac sends_walk :=
  repeat first
    [ progress eauto with run
    | match goal with
      | |- sends _ (bind _ _) =>
          first [ apply sends_bind_then; [solve [sends_walk]|intros]
                | apply sends_bind_first; [solve [sends_walk]|intros] ]
      | |- sends _ (match ?x with _ => _ end) => destruct x
      | |- sends (S ?n) _ => apply (sends_mono 0 (S n)); [lia|solve [eauto with run]]
      end ].


(** *** What a computation leaves of the sheet *)

#[export] Instance sameBeyondZ_preorder : PreOrder sameBeyondZ.
Proof.
  split.
  - by intros s r c _.
  - intros s1 s2 s3 H12 H23 r c Hc. by rewrite H23, H12.
Qed.

Lemma keeps_ret {A} (a : A) : keeps sameBeyondZ (ret a).
Proof. by intros w. Qed.

Lemma keeps_throw {A} msg : keeps sameBeyondZ (@throw A msg).
Proof. by intros w. Qed.

Lemma keeps_bind {A B} (m : Run A) (f : A → Run B) :
  keeps sameBeyondZ m → (∀ a, keeps sameBeyondZ (f a)) → keeps sameBeyondZ (bind m f).
Proof.
  intros Hm Hf w. unfold bind. specialize (Hm w).
  destruct (m w) as [[a|e] w1]; simpl in *; [|done].
  etrans; [done|apply Hf].
Qed.

Lemma keeps_readClock `{Outside} : keeps sameBeyondZ readClock.
Proof. by intros w. Qed.

Lemma keeps_sheetsGet rg : keeps sameBeyondZ (sheetsGet rg).
Proof. intros w. unfold sheetsGet. by destruct (valuesGet rg (sheet w)). Qed.

Lemma keeps_sendPost `{Outside} text : keeps sameBeyondZ (sendPost text).
Proof. by intros w. Qed.


Lemma keeps_sheetsUpdate rg cells :
  endsByZ rg → keeps sameBeyondZ (sheetsUpdate rg cells).
Proof.
  intros Hrg w. unfold sheetsUpdate.
  destruct (valuesUpdate rg cells (sheet w)) as [s'|] eqn:E; simpl; [|done].
  intros r c Hc. by eapply valuesUpdate_beyond.
Qed.

Lemma valuesBatchUpdate_beyond data (s s' : Sheet) :
  Forall (λ d, endsByZ d.1) data →
  valuesBatchUpdate data s = Some s' → sameBeyondZ s s'.
Proof.
  intros Hdata. revert s. induction Hdata as [|[rg v] data Hrg _ IH]; intros s; simpl.
  - by intros [= ->].
  - destruct (valuesUpdate rg [Some v] s) as [s1|] eqn:E; [|done]. simpl.
    intros Hs'. etrans; [|by apply IH].
    intros r c Hc. by eapply valuesUpdate_beyond.
Qed.

Lemma keeps_sheetsBatchUpdate data :
  Forall (λ d, endsByZ d.1) data → keeps sameBeyondZ (sheetsBatchUpdate data).
Proof.
  intros Hdata w. unfold sheetsBatchUpdate.
  destruct (valuesBatchUpdate data (sheet w)) as [s'|] eqn:E; simpl; [|done].
  by eapply valuesBatchUpdate_beyond.
Qed.

#[export] Hint Resolve keeps_ret keeps_throw keeps_readClock keeps_sheetsGet
  keeps_sendPost keeps_sheetsUpdate keeps_sheetsBatchUpdate : run.

Ltac keeps_walk :=
  repeat first
    [ progress eauto with run
    | match goal with
      | |- keeps _ (bind _ _) => apply keeps_bind; [|intros]
      | |- keeps _ (match ?x with _ => _ end) => destruct x
      end ].

(** ** The first 26 columns *)

Lemma endsByZ_one_letter tab from a n :
  endsByZ {| rangeTab := tab; rangeFrom := from; rangeTo := String a (JS.toString10 n) |}.
Proof.
  intros to. cbn [rangeTo]. apply parseRef_one_letter.
  intros c s Hs. destruct (toString10_head n) as (c' & s' & Hs' & Hc').
  rewrite Hs' in Hs. by simplify_eq.
Qed.

Lemma endsByZ_fromCharCode tab from k n :
  endsByZ {| rangeTab := tab; rangeFrom := from;
             rangeTo := JS.fromCharCode k +:+ JS.toString10 n |}.
Proof. intros to. cbn [rangeTo]. apply parseRef_fromCharCode. Qed.

Lemma endsByZ_Z tab from : endsByZ {| rangeTab := tab; rangeFrom := from; rangeTo := "Z" |}.
Proof. intros to Hto. vm_compute in Hto. injection Hto as <-. simpl. lia. Qed.

Lemma endsByZ_Z10000 tab from :
  endsByZ {| rangeTab := tab; rangeFrom := from; rangeTo := "Z10000" |}.
Proof. apply (endsByZ_one_letter tab from "Z" 10000). Qed.

Lemma endsByZ_read rg (s : Sheet) values :
  endsByZ rg → valuesGet rg s = Some values → Forall (λ row, length row ≤ 26) values.
Proof.
  intros Hrg Hget.
  destruct (parseRef (rangeTo rg)) as [to|] eqn:Hto.
  - eapply Forall_impl; [by eapply valuesGet_width|].
    intros row Hrow. specialize (Hrg to Hto). simpl in Hrow. lia.
  - unfold valuesGet in Hget. rewrite Hto in Hget.
    by destruct (parseRef (rangeFrom rg)).
Qed.

Lemma Rev1_rowRange_endsByZ tab row : endsByZ (Rev1.rowRange tab row).
Proof. apply (endsByZ_one_letter _ _ "Z"). Qed.

Lemma Rev3_rowRange_endsByZ tab row : endsByZ (Rev3.rowRange tab row).
Proof. apply (endsByZ_one_letter _ _ "Z"). Qed.

Lemma Rev5_cellRange_endsByZ tab colIdx row : endsByZ (Rev5.cellRange tab colIdx row).
Proof. apply endsByZ_fromCharCode. Qed.

#[export] Hint Resolve endsByZ_Z endsByZ_Z10000 Rev1_rowRange_endsByZ
  Rev3_rowRange_endsByZ Rev5_cellRange_endsByZ endsByZ_fromCharCode : run.

Lemma Rev1_updateRow_keeps tab row headers updates :
  keeps sameBeyondZ (Rev1.updateRow tab row headers updates).
Proof. unfold Rev1.updateRow. keeps_walk. Qed.

Lemma Rev3_updateRow_keeps tab header it updates :
  keeps sameBeyondZ (Rev3.updateRow tab header it updates).
Proof. unfold Rev3.updateRow. keeps_walk. Qed.

Lemma Rev4_lift_keeps {A} (o : Outcome A) : keeps sameBeyondZ (Rev4.lift o).
Proof. destruct o; simpl; eauto with run. Qed.

#[export] Hint Resolve Rev4_lift_keeps : run.

Lemma Rev4_updateRow_keeps tab row headers updates :
  keeps sameBeyondZ (Rev4.updateRow tab row headers updates).
Proof. unfold Rev4.updateRow, Rev4.fetchRows, Rev4.endCol. keeps_walk. Qed.

Lemma Rev5_batchOf_endsByZ tab headers row updates :
  Forall (λ d, endsByZ d.1) (Rev5.batchOf tab headers row updates).
Proof.
  induction updates as [|[k v] updates IH]; [constructor|].
  rewrite Rev5_batchOf_cons. destruct (exactCol headers k); [|done].
  constructor; [apply Rev5_cellRange_endsByZ|done].
Qed.

Lemma Rev5_updateRowByHeader_keeps tab headers row updates :
  keeps sameBeyondZ (Rev5.updateRowByHeader tab headers row updates).
Proof.
  unfold Rev5.updateRowByHeader.
  pose proof (Rev5_batchOf_endsByZ tab headers row updates) as Hdata.
  destruct (Rev5.batchOf tab headers row updates); eauto with run.
Qed.

#[export] Hint Resolve Rev1_updateRow_keeps Rev3_updateRow_keeps
  Rev4_updateRow_keeps Rev5_updateRowByHeader_keeps : run.

(** ** The four programs, request by request *)

Section Mains.
Context `{Engine} `{Outside}.

Local Hint Resolve Rev1_updateRow_keeps Rev3_updateRow_keeps
  Rev4_updateRow_keeps Rev5_updateRowByHeader_keeps Rev4_lift_keeps : run.

(** *** Revision 1 *)

Lemma Rev1_updateRow_sends tab row headers updates :
  sends 0 (Rev1.updateRow tab row headers updates).
Proof. unfold Rev1.updateRow. sends_walk. Qed.

Lemma Rev1_tweet_sends text : sends 1 (Rev1.tweet text).
Proof. unfold Rev1.tweet. sends_walk. Qed.

Local Hint Resolve Rev1_updateRow_sends Rev1_tweet_sends : run.

Lemma Rev1_dispatch_sends tab headers cols item :
  sends 1 (Rev1.dispatch tab headers cols item).
Proof. unfold Rev1.dispatch. sends_walk. Qed.

Local Hint Resolve Rev1_dispatch_sends : run.

Lemma Rev1_main_sends tab : sends 1 (Rev1.main tab).
Proof. unfold Rev1.main. sends_walk. Qed.

Lemma Rev1_dispatch_keeps tab headers cols item :
  keeps sameBeyondZ (Rev1.dispatch tab headers cols item).
Proof. unfold Rev1.dispatch, Rev1.tweet. keeps_walk. Qed.

Local Hint Resolve Rev1_dispatch_keeps : run.

Lemma Rev1_main_keeps tab : keeps sameBeyondZ (Rev1.main tab).
Proof. unfold Rev1.main. keeps_walk. Qed.

(** *** Revision 3 *)

Lemma Rev3_isDue_sends it header : sends 0 (Rev3.isDue it header).
Proof. unfold Rev3.isDue. sends_walk. Qed.

Local Hint Resolve Rev3_isDue_sends : run.

Lemma Rev3_filterRun_sends {A} (p : A → Run bool) xs :
  (∀ x, sends 0 (p x)) → sends 0 (Rev3.filterRun p xs).
Proof. intros Hp. induction xs as [|x xs IH]; simpl; sends_walk. Qed.

Lemma Rev3_due_sends header items : sends 0 (Rev3.due header items).
Proof.
  unfold Rev3.due. apply sends_bind_then; [|intros; sends_walk].
  apply Rev3_filterRun_sends. intros x. sends_walk.
Qed.

Lemma Rev3_updateRow_sends tab header it updates :
  sends 0 (Rev3.updateRow tab header it updates).
Proof. unfold Rev3.updateRow. sends_walk. Qed.

Lemma Rev3_postToX_sends text : sends 1 (Rev3.postToX text).
Proof. unfold Rev3.postToX. sends_walk. Qed.

Local Hint Resolve Rev3_due_sends Rev3_updateRow_sends Rev3_postToX_sends : run.

Lemma Rev3_dispatch_sends dry tab header next :
  sends 1 (Rev3.dispatch dry tab header next).
Proof. unfold Rev3.dispatch. sends_walk. Qed.

Local Hint Resolve Rev3_dispatch_sends : run.

Lemma Rev3_main_sends dry tab : sends 1 (Rev3.main dry tab).
Proof. unfold Rev3.main. sends_walk. Qed.

Lemma Rev3_filterRun_keeps {A} (p : A → Run bool) xs :
  (∀ x, keeps sameBeyondZ (p x)) → keeps sameBeyondZ (Rev3.filterRun p xs).
Proof. intros Hp. induction xs as [|x xs IH]; simpl; keeps_walk. Qed.

Lemma Rev3_due_keeps header items : keeps sameBeyondZ (Rev3.due header items).
Proof.
  unfold Rev3.due. apply keeps_bind; [|intros; keeps_walk].
  apply Rev3_filterRun_keeps. intros x. unfold Rev3.isDue. keeps_walk.
Qed.

Local Hint Resolve Rev3_due_keeps : run.

Lemma Rev3_dispatch_keeps dry tab header next :
  keeps sameBeyondZ (Rev3.dispatch dry tab header next).
Proof. unfold Rev3.dispatch, Rev3.postToX. keeps_walk. Qed.

Local Hint Resolve Rev3_dispatch_keeps : run.

Lemma Rev3_main_keeps dry tab : keeps sameBeyondZ (Rev3.main dry tab).
Proof. unfold Rev3.main. keeps_walk. Qed.

(** *** Revision 4 *)

Lemma Rev4_lift_sends {A} (o : Outcome A) : sends 0 (Rev4.lift o).
Proof. destruct o; simpl; eauto with run. Qed.

Lemma Rev4_fetchRows_sends tab : sends 0 (Rev4.fetchRows tab).
Proof. unfold Rev4.fetchRows. sends_walk. Qed.

Local Hint Resolve Rev4_lift_sends Rev4_fetchRows_sends : run.

Lemma Rev4_updateRow_sends tab row headers updates :
  sends 0 (Rev4.updateRow tab row headers updates).
Proof. unfold Rev4.updateRow. sends_walk. Qed.

Lemma Rev4_postToX_sends text : sends 1 (Rev4.postToX text).
Proof. unfold Rev4.postToX. sends_walk. Qed.

Local Hint Resolve Rev4_updateRow_sends Rev4_postToX_sends : run.

Lemma Rev4_dispatch_sends tab headers picked :
  sends 1 (Rev4.dispatch tab headers picked).
Proof. unfold Rev4.dispatch. sends_walk. Qed.

Local Hint Resolve Rev4_dispatch_sends : run.

Lemma Rev4_main_sends tab : sends 1 (Rev4.main tab).
Proof. unfold Rev4.main. sends_walk. Qed.

Lemma Rev4_dispatch_keeps tab headers picked :
  keeps sameBeyondZ (Rev4.dispatch tab headers picked).
Proof. unfold Rev4.dispatch, Rev4.postToX. keeps_walk. Qed.

Local Hint Resolve Rev4_dispatch_keeps : run.

Lemma Rev4_main_keeps tab : keeps sameBeyondZ (Rev4.main tab).
Proof. unfold Rev4.main, Rev4.fetchRows. keeps_walk. Qed.

(** *** Revision 5 *)

Lemma Rev5_fetch_sends tab : sends 0 (Rev5.fetchRowsAndHeaders tab).
Proof. unfold Rev5.fetchRowsAndHeaders. sends_walk. Qed.

Lemma Rev5_updateRowByHeader_sends tab headers row updates :
  sends 0 (Rev5.updateRowByHeader tab headers row updates).
Proof. unfold Rev5.updateRowByHeader. sends_walk. Qed.

Lemma Rev5_postToX_sends text : sends 1 (Rev5.postToX text).
Proof. unfold Rev5.postToX. sends_walk. Qed.

Local Hint Resolve Rev5_fetch_sends Rev5_updateRowByHeader_sends Rev5_postToX_sends : run.

Lemma Rev5_dispatch_sends tab headers chosen :
  sends 1 (Rev5.dispatch tab headers chosen).
Proof. unfold Rev5.dispatch. sends_walk. Qed.

Local Hint Resolve Rev5_dispatch_sends : run.

Lemma Rev5_main_sends tab : sends 1 (Rev5.main tab).
Proof. unfold Rev5.main. sends_walk. Qed.

Lemma Rev5_dispatch_keeps tab headers chosen :
  keeps sameBeyondZ (Rev5.dispatch tab headers chosen).
Proof. unfold Rev5.dispatch, Rev5.postToX. keeps_walk. Qed.

Local Hint Resolve Rev5_dispatch_keeps : run.

Lemma Rev5_main_keeps tab : keeps sameBeyondZ (Rev5.main tab).
Proof. unfold Rev5.main, Rev5.fetchRowsAndHeaders. keeps_walk. Qed.

End Mains.

(** ** Claims about the store *)

(** C1.  A run sends at most one post: whatever the sheet, the clock
    and the replies, each [main] adds its requests to the trace and ends,
    and at most one of the requests it adds is a post. *)
Theorem at_most_one_post `{Engine} `{Outside} (tab : string) (dry : bool) (w : World) :
  (∃ tr, trace (Rev1.main tab w).2 = trace w ++ tr ∧ length (posts tr) ≤ 1) ∧
  (∃ tr, trace (Rev3.main dry tab w).2 = trace w ++ tr ∧ length (posts tr) ≤ 1) ∧
  (∃ tr, trace (Rev4.main tab w).2 = trace w ++ tr ∧ length (posts tr) ≤ 1) ∧
  (∃ tr, trace (Rev5.main tab w).2 = trace w ++ tr ∧ length (posts tr) ≤ 1).
Proof.
  repeat split.
  - apply Rev1_main_sends.
  - apply Rev3_main_sends.
  - apply Rev4_main_sends.
  - apply Rev5_main_sends.
Qed.

Example one_post_on_the_queue :
  posts (trace (@Rev1.main Reference.engine Reference.accepting "Posts"
                  (start Reference.queue)).2) = ["first"] ∧
  posts (trace (@Rev4.main Reference.engine Reference.accepting "Posts"
                  (start Reference.queue)).2) = ["second"].
Proof. split; vm_compute; reflexivity. Qed.

(** C9, as amended.  Revision 1's [updateRow] writes the fields whose
    name equals a header up to case, ignores the others without an error,
    and leaves every other cell as it was.  Revision 5's
    [updateRowByHeader] does the same for the names that equal a header
    exactly.  Revision 4's [updateRow] matches up to case and leaves the
    other cells as they were when every name has a header; a name without
    a header is an error, and then nothing is written. *)
Theorem update_writes_named_fields :
  (∀ tab n headers updates w,
     length headers ≤ 26 →
     (Rev1.updateRow tab (S n) headers updates w).1 = Ok () ∧
     ∀ r c, cell (sheet (Rev1.updateRow tab (S n) headers updates w).2) r c =
            cellAfter (foldedCol headers) updates n (sheet w) r c) ∧
  (∀ tab n headers updates w,
     length headers ≤ 26 →
     (Rev5.updateRowByHeader tab headers (S n) updates w).1 = Ok () ∧
     ∀ r c, cell (sheet (Rev5.updateRowByHeader tab headers (S n) updates w).2) r c =
            cellAfter (exactCol headers) updates n (sheet w) r c) ∧
  (∀ tab k headers updates w,
     1 ≤ length headers ≤ 26 →
     is_Some ((tableOf (sheet w)).2 !! k) →
     (∀ kv, kv ∈ updates → is_Some (foldedCol headers kv.1)) →
     (Rev4.updateRow tab (S (S k)) headers updates w).1 = Ok () ∧
     ∀ r c, cell (sheet (Rev4.updateRow tab (S (S k)) headers updates w).2) r c =
            cellAfter (foldedCol headers) updates (S k) (sheet w) r c) ∧
  (∀ tab rowNumber headers updates w k v,
     (k, v) ∈ updates → foldedCol headers k = None →
     ∃ msg, (Rev4.updateRow tab rowNumber headers updates w).1 = Err msg ∧
            sheet (Rev4.updateRow tab rowNumber headers updates w).2 = sheet w).
Proof.
  split; [|split; [|split]].
  - intros tab n headers updates w Hw. split.
    + rewrite Rev1_updateRow_run. cbn zeta. by rewrite decide_True.
    + intros r c. by apply Rev1_updateRow_cells.
  - intros. by apply Rev5_updateRowByHeader_cells.
  - intros. by apply Rev4_updateRow_cells.
  - intros tab rowNumber headers updates w k v Hin Hk.
    destruct (Rev4_updateRow_missing tab rowNumber headers updates w k v Hin Hk) as [msg ->].
    by exists msg.
Qed.

(** The theorem on the second row of the queue: [STATUS] finds the
    Status column, [Nope] finds none. *)
Lemma update_writes_named_fields_witness :
  (Rev1.updateRow "Posts" 3 (default [] (head Reference.queue))
     [("STATUS", "Posted"); ("Nope", "x")] (start Reference.queue)).1 = Ok () ∧
  ∀ r c,
    cell (sheet (Rev1.updateRow "Posts" 3 (default [] (head Reference.queue))
                   [("STATUS", "Posted"); ("Nope", "x")] (start Reference.queue)).2) r c =
    cellAfter (foldedCol (default [] (head Reference.queue)))
      [("STATUS", "Posted"); ("Nope", "x")] 2 Reference.queue r c.
Proof.
  exact (proj1 update_writes_named_fields "Posts" 2 (default [] (head Reference.queue))
           [("STATUS", "Posted"); ("Nope", "x")] (start Reference.queue)
           ltac:(vm_compute; lia)).
Defined.

(** C9 fails on revisions 4 and 5: a field without a column is an error
    in revision 4, and revision 5 does not find a column whose header
    differs in case. *)
Lemma update_is_not_lenient_everywhere :
  (Rev4.updateRow "Posts" 2 ["Status"] [("Tweet ID", "1")]
     (start [["Status"]; ["Pending"]])).1 =
    Err ("Missing required column in sheet header: " +:+ dquote +:+ "Tweet ID" +:+ dquote) ∧
  foldedCol ["Status"] "status" = Some 0 ∧
  cell (sheet (Rev5.updateRowByHeader "Posts" ["Status"] 2 [("status", "Posted")]
                 (start [["Status"]; ["Pending"]])).2) 1 0 = "Pending".
Proof. repeat split; vm_compute; reflexivity. Qed.

(** C10.  Every range the scripts read or write ends in column Z or
    before: a read returns rows of at most 26 cells, and no update and no
    run changes a cell to the right of column Z. *)
Theorem first_26_columns `{Engine} `{Outside} :
  (∀ tab row,
     Forall (λ rg, ∀ (s : Sheet) values,
                valuesGet rg s = Some values →
                Forall (λ cells, length cells ≤ 26) values)
       [ {| rangeTab := tab; rangeFrom := "A1"; rangeTo := "Z10000" |};
         Rev1.rowRange tab row;
         Rev2.fetchRange tab;
         {| rangeTab := Rev3.safeSheetTab tab; rangeFrom := "A"; rangeTo := "Z" |};
         {| rangeTab := tab; rangeFrom := "A"; rangeTo := "Z" |};
         {| rangeTab := Rev5.quoteSheetName tab; rangeFrom := "A"; rangeTo := "Z" |} ]) ∧
  (∀ tab row headers updates it,
     keeps sameBeyondZ (Rev1.updateRow tab row headers updates) ∧
     keeps sameBeyondZ (Rev3.updateRow tab headers it updates) ∧
     keeps sameBeyondZ (Rev4.updateRow tab row headers updates) ∧
     keeps sameBeyondZ (Rev5.updateRowByHeader tab headers row updates)) ∧
  (∀ tab dry,
     keeps sameBeyondZ (Rev1.main tab) ∧
     keeps sameBeyondZ (Rev3.main dry tab) ∧
     keeps sameBeyondZ (Rev4.main tab) ∧
     keeps sameBeyondZ (Rev5.main tab)).
Proof.
  split; [|split].
  - intros tab row. repeat constructor; intros s values; apply endsByZ_read;
      eauto with run.
  - intros. repeat split; eauto with run.
  - intros. repeat split.
    + apply Rev1_main_keeps.
    + apply Rev3_main_keeps.
    + apply Rev4_main_keeps.
    + apply Rev5_main_keeps.
Qed.

(** The theorem on a sheet of thirty columns: the read stops at Z. *)
Lemma first_26_columns_witness :
  Forall (λ cells, length cells ≤ 26) (readAZ [replicate 30 "x"; replicate 30 "y"]).
Proof.
  exact (proj1 (Forall_cons_1 _ _ _
           (proj1 (@first_26_columns Reference.engine Reference.accepting) "Posts" 1))
           [replicate 30 "x"; replicate 30 "y"] _ eq_refl).
Defined.

(** ** The programs unfolded

    Each [main] as a function of the world it starts in: what it reads,
    which row it hands to its dispatcher, and in which world. *)

Section Unfolded.
Context `{Engine} `{Outside}.

Lemma Rev1_main_unfold tab w :
  Rev1.main tab w =
  let values := readAZ (take 10000 (sheet w)) in
  let w1 := emit (EvGet {| rangeTab := tab; rangeFrom := "A1"; rangeTo := "Z10000" |}) w in
  if decide (length values < 2) then (Ok (), w1)
  else
    let headers := JS.trim <$> default [] (head values) in
    match Rev1.columns headers with
    | Some cols =>
        match Rev1.candidates cols (drop 1 values) (clock (clockReads w)) with
        | [] => (Ok (), tick w1)
        | item :: _ => Rev1.dispatch tab headers cols item (tick w1)
        end
    | None =>
        (Err "Missing required columns. Need: Publish Date, Time (UTC), Post Text, Status, id",
         w1)
    end.
Proof.
  unfold Rev1.main, bind, sheetsGet. rewrite valuesGet_A1Z10000. cbn zeta.
  case_decide; [done|]. destruct (Rev1.columns _); [|done].
  unfold readClock. cbn [clockReads emit]. by destruct (Rev1.candidates _ _ _).
Qed.

Lemma Rev4_main_unfold tab w :
  Rev4.main tab w =
  let now := clock (clockReads w) in
  let w1 := emit (EvGet {| rangeTab := tab; rangeFrom := "A"; rangeTo := "Z" |}) (tick w) in
  let '(headers, rows) := tableOf (sheet w) in
  match headers with
  | [] => (Ok (), w1)
  | _ =>
      match Rev4.headerIndex headers "Publish Date", Rev4.headerIndex headers "Time (UTC)",
            Rev4.headerIndex headers "Post Text", Rev4.headerIndex headers "Status" with
      | Ok iPublishDate, Ok iTimeUtc, Ok iPostText, Ok iStatus =>
          match Rev4.scan now iPublishDate iTimeUtc iPostText iStatus rows 0 with
          | Ok (Some picked) => Rev4.dispatch tab headers picked w1
          | Ok None => (Ok (), w1)
          | Err e => (Err e, w1)
          end
      | Err e, _, _, _ | Ok _, Err e, _, _ | Ok _, Ok _, Err e, _ | Ok _, Ok _, Ok _, Err e =>
          (Err e, w1)
      end
  end.
Proof.
  unfold Rev4.main, bind, readClock. rewrite Rev4_fetchRows_run. cbn [sheet tick].
  destruct (tableOf (sheet w)) as [headers rows].
  destruct headers as [|h headers]; [done|].
  destruct (Rev4.headerIndex _ "Publish Date"); [|done].
  destruct (Rev4.headerIndex _ "Time (UTC)"); [|done].
  destruct (Rev4.headerIndex _ "Post Text"); [|done].
  destruct (Rev4.headerIndex _ "Status"); [|done].
  cbn [Rev4.lift ret throw].
  by destruct (Rev4.scan _ _ _ _ _ _ _) as [[picked|]|e].
Qed.

Lemma Rev5_fetch_run tab w :
  Rev5.fetchRowsAndHeaders tab w =
  (Ok (objectsOf (sheet w)),
   emit (EvGet {| rangeTab := Rev5.quoteSheetName tab; rangeFrom := "A"; rangeTo := "Z" |}) w).
Proof.
  unfold Rev5.fetchRowsAndHeaders, bind, sheetsGet. rewrite valuesGet_AZ.
  unfold objectsOf. by case_decide.
Qed.

Lemma Rev5_main_unfold tab w :
  Rev5.main tab w =
  let w1 := emit (EvGet {| rangeTab := Rev5.quoteSheetName tab;
                           rangeFrom := "A"; rangeTo := "Z" |}) w in
  let '(headers, rows) := objectsOf (sheet w) in
  match rows with
  | [] => (Ok (), w1)
  | _ =>
      match Rev5.candidates rows (clock (clockReads w)) with
      | [] => (Ok (), tick w1)
      | first :: _ => Rev5.dispatch tab headers first.1 (tick w1)
      end
  end.
Proof.
  unfold Rev5.main, bind. rewrite Rev5_fetch_run.
  destruct (objectsOf (sheet w)) as [headers rows].
  destruct rows as [|row rows]; [done|].
  unfold readClock. cbn [clockReads emit]. by destruct (Rev5.candidates _ _).
Qed.

(** *** The dispatchers, reply by reply *)

Lemma Rev5_dispatch_rejected tab headers chosen w :
  ok (postingApi (Rev5.textOf chosen)) = false →
  Rev5.dispatch tab headers chosen w =
  (let resp := postingApi (Rev5.textOf chosen) in
   let parsed := default emptyJson (json resp) in
   Err ("X post failed (" +:+ JS.toString10 (status resp) +:+ "): " +:+
        default (default (stringified parsed) (title parsed)) (detail parsed)),
   emit (EvPost (Rev5.textOf chosen)) w).
Proof. intros Hok. unfold Rev5.dispatch, Rev5.postToX, bind, sendPost. by rewrite Hok. Qed.

Lemma Rev5_dispatch_no_id tab headers chosen w :
  ok (postingApi (Rev5.textOf chosen)) = true →
  dataId (default emptyJson (json (postingApi (Rev5.textOf chosen)))) = None →
  Rev5.dispatch tab headers chosen w =
  (Err "X post returned success but no tweet id.", emit (EvPost (Rev5.textOf chosen)) w).
Proof.
  intros Hok Hid. unfold Rev5.dispatch, Rev5.postToX, bind, sendPost.
  by rewrite Hok, Hid.
Qed.

Lemma Rev4_dispatch_rejected tab headers picked w :
  ok (postingApi (Rev4.postText picked)) = false →
  Rev4.dispatch tab headers picked w =
  (let resp := postingApi (Rev4.postText picked) in
   Err ("X post failed (" +:+ JS.toString10 (status resp) +:+ "): " +:+
        stringified (default emptyJson (json resp))),
   emit (EvPost (Rev4.postText picked)) w).
Proof. intros Hok. unfold Rev4.dispatch, Rev4.postToX, bind, sendPost. by rewrite Hok. Qed.

Lemma Rev4_dispatch_no_id tab headers picked w :
  ok (postingApi (Rev4.postText picked)) = true →
  dataId (default emptyJson (json (postingApi (Rev4.postText picked)))) = None →
  Rev4.dispatch tab headers picked w =
  (Err ("X post succeeded but no tweet id returned: " +:+
        stringified (default emptyJson (json (postingApi (Rev4.postText picked))))),
   emit (EvPost (Rev4.postText picked)) w).
Proof.
  intros Hok Hid. unfold Rev4.dispatch, Rev4.postToX, bind, sendPost.
  by rewrite Hok, Hid.
Qed.

Lemma Rev3_dispatch_rejected tab header next w :
  JS.truthy (Rev3.postTextOf header next) = true →
  ok (postingApi (Rev3.finalTextOf header next)) = false →
  Rev3.dispatch false tab header next w =
  (let resp := postingApi (Rev3.finalTextOf header next) in
   Err ("X post failed (" +:+ JS.toString10 (status resp) +:+ "): " +:+ body resp),
   emit (EvPost (Rev3.finalTextOf header next)) w).
Proof.
  intros Htext Hok. unfold Rev3.dispatch, Rev3.postToX, bind, sendPost.
  by rewrite Htext, Hok.
Qed.

Lemma Rev3_dispatch_empty dry tab header next w :
  JS.truthy (Rev3.postTextOf header next) = false →
  Rev3.dispatch dry tab header next w = (Ok (), w).
Proof. intros Htext. unfold Rev3.dispatch. by rewrite Htext. Qed.

Lemma Rev1_dispatch_empty tab headers cols item w :
  JS.truthy (Rev1.textOf cols item) = false →
  Rev1.dispatch tab headers cols item w =
  Rev1.updateRow tab (Rev1.sheetRow item) headers
    [ ("Status", "Skipped"); ("Posted At", dateToISOString (clock (clockReads w))) ]
    (tick w).
Proof. intros Htext. unfold Rev1.dispatch, bind, readClock. by rewrite Htext. Qed.

Lemma Rev1_dispatch_posted tab headers cols item w :
  JS.truthy (Rev1.textOf cols item) = true →
  ok (postingApi (Rev1.textOf cols item)) = true →
  Rev1.dispatch tab headers cols item w =
  Rev1.updateRow tab (Rev1.sheetRow item) headers
    [ ("Status", "Posted");
      ("Posted At", dateToISOString (clock (clockReads w)));
      ("Tweet ID",
       JS.orEmpty (dataId (default emptyJson (json (postingApi (Rev1.textOf cols item)))))) ]
    (tick (emit (EvPost (Rev1.textOf cols item)) w)).
Proof.
  intros Htext Hok. unfold Rev1.dispatch, Rev1.tweet, bind, sendPost, readClock.
  by rewrite Htext, Hok.
Qed.

End Unfolded.

(** ** Sorting *)

Section Sort.
Context {A : Type} (le : A → A → bool).

Lemma insertSorted_Permutation x l : JS.insertSorted le x l ≡ₚ x :: l.
Proof.
  induction l as [|y l IH]; simpl; [done|].
  destruct (le x y); [done|]. rewrite IH. apply Permutation_swap.
Qed.

Lemma sortWith_Permutation l : JS.sortWith le l ≡ₚ l.
Proof.
  induction l as [|x l IH]; simpl; [done|].
  by rewrite insertSorted_Permutation, IH.
Qed.

Lemma sortWith_elem_of x l : x ∈ JS.sortWith le l ↔ x ∈ l.
Proof. by rewrite sortWith_Permutation. Qed.

(** The sort puts [x] before [y] when the input has them in this order
    and [x] is not greater, or when [y] is smaller.  If that relation,
    [before], is transitive on the elements at hand ([dom]), the result is
    sorted by it. *)
Context (ix : A → nat) (before : relation A) (dom : A → Prop).
Hypothesis le_before : ∀ x y, dom x → dom y → le x y = true → ix x < ix y → before x y.
Hypothesis gt_before : ∀ x y, dom x → dom y → le x y = false → before y x.
Hypothesis before_trans :
  ∀ x y z, dom x → dom y → dom z → before x y → before y z → before x z.

Lemma insertSorted_sorted x l :
  dom x → Forall dom l → Forall (λ y, ix x < ix y) l →
  StronglySorted before l → StronglySorted before (JS.insertSorted le x l).
Proof.
  intros Hx Hdom Hix Hsorted.
  induction Hsorted as [|y l Hsorted IH Hy]; simpl.
  - repeat constructor.
  - apply Forall_cons in Hdom as [Hdy Hdom]. apply Forall_cons in Hix as [Hxy Hix].
    destruct (le x y) eqn:Hle.
    + constructor; [by constructor|].
      assert (before x y) as Hbxy by by apply le_before.
      constructor; [done|].
      rewrite Forall_forall in Hy, Hdom |- *. intros z Hz.
      apply (before_trans x y z); auto.
    + constructor; [by apply IH|].
      rewrite insertSorted_Permutation. constructor; [|done].
      by apply gt_before.
Qed.

Lemma sortWith_sorted l :
  Forall dom l → StronglySorted (λ x y, ix x < ix y) l →
  StronglySorted before (JS.sortWith le l).
Proof.
  intros Hdom Hinput. induction Hinput as [|x l Hinput IH Hx]; simpl; [constructor|].
  apply Forall_cons in Hdom as [Hdx Hdom].
  apply insertSorted_sorted; [done| | |by apply IH].
  - by rewrite sortWith_Permutation.
  - by rewrite sortWith_Permutation.
Qed.

End Sort.

(** The rows of a sheet, numbered as [map((r, i) => ...)] numbers them. *)
Lemma imap_indices_sorted {B} (l : list B) (k : nat) :
  StronglySorted (λ x y : nat * B, x.1 < y.1) (imap (λ i r, (k + i, r)) l).
Proof.
  revert k. induction l as [|b l IH]; intros k; simpl; [constructor|].
  constructor.
  - rewrite (imap_ext _ (λ i r, (S k + i, r))); [apply IH|].
    intros i x _. simpl. f_equal. lia.
  - apply Forall_forall. intros [j y] Hin.
    apply elem_of_lookup_imap in Hin as (i & z & [= -> ->] & _). simpl. lia.
Qed.

Lemma StronglySorted_filter {B} (R : relation B) (P : B → Prop) `{!∀ x, Decision (P x)} l :
  StronglySorted R l → StronglySorted R (filter P l).
Proof.
  induction 1 as [|x l Hsorted IH Hx]; [constructor|].
  rewrite filter_cons. case_decide; [|done].
  constructor; [done|]. rewrite Forall_forall in Hx |- *.
  intros y [_ Hy]%list_elem_of_filter. by apply Hx.
Qed.

(** *** Revision 1 *)

Section Order1.
Context `{Engine}.

Lemma Rev1_candidates_sort cols rows now :
  Rev1.candidates cols rows now = JS.sort Rev1.comparefn (dueRows1 cols rows now).
Proof. reflexivity. Qed.

Lemma dueRows1_due cols rows now c :
  c ∈ dueRows1 cols rows now → ∃ t, Rev1.dt c = Some t ∧ (t ≤ now)%Z.
Proof.
  unfold dueRows1. intros [Hdue _]%list_elem_of_filter.
  unfold Rev1.isDue in Hdue. destruct (Rev1.dt c) as [t|]; [eauto|done].
Qed.

Lemma dueRows1_pending cols rows now c :
  c ∈ dueRows1 cols rows now →
  rows !! Rev1.i c = Some (Rev1.r c) ∧ Rev1.sheetRow c = Rev1.i c + 2 ∧
  Rev1.isPending (Rev1.idxStatus cols) (Rev1.i c, Rev1.r c).
Proof.
  unfold dueRows1. intros [_ Hin]%list_elem_of_filter.
  apply list_elem_of_fmap in Hin as ([k row] & -> & Hin). simpl.
  apply list_elem_of_filter in Hin as [Hpending Hin].
  apply elem_of_lookup_imap in Hin as (k' & row' & [= -> ->] & Hrow). done.
Qed.

Lemma dueRows1_sheet_order cols rows now :
  StronglySorted (λ a b, Rev1.i a < Rev1.i b) (dueRows1 cols rows now).
Proof.
  unfold dueRows1. apply StronglySorted_filter.
  eapply StronglySorted_fmap; [|apply StronglySorted_filter, (imap_indices_sorted rows 0)].
  by intros x y.
Qed.

Lemma Rev1_le_notLater a b ta tb :
  Rev1.dt a = Some ta → Rev1.dt b = Some tb →
  (JS.sortCompare Rev1.comparefn a b <=? 0)%Z = true → (ta ≤ tb)%Z.
Proof.
  unfold JS.sortCompare, Rev1.comparefn. intros -> ->. simpl.
  case_decide; [lia|]. simpl. intros ?%Z.leb_le. lia.
Qed.

Lemma Rev1_gt_notLater a b ta tb :
  Rev1.dt a = Some ta → Rev1.dt b = Some tb →
  (JS.sortCompare Rev1.comparefn a b <=? 0)%Z = false → (tb ≤ ta)%Z.
Proof.
  unfold JS.sortCompare, Rev1.comparefn. intros -> ->. simpl.
  case_decide; [lia|]. simpl. intros ?%Z.leb_gt. lia.
Qed.

Lemma Rev1_le_before a b ta tb :
  Rev1.dt a = Some ta → Rev1.dt b = Some tb →
  (JS.sortCompare Rev1.comparefn a b <=? 0)%Z = true → Rev1.i a < Rev1.i b → before1 a b.
Proof.
  unfold JS.sortCompare, Rev1.comparefn, before1. intros -> ->. simpl.
  case_decide as Hd.
  - destruct (Rev1.id a), (Rev1.id b); simpl; intros ?%Z.leb_le ?; right; (split; [lia|]);
      try done. lia.
  - simpl. intros ?%Z.leb_le ?. left. lia.
Qed.

Lemma Rev1_gt_before a b ta tb :
  Rev1.dt a = Some ta → Rev1.dt b = Some tb →
  (JS.sortCompare Rev1.comparefn a b <=? 0)%Z = false → before1 b a.
Proof.
  unfold JS.sortCompare, Rev1.comparefn, before1. intros -> ->. simpl.
  case_decide as Hd.
  - destruct (Rev1.id a), (Rev1.id b); simpl; intros ?%Z.leb_gt; lia.
  - simpl. intros ?%Z.leb_gt. left. lia.
Qed.

Lemma before1_trans (l : list Rev1.Candidate) a b c :
  uniformIds l → a ∈ l → b ∈ l → c ∈ l →
  before1 a b → before1 b c → before1 a c.
Proof.
  intros Hu Ha Hb Hc. unfold before1.
  pose proof (Hu a b Ha Hb) as Hab. pose proof (Hu b c Hb Hc) as Hbc.
  destruct (Rev1.dt a) as [ta|], (Rev1.dt b) as [tb|], (Rev1.dt c) as [tc|]; try done.
  intros [Hlt1|[-> H1]] [Hlt2|[-> H2]]; [left; lia..|].
  right. split; [done|].
  specialize (Hab eq_refl). specialize (Hbc eq_refl).
  destruct (Rev1.id a) as [x|], (Rev1.id b) as [y|], (Rev1.id c) as [z|];
    try lia;
    try (exfalso; destruct Hab as [Hab1 Hab2], Hbc as [Hbc1 Hbc2];
         first [ by destruct Hab1 | by destruct Hab2 | by destruct Hbc1 | by destruct Hbc2 ]).
Qed.

Lemma Rev1_candidates_elem_of cols rows now c :
  c ∈ Rev1.candidates cols rows now ↔ c ∈ dueRows1 cols rows now.
Proof. rewrite Rev1_candidates_sort. unfold JS.sort. apply sortWith_elem_of. Qed.

Lemma Rev1_candidates_notLater cols rows now :
  StronglySorted notLater (Rev1.candidates cols rows now).
Proof.
  rewrite Rev1_candidates_sort. unfold JS.sort.
  apply (sortWith_sorted _ Rev1.i notLater (λ c, is_Some (Rev1.dt c))).
  - intros x y [tx Hx] [ty Hy] Hle _. unfold notLater. rewrite Hx, Hy.
    by eapply Rev1_le_notLater.
  - intros x y [tx Hx] [ty Hy] Hgt. unfold notLater. rewrite Hx, Hy.
    by eapply Rev1_gt_notLater.
  - intros x y z [tx Hx] [ty Hy] [tz Hz]. unfold notLater. rewrite Hx, Hy, Hz. lia.
  - apply Forall_forall. intros c (t & Ht & _)%dueRows1_due. by exists t.
  - apply dueRows1_sheet_order.
Qed.

Lemma Rev1_candidates_before cols rows now :
  uniformIds (Rev1.candidates cols rows now) →
  StronglySorted before1 (Rev1.candidates cols rows now).
Proof.
  intros Hu. rewrite Rev1_candidates_sort. unfold JS.sort.
  apply (sortWith_sorted _ Rev1.i before1 (λ c, c ∈ dueRows1 cols rows now)).
  - intros x y (tx & Hx & _)%dueRows1_due (ty & Hy & _)%dueRows1_due.
    by eapply Rev1_le_before.
  - intros x y (tx & Hx & _)%dueRows1_due (ty & Hy & _)%dueRows1_due.
    by eapply Rev1_gt_before.
  - intros x y z Hx Hy Hz.
    apply (before1_trans (Rev1.candidates cols rows now)); [done|..];
      by apply Rev1_candidates_elem_of.
  - by apply Forall_forall.
  - apply dueRows1_sheet_order.
Qed.

(** *** Revision 5 *)

Lemma Rev5_candidates_elem_of rows now x :
  x ∈ Rev5.candidates rows now ↔ x ∈ dueRows5 rows now.
Proof. unfold Rev5.candidates, JS.sort. apply sortWith_elem_of. Qed.

Lemma dueRows5_due rows now x :
  x ∈ dueRows5 rows now →
  x.1 ∈ rows ∧ Rev5.isPending x.1 ∧ JS.truthy (Rev5.textOf x.1) = true ∧
  ∃ t, x.2 = Some t ∧ Rev5.parseUtcDueDate x.1 = Some t ∧ (t ≤ now)%Z.
Proof.
  unfold dueRows5. intros [[Htext Hdue] Hin]%list_elem_of_filter.
  apply list_elem_of_fmap in Hin as (row & -> & Hin). simpl in *.
  apply list_elem_of_filter in Hin as [Hpending Hin].
  destruct (Rev5.parseUtcDueDate row) as [t|]; [|done]. eauto 10.
Qed.

Lemma Rev5_candidates_before rows now :
  StronglySorted (λ a b, Rev5.rowIndex a < Rev5.rowIndex b) rows →
  StronglySorted before5 (Rev5.candidates rows now).
Proof.
  intros Hrows. unfold Rev5.candidates, JS.sort.
  apply (sortWith_sorted _ (λ x, Rev5.rowIndex x.1) before5 (λ x, is_Some x.2)).
  - intros x y [tx Hx] [ty Hy]. unfold JS.sortCompare, Rev5.comparefn, before5.
    rewrite Hx, Hy. simpl. intros ?%Z.leb_le ?. lia.
  - intros x y [tx Hx] [ty Hy]. unfold JS.sortCompare, Rev5.comparefn, before5.
    rewrite Hx, Hy. simpl. intros ?%Z.leb_gt. lia.
  - intros x y z [tx Hx] [ty Hy] [tz Hz]. unfold before5. rewrite Hx, Hy, Hz. lia.
  - apply Forall_forall. intros x (_ & _ & _ & t & Ht & _)%dueRows5_due. by exists t.
  - apply StronglySorted_filter.
    eapply StronglySorted_fmap; [|by apply StronglySorted_filter]. by intros x y.
Qed.

End Order1.

Lemma objectsOf_sheet_order (s : Sheet) :
  StronglySorted (λ a b, Rev5.rowIndex a < Rev5.rowIndex b) (objectsOf s).2.
Proof.
  unfold objectsOf. case_decide; simpl; [constructor|].
  generalize (drop 1 (readAZ s)). intros rows.
  set (headers := JS.trim <$> default [] (head (readAZ s))).
  pose proof (imap_indices_sorted rows 0) as Hsorted.
  eapply (StronglySorted_fmap
            (λ x : nat * list string,
               {| Rev5.fields := JS.objLiteral (imap (λ k h, (h, JS.orEmpty (x.2 !! k))) headers);
                  Rev5.rowIndex := x.1 + 2 |})) in Hsorted.
  - by rewrite fmap_imap in Hsorted.
  - intros x y ?. simpl. lia.
Qed.

(** ** The selector *)

Lemma uniformIds_all_some (l : list Rev1.Candidate) :
  Forall (λ c, is_Some (Rev1.id c)) l → uniformIds l.
Proof.
  intros Hall a b Ha Hb _.
  rewrite Forall_forall in Hall. split; intros _; by apply Hall.
Qed.

Lemma head_StronglySorted {A} (R : relation A) (l : list A) first x :
  StronglySorted R l → head l = Some first → x ∈ l → x = first ∨ R first x.
Proof.
  intros Hsorted Hhead Hin. destruct l as [|y l]; [done|].
  injection Hhead as ->. apply StronglySorted_inv in Hsorted as [_ Hall].
  apply elem_of_cons in Hin as [->|Hin]; [by left|].
  right. rewrite Forall_forall in Hall. by apply Hall.
Qed.

(** C2, as amended.  Revision 1 sorts the pending, due rows by instant;
    when, among rows of one instant, the ids are all numeric or all
    missing, rows of one instant stand by ascending id, and by sheet
    order where the ids are equal or missing; the row it selects, the
    head of the list, is no later than any due row.  Revision 5 sorts the
    pending, due rows by instant and keeps the sheet order among rows of
    one instant, whatever their ids; the row it selects stands before
    every other due row in that order. *)
Theorem selector_order `{Engine} cols rows now (s : Sheet) :
  (Rev1.candidates cols rows now ≡ₚ dueRows1 cols rows now ∧
   StronglySorted notLater (Rev1.candidates cols rows now) ∧
   (uniformIds (Rev1.candidates cols rows now) →
    StronglySorted before1 (Rev1.candidates cols rows now)) ∧
   (∀ first c, head (Rev1.candidates cols rows now) = Some first →
               c ∈ dueRows1 cols rows now → notLater first c)) ∧
  (Rev5.candidates (objectsOf s).2 now ≡ₚ dueRows5 (objectsOf s).2 now ∧
   StronglySorted before5 (Rev5.candidates (objectsOf s).2 now) ∧
   (∀ first x, head (Rev5.candidates (objectsOf s).2 now) = Some first →
               x ∈ dueRows5 (objectsOf s).2 now → x = first ∨ before5 first x)).
Proof.
  split; [split; [|split; [|split]]|split; [|split]].
  - rewrite Rev1_candidates_sort. apply sortWith_Permutation.
  - apply Rev1_candidates_notLater.
  - apply Rev1_candidates_before.
  - intros first c Hhead Hin. apply Rev1_candidates_elem_of in Hin.
    destruct (head_StronglySorted _ _ _ _ (Rev1_candidates_notLater cols rows now) Hhead Hin)
      as [->|Hle]; [|done].
    apply Rev1_candidates_elem_of, dueRows1_due in Hin as (t & Ht & _).
    unfold notLater. rewrite Ht. lia.
  - apply sortWith_Permutation.
  - apply Rev5_candidates_before, objectsOf_sheet_order.
  - intros first x Hhead Hin. apply Rev5_candidates_elem_of in Hin.
    eapply head_StronglySorted; [|done..].
    apply Rev5_candidates_before, objectsOf_sheet_order.
Qed.

Lemma selector_order_witness :
  uniformIds (@Rev1.candidates Reference.engine Reference.queueCols
                (drop 1 Reference.queue) Reference.feb1) ∧
  StronglySorted before1 (@Rev1.candidates Reference.engine Reference.queueCols
                            (drop 1 Reference.queue) Reference.feb1).
Proof.
  assert (uniformIds (@Rev1.candidates Reference.engine Reference.queueCols
                        (drop 1 Reference.queue) Reference.feb1)) as Huniform.
  { apply uniformIds_all_some. vm_compute.
    repeat (apply Forall_cons_2; [eexists; reflexivity|]). apply Forall_nil_2. }
  split; [exact Huniform|].
  exact (proj1 (proj2 (proj2 (proj1
           (@selector_order Reference.engine Reference.queueCols (drop 1 Reference.queue)
              Reference.feb1 Reference.queue)))) Huniform).
Defined.

(** Revision 5 on two posts of one instant: the one that comes first in
    the sheet is selected and posted, although its id is the larger. *)
Lemma Rev5_ignores_id :
  (λ x : Rev5.Row * option Z, (JS.objGet "id" (Rev5.fields x.1), x.2)) <$>
    @Rev5.candidates Reference.engine (objectsOf Reference.ties).2 Reference.feb1 =
    [ (Some "2", Some 1769853600000%Z); (Some "1", Some 1769853600000%Z) ] ∧
  posts (trace (@Rev5.main Reference.engine Reference.accepting "Posts"
                  (start Reference.ties)).2) = ["two"].
Proof. split; vm_compute; reflexivity. Qed.

(** ** A rejected post *)

Section Rejected.
Context `{Engine} `{Outside}.

Lemma quiet_ret {A} (a : A) : quiet (ret a).
Proof. intros w. by exists a. Qed.

Lemma quiet_readClock : quiet readClock.
Proof. intros w. by eexists. Qed.

Lemma quiet_bind {A B} (m : Run A) (k : A → Run B) :
  quiet m → (∀ a, quiet (k a)) → quiet (x ⇐ m ;; k x).
Proof.
  intros Hm Hk w. unfold bind. destruct (Hm w) as (a & Ha & Hs & Ht).
  destruct (m w) as [[a'|e] w1]; simpl in *; [|done]. injection Ha as ->.
  destruct (Hk a w1) as (b & Hb & Hs' & Ht'). exists b. by rewrite Hs', Ht'.
Qed.

Lemma Rev3_isDue_quiet it header : quiet (Rev3.isDue it header).
Proof.
  unfold Rev3.isDue. destruct (negb _); [apply quiet_ret|].
  case_decide; [apply quiet_ret|]. destruct (Rev3.isoOf _ _); [|apply quiet_ret].
  apply quiet_bind; [apply quiet_readClock|]. intros now. apply quiet_ret.
Qed.

Lemma Rev3_isDue_true it header w :
  (Rev3.isDue it header w).1 = Ok true →
  JS.truthy (Rev3.postTextOf header it) = true ∧ pending3 header it.
Proof.
  unfold Rev3.isDue, pending3.
  destruct (JS.truthy (Rev3.postTextOf header it)); [|done]. simpl.
  case_decide as Hstatus; [done|]. intros _. split; [done|].
  by destruct (decide (JS.toLowerCase
                         (JS.trim (JS.orEmpty (Rev3.column (Rev3.headerKey header "status") it)))
                       = "pending")).
Qed.

Lemma Rev3_filterRun_run {A} (p : A → Run bool) (xs : list A) w :
  (∀ x, quiet (p x)) →
  ∃ kept, (Rev3.filterRun p xs w).1 = Ok kept ∧
          sheet (Rev3.filterRun p xs w).2 = sheet w ∧
          trace (Rev3.filterRun p xs w).2 = trace w ∧
          ∀ x, x ∈ kept → x ∈ xs ∧ ∃ w', (p x w').1 = Ok true.
Proof.
  intros Hp. revert w. induction xs as [|x xs IH]; intros w.
  { exists []. split; [done|]. split; [done|]. split; [done|]. by intros y ?%elem_of_nil. }
  simpl. unfold bind. destruct (Hp x w) as (b & Hb & Hs & Ht).
  destruct (p x w) as [[b'|e] w1] eqn:Hpx; simpl in *; [|done]. injection Hb as ->.
  destruct (IH w1) as (kept & Hkept & Hs' & Ht' & Hin).
  destruct (Rev3.filterRun p xs w1) as [[kept'|e] w2]; simpl in *; [|done].
  injection Hkept as ->.
  exists (if b then x :: kept else kept). rewrite Hs', Ht'.
  split; [done|]. split; [done|]. split; [done|].
  intros y Hy. destruct b.
  - apply elem_of_cons in Hy as [->|Hy].
    + split; [left|]. exists w. by rewrite Hpx.
    + destruct (Hin y Hy). split; [by right|done].
  - destruct (Hin y Hy). split; [by right|done].
Qed.

Lemma Rev3_due_run header items w :
  ∃ dueRows, (Rev3.due header items w).1 = Ok dueRows ∧
             sheet (Rev3.due header items w).2 = sheet w ∧
             trace (Rev3.due header items w).2 = trace w ∧
             ∀ x, x ∈ dueRows →
                  x.1 ∈ items ∧ JS.truthy (Rev3.postTextOf header x.1) = true ∧
                  pending3 header x.1.
Proof.
  unfold Rev3.due, bind.
  match goal with |- context [Rev3.filterRun ?p ?xs w] =>
    destruct (Rev3_filterRun_run p xs w) as (kept & Hkept & Hs & Ht & Hin);
    [|destruct (Rev3.filterRun p xs w) as [[kept'|e] w1]; simpl in *; [|done]]
  end.
  { intros [it [iso|]]; simpl; [|apply quiet_ret].
    destruct (JS.truthy iso); [apply Rev3_isDue_quiet|apply quiet_ret]. }
  injection Hkept as ->. eexists. split; [done|]. split; [done|]. split; [done|].
  intros x Hx%sortWith_elem_of. destruct (Hin _ Hx) as [Hitem [w' Hw']].
  apply list_elem_of_fmap in Hitem as (it & -> & Hit). simpl in *. split; [done|].
  destruct (Rev3.isoOf header it) as [iso|]; [|done].
  destruct (JS.truthy iso); [|done]. by apply Rev3_isDue_true in Hw'.
Qed.

Lemma Rev5_candidates_later rows now later x :
  (now ≤ later)%Z → x ∈ Rev5.candidates rows now → x ∈ Rev5.candidates rows later.
Proof.
  intros Hle. rewrite !Rev5_candidates_elem_of. unfold dueRows5.
  rewrite !list_elem_of_filter. intros [[Htext Hdue] Hin]. split; [|done].
  split; [done|]. destruct x.2; [lia|done].
Qed.

End Rejected.

Lemma writes_get tr rg : writes (tr ++ [EvGet rg]) = writes tr.
Proof. rewrite writes_app. change (writes [EvGet rg]) with (@nil Event). apply app_nil_r. Qed.

Lemma writes_post tr text : writes (tr ++ [EvPost text]) = writes tr.
Proof. rewrite writes_app. change (writes [EvPost text]) with (@nil Event). apply app_nil_r. Qed.

(** C3.  When the posting API rejects the post of the selected row with
    a status outside 200-299, the run fails with the message
    [X post failed (status): provider message], no update reaches the
    sheet, and the row is as pending as it was: revision 5 selects it
    again at any later time.  Shown for the mains of revisions 5 and 3
    (revision 3 with the dry run off). *)
Theorem rejected_post_is_retried `{Engine} `{Outside} tab (w : World) :
  (∀ first,
     head (Rev5.candidates (objectsOf (sheet w)).2 (clock (clockReads w))) = Some first →
     ok (postingApi (Rev5.textOf first.1)) = false →
     let resp := postingApi (Rev5.textOf first.1) in
     let parsed := default emptyJson (json resp) in
     let out := Rev5.main tab w in
     out.1 = Err ("X post failed (" +:+ JS.toString10 (status resp) +:+ "): " +:+
                  default (default (stringified parsed) (title parsed)) (detail parsed)) ∧
     sheet out.2 = sheet w ∧
     writes (trace out.2) = writes (trace w) ∧
     Rev5.isPending first.1 ∧
     ∀ later, (clock (clockReads w) ≤ later)%Z →
              first ∈ Rev5.candidates (objectsOf (sheet out.2)).2 later) ∧
  (∀ header items dueRows first,
     Rev3.parseSheet (readAZ (sheet w)) = (header, items) →
     header ≠ [] →
     (Rev3.due header items
        (emit (EvGet {| rangeTab := Rev3.safeSheetTab tab; rangeFrom := "A"; rangeTo := "Z" |})
              w)).1 = Ok dueRows →
     head dueRows = Some first →
     ok (postingApi (Rev3.finalTextOf header first.1)) = false →
     let resp := postingApi (Rev3.finalTextOf header first.1) in
     let out := Rev3.main false tab w in
     out.1 = Err ("X post failed (" +:+ JS.toString10 (status resp) +:+ "): " +:+ body resp) ∧
     sheet out.2 = sheet w ∧
     writes (trace out.2) = writes (trace w) ∧
     pending3 header first.1).
Proof.
  split.
  - intros first Hhead Hok. cbn zeta. rewrite Rev5_main_unfold. cbn zeta.
    assert (first ∈ Rev5.candidates (objectsOf (sheet w)).2 (clock (clockReads w))) as Hin.
    { destruct (Rev5.candidates _ _) as [|x l]; [done|]. injection Hhead as ->. left. }
    destruct (objectsOf (sheet w)) as [headers rows] eqn:Hfetch. simpl in Hhead, Hin.
    destruct rows as [|row rows]; [done|].
    destruct (Rev5.candidates _ _) as [|x l] eqn:Hcands; [done|]. injection Hhead as ->.
    rewrite Rev5_dispatch_rejected by done. simpl.
    split; [done|]. split; [done|]. split.
    { by rewrite writes_post, writes_get. }
    rewrite Hfetch. simpl. split.
    + rewrite <- Hcands in Hin. by apply Rev5_candidates_elem_of, dueRows5_due in Hin as (_ & ? & _).
    + intros later Hlater. rewrite <- Hcands in Hin. by eapply Rev5_candidates_later.
  - intros header items dueRows first Hparse Hheader Hdue Hhead Hok. cbn zeta.
    unfold Rev3.main, bind, sheetsGet. rewrite valuesGet_AZ. cbn zeta. rewrite Hparse.
    destruct header as [|h header']; [done|].
    set (w1 := emit _ w) in *.
    destruct (Rev3_due_run (h :: header') items w1) as (dueRows' & Hrun & Hs & Ht & Hin).
    destruct (Rev3.due (h :: header') items w1) as [[d|e] w2]; simpl in *; [|done].
    injection Hrun as ->. injection Hdue as ->.
    destruct dueRows as [|x l]; [done|]. injection Hhead as ->.
    destruct (Hin first) as (_ & Htext & Hpending); [left|].
    rewrite Rev3_dispatch_rejected by done. simpl.
    rewrite Hs, Ht. split; [done|]. split; [done|]. split; [|done].
    by rewrite writes_post, writes_get.
Qed.

Lemma rejected_post_is_retried_witness :
  (@Rev5.main Reference.engine (Reference.answering Reference.unauthorized Reference.feb1)
     "Posts" (start Reference.ties)).1 = Err "X post failed (401): Unauthorized" ∧
  (@Rev3.main Reference.engine (Reference.answering Reference.unauthorized Reference.feb1)
     false "Posts" (start Reference.ties)).1 =
    Err ("X post failed (401): " +:+ Reference.unauthorizedText).
Proof.
  destruct (@rejected_post_is_retried Reference.engine
              (Reference.answering Reference.unauthorized Reference.feb1)
              "Posts" (start Reference.ties)) as [H5 H3].
  split.
  - edestruct H5 as [Herr _]; [vm_compute; reflexivity|vm_compute; reflexivity|].
    rewrite Herr. vm_compute. reflexivity.
  - edestruct H3 as [Herr _];
      [vm_compute; reflexivity|done|vm_compute; reflexivity|vm_compute; reflexivity
      |vm_compute; reflexivity|].
    rewrite Herr. vm_compute. reflexivity.
Defined.

(** ** A success that names no post *)

(** C4, as amended.  When the posting API answers 2xx but names no
    post, the dispatchers of revisions 5 and 4 fail with an error and
    write nothing: the sheet is as it was.  The dispatcher of revision 1
    returns normally and records the row as posted, with an empty
    [Tweet ID]. *)
Theorem success_without_id `{Engine} `{Outside} tab (w : World) :
  (∀ headers chosen,
     ok (postingApi (Rev5.textOf chosen)) = true →
     dataId (default emptyJson (json (postingApi (Rev5.textOf chosen)))) = None →
     (Rev5.dispatch tab headers chosen w).1 = Err "X post returned success but no tweet id." ∧
     sheet (Rev5.dispatch tab headers chosen w).2 = sheet w ∧
     writes (trace (Rev5.dispatch tab headers chosen w).2) = writes (trace w)) ∧
  (∀ headers picked,
     ok (postingApi (Rev4.postText picked)) = true →
     dataId (default emptyJson (json (postingApi (Rev4.postText picked)))) = None →
     (Rev4.dispatch tab headers picked w).1 =
       Err ("X post succeeded but no tweet id returned: " +:+
            stringified (default emptyJson (json (postingApi (Rev4.postText picked))))) ∧
     sheet (Rev4.dispatch tab headers picked w).2 = sheet w ∧
     writes (trace (Rev4.dispatch tab headers picked w).2) = writes (trace w)) ∧
  (∀ headers cols item n,
     JS.truthy (Rev1.textOf cols item) = true →
     ok (postingApi (Rev1.textOf cols item)) = true →
     dataId (default emptyJson (json (postingApi (Rev1.textOf cols item)))) = None →
     Rev1.sheetRow item = S n →
     length headers ≤ 26 →
     (Rev1.dispatch tab headers cols item w).1 = Ok () ∧
     ∀ r c, cell (sheet (Rev1.dispatch tab headers cols item w).2) r c =
            cellAfter (foldedCol headers)
              [ ("Status", "Posted");
                ("Posted At", dateToISOString (clock (clockReads w)));
                ("Tweet ID", "") ]
              n (sheet w) r c).
Proof.
  split; [|split].
  - intros headers chosen Hok Hid. rewrite Rev5_dispatch_no_id by done. simpl.
    by rewrite writes_post.
  - intros headers picked Hok Hid. rewrite Rev4_dispatch_no_id by done. simpl.
    by rewrite writes_post.
  - intros headers cols item n Htext Hok Hid Hrow Hwidth.
    rewrite Rev1_dispatch_posted by done. rewrite Hid, Hrow. split.
    + rewrite Rev1_updateRow_run. cbn zeta. by rewrite decide_True.
    + intros r c. by rewrite Rev1_updateRow_cells.
Qed.

Lemma success_without_id_witness :
  (@Rev5.dispatch Reference.engine (Reference.answering Reference.bare Reference.feb1)
     "Posts" ["Post Text"; "Status"; "Tweet ID"]
     {| Rev5.fields := [("Post Text", "two"); ("Status", "Pending"); ("Tweet ID", "")];
        Rev5.rowIndex := 2 |}
     (start [["Post Text"; "Status"; "Tweet ID"]; ["two"; "Pending"]])).1 =
  Err "X post returned success but no tweet id.".
Proof.
  apply (@success_without_id Reference.engine
           (Reference.answering Reference.bare Reference.feb1)); vm_compute; reflexivity.
Defined.

(** Revision 1 on the queue, the reply being a bare 200: the run ends
    normally, and the row it posted reads [Posted] with no tweet id. *)
Lemma Rev1_records_post_without_id :
  (@Rev1.main Reference.engine (Reference.answering Reference.bare Reference.feb1)
     "Posts" (start Reference.queue)).1 = Ok () ∧
  posts (trace (@Rev1.main Reference.engine (Reference.answering Reference.bare Reference.feb1)
                  "Posts" (start Reference.queue)).2) = ["first"] ∧
  (sheet (@Rev1.main Reference.engine (Reference.answering Reference.bare Reference.feb1)
            "Posts" (start Reference.queue)).2) !! 2 =
    Some ["2"; "2026-01-31"; "10:00:00"; "first"; "Posted"; "2026-02-01T00:00:00.001Z"; ""].
Proof. repeat split; vm_compute; reflexivity. Qed.

(** ** A row without text *)

(** C5, as amended.  Handed a row whose trimmed text is empty, the
    dispatcher of revision 1 sends no post and writes [Status = Skipped]
    and [Posted At = now] to the row, leaving the other cells as they
    were.  The dispatcher of revision 3 sends no post either, and writes
    nothing: it returns in the world it started in; its selector never
    hands it such a row. *)
Theorem empty_text_is_not_posted `{Engine} `{Outside} tab (w : World) :
  (∀ headers cols item n,
     JS.truthy (Rev1.textOf cols item) = false →
     Rev1.sheetRow item = S n →
     length headers ≤ 26 →
     (Rev1.dispatch tab headers cols item w).1 = Ok () ∧
     posts (trace (Rev1.dispatch tab headers cols item w).2) = posts (trace w) ∧
     ∀ r c, cell (sheet (Rev1.dispatch tab headers cols item w).2) r c =
            cellAfter (foldedCol headers)
              [ ("Status", "Skipped");
                ("Posted At", dateToISOString (clock (clockReads w))) ]
              n (sheet w) r c) ∧
  (∀ dry header next,
     JS.truthy (Rev3.postTextOf header next) = false →
     Rev3.dispatch dry tab header next w = (Ok (), w)) ∧
  (∀ header items dueRows x,
     (Rev3.due header items w).1 = Ok dueRows →
     x ∈ dueRows →
     JS.truthy (Rev3.postTextOf header x.1) = true).
Proof.
  split; [|split].
  - intros headers cols item n Htext Hrow Hwidth.
    rewrite Rev1_dispatch_empty by done. rewrite Hrow. split; [|split].
    + rewrite Rev1_updateRow_run. cbn zeta. by rewrite decide_True.
    + rewrite Rev1_updateRow_run. cbn zeta. rewrite decide_True by done. simpl.
      rewrite !posts_app. simpl. by rewrite !app_nil_r.
    + intros r c. by rewrite Rev1_updateRow_cells.
  - intros dry header next Htext. by apply Rev3_dispatch_empty.
  - intros header items dueRows x Hdue Hin.
    destruct (Rev3_due_run header items w) as (dueRows' & Hrun & _ & _ & Hall).
    rewrite Hdue in Hrun. injection Hrun as <-. by destruct (Hall x Hin) as (_ & ? & _).
Qed.

Lemma empty_text_is_not_posted_witness :
  (@Rev1.dispatch Reference.engine Reference.accepting "Posts"
     (default [] (head Reference.blank)) Reference.queueCols
     {| Rev1.r := ["1"; "2026-01-31"; "10:00"; ""; "Pending"]; Rev1.i := 0;
        Rev1.sheetRow := 2; Rev1.dt := Some 1769853600000%Z; Rev1.id := Some 1%Z |}
     (start Reference.blank)).1 = Ok ().
Proof.
  apply (@empty_text_is_not_posted Reference.engine Reference.accepting "Posts"
           (start Reference.blank)) with (n := 1);
    [vm_compute; reflexivity|reflexivity|simpl; lia].
Defined.

(** The queue of one row without text.  Revision 1 marks the row
    [Skipped]; revision 3 neither posts nor writes: the row stays
    [Pending], and so does it when the dispatcher is handed the row. *)
Lemma Rev3_skips_without_update :
  (sheet (@Rev1.main Reference.engine Reference.accepting "Posts"
            (start Reference.blank)).2) !! 1 =
    Some ["1"; "2026-01-31"; "10:00"; ""; "Skipped"; "2026-02-01T00:00:00.001Z"] ∧
  (@Rev3.main Reference.engine Reference.accepting false "Posts"
     (start Reference.blank)).1 = Ok () ∧
  sheet (@Rev3.main Reference.engine Reference.accepting false "Posts"
           (start Reference.blank)).2 = Reference.blank ∧
  writes (trace (@Rev3.main Reference.engine Reference.accepting false "Posts"
                   (start Reference.blank)).2) = [] ∧
  @Rev3.dispatch Reference.engine Reference.accepting false "Posts"
     (default [] (head Reference.blank))
     {| Rev3.fields := [("id", "1"); ("Publish Date", "2026-01-31"); ("Time (UTC)", "10:00");
                        ("Post Text", ""); ("Status", "Pending"); ("Posted At", "")];
        Rev3.rowIndex1 := 2 |}
     (start Reference.blank) = (Ok (), start Reference.blank).
Proof. repeat split; vm_compute; reflexivity. Qed.

(** ** Dates and times *)

Lemma digit_not_space c : JS.isDigit c = true → JS.isSpace c = false.
Proof. by destruct c as [[] [] [] [] [] [] [] []]. Qed.

Lemma digit_not_colon c : JS.isDigit c = true → Ascii.eqb c ":" = false.
Proof. by destruct c as [[] [] [] [] [] [] [] []]. Qed.

Lemma trim_two_digits a b :
  JS.isDigit a = true → JS.isDigit b = true →
  JS.trim (String a (String b EmptyString)) = String a (String b EmptyString).
Proof.
  intros Ha%digit_not_space Hb%digit_not_space. unfold JS.trim.
  cbn [JS.trimStart]. rewrite Ha. cbn [JS.trimEnd]. by rewrite Hb.
Qed.

Lemma split_hhmm a b c e :
  Forall (λ x, JS.isDigit x = true) [a; b; c; e] →
  JS.split ":" (hhmm a b c e)
  = [String a (String b EmptyString); String c (String e EmptyString)].
Proof.
  intros Hdigits. repeat (apply Forall_cons_1 in Hdigits as [?%digit_not_colon Hdigits]).
  unfold hhmm. cbn [JS.split]. by repeat match goal with Heq : _ = false |- _ => rewrite Heq; clear Heq end.
Qed.

Lemma split_hhmmss a b c e f g :
  Forall (λ x, JS.isDigit x = true) [a; b; c; e; f; g] →
  JS.split ":" (hhmmss a b c e f g)
  = [String a (String b EmptyString); String c (String e EmptyString);
     String f (String g EmptyString)].
Proof.
  intros Hdigits. repeat (apply Forall_cons_1 in Hdigits as [?%digit_not_colon Hdigits]).
  change (hhmmss a b c e f g)
    with (String a (String b (String ":" (String c (String e
            (String ":" (String f (String g EmptyString)))))))).
  cbn [JS.split].
  by repeat match goal with Heq : _ = false |- _ => rewrite Heq; clear Heq end.
Qed.

Section Dates.
Context `{Engine}.

Lemma dueRows1_dt cols rows now c :
  c ∈ dueRows1 cols rows now →
  Rev1.dt c = Rev1.parseUtcDateTime (Rev1.r c !! Rev1.idxPublishDate cols)
                                    (Rev1.r c !! Rev1.idxTimeUtc cols).
Proof.
  unfold dueRows1. intros [_ Hin]%list_elem_of_filter.
  by apply list_elem_of_fmap in Hin as ([k row] & -> & _).
Qed.

Lemma Rev4_scan_app now iPublishDate iTimeUtc iPostText iStatus pre rest k :
  Rev4.scan now iPublishDate iTimeUtc iPostText iStatus pre k = Ok None →
  Rev4.scan now iPublishDate iTimeUtc iPostText iStatus (pre ++ rest) k =
  Rev4.scan now iPublishDate iTimeUtc iPostText iStatus rest (k + length pre).
Proof.
  revert k. induction pre as [|row pre IH]; intros k; simpl.
  { intros _. by rewrite Nat.add_0_r. }
  replace (k + S (length pre)) with (S k + length pre) by lia.
  case_decide; [apply IH|]. destruct (negb _); [apply IH|].
  destruct (Rev4.parseUtcDateTime _ _) as [t|e]; [|done].
  case_decide; [done|apply IH].
Qed.

Context `{Outside}.

Lemma Rev3_isDue_parsed it header w :
  (Rev3.isDue it header w).1 = Ok true →
  ∃ iso, Rev3.isoOf header it = Some iso ∧ is_Some (dateParse iso).
Proof.
  unfold Rev3.isDue. destruct (negb _); [done|]. case_decide; [done|].
  destruct (Rev3.isoOf header it) as [iso|]; [|done].
  unfold bind, readClock. simpl. destruct (dateParse iso) as [t|] eqn:Hparse; [|done].
  intros _. exists iso. by rewrite Hparse.
Qed.

Lemma Rev3_due_parsed header items w :
  ∃ dueRows, (Rev3.due header items w).1 = Ok dueRows ∧
             ∀ x, x ∈ dueRows →
                  ∃ iso, Rev3.isoOf header x.1 = Some iso ∧ is_Some (dateParse iso).
Proof.
  unfold Rev3.due, bind.
  match goal with |- context [Rev3.filterRun ?p ?xs w] =>
    destruct (Rev3_filterRun_run p xs w) as (kept & Hkept & _ & _ & Hin);
    [|destruct (Rev3.filterRun p xs w) as [[kept'|e] w1]; simpl in *; [|done]]
  end.
  { intros [it [iso|]]; simpl; [|apply quiet_ret].
    destruct (JS.truthy iso); [apply Rev3_isDue_quiet|apply quiet_ret]. }
  injection Hkept as ->. eexists. split; [done|].
  intros x Hx%sortWith_elem_of. destruct (Hin _ Hx) as [Hitem [w' Hw']].
  apply list_elem_of_fmap in Hitem as (it & -> & Hit). simpl in *.
  destruct (Rev3.isoOf header it) as [iso|] eqn:Hiso; [|done].
  destruct (JS.truthy iso); [|done].
  apply Rev3_isDue_parsed in Hw' as (iso' & Hiso' & Hparsed).
  rewrite Hiso in Hiso'. injection Hiso' as <-. by exists iso.
Qed.

End Dates.

(** C6, as amended.  Revisions 1 and 5 ([parseUtcDateTime],
    [parseUtcDueDate]) and revision 3 ([toIsoUtcFromColumns]) read a
    time [hh:mm] as [hh:mm:00] and a time [hh:mm:ss] as it is; the rows
    they select are rows whose date and time parsed, and their selection
    does not fail.  Revision 4 ([parseUtcDateTime]) reads [hh:mm] as
    [hh:mm:00] too, but its scan fails with the error of
    [parseUtcDateTime] at the first pending row with text whose date and
    time do not parse, if no earlier row was picked. *)
Theorem time_forms_and_unparsed_rows `{Engine} `{Outside}
    (d t : string) (a b c e f g : ascii) :
  Forall (λ x, JS.isDigit x = true) [a; b; c; e; f; g] →
  JS.truthy (JS.trim d) = true →
  (JS.trim t = hhmm a b c e →
   Rev1.parseUtcDateTime (Some d) (Some t)
     = dateParse (d +:+ "T" +:+ hhmmss a b c e "0" "0" +:+ "Z") ∧
   Rev5.dueDateOf (JS.trim d) (JS.trim t)
     = dateParse (JS.trim d +:+ "T" +:+ hhmmss a b c e "0" "0" +:+ "Z") ∧
   Rev3.toIsoUtcFromColumns (Some d) (Some t)
     = Some (JS.trim d +:+ "T" +:+ hhmmss a b c e "0" "0" +:+ "Z") ∧
   ∀ v, dateParse (JS.trim d +:+ "T" +:+ hhmmss a b c e "0" "0" +:+ "Z") = Some v →
        Rev4.parseUtcDateTime (Some d) (Some t) = Ok v) ∧
  (JS.trim t = hhmmss a b c e f g →
   Rev1.parseUtcDateTime (Some d) (Some t)
     = dateParse (d +:+ "T" +:+ hhmmss a b c e f g +:+ "Z") ∧
   Rev5.dueDateOf (JS.trim d) (JS.trim t)
     = dateParse (JS.trim d +:+ "T" +:+ hhmmss a b c e f g +:+ "Z") ∧
   Rev3.toIsoUtcFromColumns (Some d) (Some t)
     = Some (JS.trim d +:+ "T" +:+ hhmmss a b c e f g +:+ "Z")) ∧
  (∀ cols rows now x,
     x ∈ Rev1.candidates cols rows now →
     is_Some (Rev1.parseUtcDateTime (Rev1.r x !! Rev1.idxPublishDate cols)
                                    (Rev1.r x !! Rev1.idxTimeUtc cols))) ∧
  (∀ rows now x,
     x ∈ Rev5.candidates rows now → is_Some (Rev5.parseUtcDueDate x.1)) ∧
  (∀ header items w,
     ∃ dueRows, (Rev3.due header items w).1 = Ok dueRows ∧
                ∀ x, x ∈ dueRows →
                     ∃ iso, Rev3.isoOf header x.1 = Some iso ∧ is_Some (dateParse iso)) ∧
  (∀ now iPublishDate iTimeUtc iPostText iStatus pre row rest err,
     Rev4.scan now iPublishDate iTimeUtc iPostText iStatus pre 0 = Ok None →
     JS.toLowerCase (JS.trim (JS.orEmpty (row !! iStatus))) = "pending" →
     JS.truthy (JS.trim (JS.orEmpty (row !! iPostText))) = true →
     Rev4.parseUtcDateTime (row !! iPublishDate) (row !! iTimeUtc) = Err err →
     Rev4.scan now iPublishDate iTimeUtc iPostText iStatus (pre ++ row :: rest) 0 = Err err).
Proof.
  intros Hdigits Hdate.
  apply Forall_cons_1 in Hdigits as [Ha Hdigits]. apply Forall_cons_1 in Hdigits as [Hb Hdigits].
  apply Forall_cons_1 in Hdigits as [Hc Hdigits]. apply Forall_cons_1 in Hdigits as [He Hdigits].
  apply Forall_cons_1 in Hdigits as [Hf Hdigits]. apply Forall_cons_1 in Hdigits as [Hg _].
  split; [|split; [|split; [|split; [|split]]]].
  - intros Ht. split; [|split; [|split]].
    + unfold Rev1.parseUtcDateTime. simpl. by rewrite Ht.
    + unfold Rev5.dueDateOf. rewrite Hdate, Ht. done.
    + unfold Rev3.toIsoUtcFromColumns. cbv zeta. cbn [JS.orEmpty default id]. rewrite Hdate, Ht.
      rewrite split_hhmm by (by repeat apply Forall_cons_2).
      cbn [negb orb JS.truthy hhmm fmap list_fmap]. by rewrite !trim_two_digits.
    + intros v Hv. unfold Rev4.parseUtcDateTime. cbv zeta. cbn [JS.String_ default id]. rewrite Ht.
      change (JS.trim d +:+ "T" +:+ hhmm a b c e +:+ ":00Z")
        with (JS.trim d +:+ "T" +:+ hhmmss a b c e "0" "0" +:+ "Z").
      by rewrite Hv.
  - intros Ht. split; [|split].
    + unfold Rev1.parseUtcDateTime. simpl. by rewrite Ht.
    + unfold Rev5.dueDateOf. rewrite Hdate, Ht. done.
    + unfold Rev3.toIsoUtcFromColumns. cbv zeta. cbn [JS.orEmpty default id]. rewrite Hdate, Ht.
      rewrite split_hhmmss by (by repeat apply Forall_cons_2).
      cbn [negb orb JS.truthy hhmm hhmmss String.append fmap list_fmap].
      by rewrite !trim_two_digits.
  - intros cols rows now x Hin%Rev1_candidates_elem_of.
    rewrite <- (dueRows1_dt _ _ _ _ Hin).
    apply dueRows1_due in Hin as (v & -> & _). by exists v.
  - intros rows now x Hin%Rev5_candidates_elem_of.
    apply dueRows5_due in Hin as (_ & _ & _ & v & _ & -> & _). by exists v.
  - intros header items w. apply Rev3_due_parsed.
  - intros now iPublishDate iTimeUtc iPostText iStatus pre row rest err Hpre Hstatus Htext Herr.
    rewrite Rev4_scan_app by done. simpl.
    rewrite decide_False by (by intros []). by rewrite Htext, Herr.
Qed.

Lemma time_forms_and_unparsed_rows_witness :
  @Rev1.parseUtcDateTime Reference.engine (Some "2026-01-31") (Some " 10:00 ")
  = Some 1769853600000%Z.
Proof.
  destruct (@time_forms_and_unparsed_rows Reference.engine Reference.accepting
              "2026-01-31" " 10:00 " "1" "0" "0" "0" "0" "0") as [Hhhmm _].
  - repeat (apply Forall_cons_2; [reflexivity|]). apply Forall_nil_2.
  - reflexivity.
  - destruct Hhhmm as [-> _]; [reflexivity|]. vm_compute. reflexivity.
Defined.

(** Revision 4 on a sheet whose first pending row is dated in month
    13: the run fails and the due row below it is not posted, where
    revision 5 leaves the row out and posts the due one.  Revision 4
    fails likewise on a time with seconds, to which it appends [:00]. *)
Lemma Rev4_fails_on_unparsed_date :
  (@Rev4.main Reference.engine Reference.accepting "Posts" (start Reference.misdated)).1 =
    Err ("Invalid date/time from sheet: Publish Date=" +:+ dquote +:+ "2026-13-01" +:+ dquote
         +:+ ", Time (UTC)=" +:+ dquote +:+ "10:00" +:+ dquote
         +:+ " -> " +:+ dquote +:+ "2026-13-01T10:00:00Z" +:+ dquote) ∧
  posts (trace (@Rev4.main Reference.engine Reference.accepting "Posts"
                  (start Reference.misdated)).2) = [] ∧
  posts (trace (@Rev5.main Reference.engine Reference.accepting "Posts"
                  (start Reference.misdated)).2) = ["due"] ∧
  (@Rev4.main Reference.engine Reference.accepting "Posts" (start Reference.withSeconds)).1 =
    Err ("Invalid date/time from sheet: Publish Date=" +:+ dquote +:+ "2026-01-31" +:+ dquote
         +:+ ", Time (UTC)=" +:+ dquote +:+ "10:00:00" +:+ dquote
         +:+ " -> " +:+ dquote +:+ "2026-01-31T10:00:00:00Z" +:+ dquote).
Proof. repeat split; vm_compute; reflexivity. Qed.

(** ** Names: trimming, quoting, the environment *)

Lemma trimStart_head (s : string) :
  JS.trimStart s = "" ∨ ∃ c t, JS.trimStart s = String c t ∧ JS.isSpace c = false.
Proof.
  induction s as [|c s IH]; [by left|]. simpl.
  destruct (JS.isSpace c) eqn:Hc; [done|]. right. by exists c, s.
Qed.

Lemma trimEnd_head c (s : string) :
  JS.isSpace c = false → ∃ t, JS.trimEnd (String c s) = String c t.
Proof.
  intros Hc. simpl. destruct (JS.trimEnd s); [|by eexists].
  rewrite Hc. by eexists.
Qed.

Lemma trimEnd_idemp (s : string) : JS.trimEnd (JS.trimEnd s) = JS.trimEnd s.
Proof.
  induction s as [|c s IH]; [done|]. simpl.
  destruct (JS.trimEnd s) as [|d t] eqn:Hs.
  - destruct (JS.isSpace c) eqn:Hc; [done|]. simpl. by rewrite Hc.
  - change (JS.trimEnd (String c (String d t))) with
      (match JS.trimEnd (String d t) with
       | EmptyString => if JS.isSpace c then EmptyString else String c EmptyString
       | u => String c u
       end).
    by rewrite IH.
Qed.

Lemma trimStart_trimmed c (s : string) :
  JS.isSpace c = false → JS.trimStart (String c s) = String c s.
Proof. intros Hc. simpl. by rewrite Hc. Qed.

Lemma trim_head (s : string) :
  JS.trim s = "" ∨ ∃ c t, JS.trim s = String c t ∧ JS.isSpace c = false.
Proof.
  unfold JS.trim. destruct (trimStart_head s) as [->|(c & t & -> & Hc)]; [by left|].
  right. destruct (trimEnd_head c t Hc) as [u ->]. by exists c, u.
Qed.

Lemma trim_idemp (s : string) : JS.trim (JS.trim s) = JS.trim s.
Proof.
  destruct (trim_head s) as [->|(c & t & Hs & Hc)]; [done|].
  unfold JS.trim at 1. rewrite Hs, (trimStart_trimmed _ _ Hc), <- Hs.
  unfold JS.trim. apply trimEnd_idemp.
Qed.

(** *** Quoting a tab name *)

Lemma append_inv_tail (s t u : string) : s +:+ u = t +:+ u → s = t.
Proof.
  revert t. induction s as [|c s IH]; intros [|d t] Heq; simpl in Heq.
  - done.
  - apply (f_equal String.length) in Heq. simpl in Heq. rewrite !length_append in Heq.
    simpl in Heq. lia.
  - apply (f_equal String.length) in Heq. simpl in Heq. rewrite !length_append in Heq.
    simpl in Heq. lia.
  - injection Heq as -> Heq. f_equal. by apply IH.
Qed.

Lemma doubled_quotes_inj (a b : string) :
  JS.replaceClass (λ c, Ascii.eqb c "'") (λ _, "''") a
  = JS.replaceClass (λ c, Ascii.eqb c "'") (λ _, "''") b →
  a = b.
Proof.
  revert b. induction a as [|c a IH]; intros [|d b]; simpl.
  - done.
  - by destruct (Ascii.eqb d "'").
  - by destruct (Ascii.eqb c "'").
  - destruct (Ascii.eqb c "'") eqn:Hc, (Ascii.eqb d "'") eqn:Hd; simpl; intros Heq.
    + apply Ascii.eqb_eq in Hc as ->. apply Ascii.eqb_eq in Hd as ->.
      injection Heq as Heq. f_equal. by apply IH.
    + injection Heq as <- _. by rewrite Ascii.eqb_refl in Hd.
    + injection Heq as -> _. by rewrite Ascii.eqb_refl in Hc.
    + injection Heq as -> Heq. f_equal. by apply IH.
Qed.

Lemma quoted_inj (a b : string) :
  "'" +:+ JS.replaceClass (λ c, Ascii.eqb c "'") (λ _, "''") a +:+ "'"
  = "'" +:+ JS.replaceClass (λ c, Ascii.eqb c "'") (λ _, "''") b +:+ "'" →
  a = b.
Proof.
  simpl. intros Heq. injection Heq as Heq.
  by apply doubled_quotes_inj, (append_inv_tail _ _ "'").
Qed.

(** X1.  [quoteSheetName] (revisions 2 and 5) never gives two tab names
    the same quoted form. *)
Theorem quoteSheetName_inj (a b : string) :
  (Rev5.quoteSheetName a = Rev5.quoteSheetName b → a = b) ∧
  (Rev2.quoteSheetName a = Rev2.quoteSheetName b → a = b).
Proof. split; apply quoted_inj. Qed.

Lemma quoteSheetName_inj_witness : "Bob's posts" = "Bob's posts".
Proof. apply (proj1 (quoteSheetName_inj "Bob's posts" "Bob's posts")). reflexivity. Defined.

(** *** [safeSheetTab] *)

Lemma removed_length cls (s : string) :
  String.length (JS.replaceClass cls (λ _, "") s) ≤ String.length s.
Proof.
  induction s as [|c s IH]; [done|].
  change (JS.replaceClass cls (λ _, "") (String c s))
    with ((if cls c then "" else String c "") +:+ JS.replaceClass cls (λ _, "") s).
  rewrite length_append. destruct (cls c); simpl; lia.
Qed.

Lemma needsQuotes_everyChar (raw : string) :
  Rev3.needsQuotes raw = negb (everyChar wordChar raw).
Proof.
  unfold Rev3.needsQuotes. f_equal.
  change (λ c, negb (JS.isAlpha c || JS.isDigit c || Ascii.eqb c "_"))
    with (λ c, negb (wordChar c)).
  induction raw as [|c raw IH]; [done|].
  change (JS.replaceClass (λ c, negb (wordChar c)) (λ _, "") (String c raw))
    with ((if negb (wordChar c) then "" else String c "")
          +:+ JS.replaceClass (λ c, negb (wordChar c)) (λ _, "") raw).
  cbn [everyChar]. destruct (wordChar c); cbn [negb andb].
  - change (String c "" +:+ ?x) with (String c x).
    cbn [String.eqb]. by rewrite Ascii.eqb_refl.
  - change ("" +:+ ?x) with x.
    apply String.eqb_neq. intros Heq. apply (f_equal String.length) in Heq.
    pose proof (removed_length (λ c, negb (wordChar c)) raw).
    cbn [String.length] in Heq. lia.
Qed.

Lemma everyChar_head p c (s : string) : everyChar p (String c s) = true → p c = true.
Proof. simpl. by intros [? _]%andb_prop. Qed.

Lemma mustEnv_value env name v :
  Rev3.mustEnv env name = Ok v →
  ∃ raw, env name = Some raw ∧ v = JS.trim raw ∧ JS.truthy raw = true ∧ JS.truthy v = true.
Proof.
  unfold Rev3.mustEnv. destruct (env name) as [raw|]; [|done].
  destruct (JS.truthy raw) eqn:Hraw; [|done].
  destruct (JS.truthy (JS.trim raw)) eqn:Htrim; [|done].
  simpl. intros [= <-]. by exists raw.
Qed.

(** X2.  [mustEnv] as revisions 2, 3 and 5 have it returns the trimmed
    value of the variable: a value that is not empty and that trimming
    leaves as it is.  It fails with [Missing env var: NAME] when the
    variable is missing, empty or blank.  Whatever it accepts, the
    [mustEnv] of revisions 1 and 4 accepts too, untrimmed; that one
    returns the variable as it is, and only an empty one fails. *)
Theorem mustEnv_trimmed (env : string → option string) (name : string) :
  (∀ v, Rev3.mustEnv env name = Ok v →
        v ≠ "" ∧ JS.trim v = v ∧
        ∃ raw, env name = Some raw ∧ v = JS.trim raw ∧ Rev1.mustEnv env name = Ok raw) ∧
  (∀ e, Rev3.mustEnv env name = Err e →
        e = "Missing env var: " +:+ name ∧ JS.trim (JS.orEmpty (env name)) = "") ∧
  (∀ v, Rev1.mustEnv env name = Ok v → v ≠ "" ∧ env name = Some v).
Proof.
  split; [|split].
  - intros v (raw & Henv & -> & Hraw & Hv)%mustEnv_value.
    split; [by destruct (JS.trim raw)|]. split; [apply trim_idemp|].
    exists raw. unfold Rev1.mustEnv. by rewrite Henv, Hraw.
  - intros e. unfold Rev3.mustEnv. destruct (env name) as [raw|]; simpl.
    + destruct raw as [|c raw]; simpl; [by intros [= <-]|].
      destruct (JS.truthy (JS.trim (String c raw))) eqn:Htrim; simpl; [done|].
      intros [= <-]. split; [done|]. by destruct (JS.trim (String c raw)).
    + by intros [= <-].
  - intros v. unfold Rev1.mustEnv. destruct (env name) as [raw|]; [|done].
    destruct raw as [|c raw]; simpl; [done|]. by intros [= <-].
Qed.

Lemma mustEnv_trimmed_witness :
  JS.trim "Posts" = "Posts".
Proof.
  apply (proj1 (mustEnv_trimmed (λ _, Some "  Posts ") "GOOGLE_SHEET_TAB") "Posts").
  reflexivity.
Defined.

(** X3.  [safeSheetTab] fails on a blank name and on no other; it
    returns the trimmed name as it is when every character is a letter,
    a digit or an underscore, and the name between single quotes, its
    own quotes doubled, otherwise.  Two names give the same result only
    if they are the same once trimmed, and a name that [mustEnv]
    returned is never refused. *)
Theorem safeSheetTab_quotes_when_needed (tabName : string) :
  Rev3.safeSheetTabChecked (Some tabName) =
    (if JS.truthy (JS.trim tabName) then Ok (Rev3.safeSheetTab tabName)
     else Err "Missing env var: GOOGLE_SHEET_TAB") ∧
  Rev3.safeSheetTab tabName =
    (if everyChar wordChar (JS.trim tabName) then JS.trim tabName
     else Rev5.quoteSheetName (JS.trim tabName)) ∧
  (∀ other, Rev3.safeSheetTab tabName = Rev3.safeSheetTab other →
            JS.trim tabName = JS.trim other) ∧
  (∀ env name tab, Rev3.mustEnv env name = Ok tab →
                   Rev3.safeSheetTabChecked (Some tab) = Ok (Rev3.safeSheetTab tab)).
Proof.
  assert (∀ t, Rev3.safeSheetTab t =
               (if everyChar wordChar (JS.trim t) then JS.trim t
                else Rev5.quoteSheetName (JS.trim t))) as Hshape.
  { intros t. unfold Rev3.safeSheetTab. cbv zeta. rewrite needsQuotes_everyChar.
    by destruct (everyChar wordChar (JS.trim t)). }
  assert (∀ t, Rev3.safeSheetTabChecked (Some t) =
               (if JS.truthy (JS.trim t) then Ok (Rev3.safeSheetTab t)
                else Err "Missing env var: GOOGLE_SHEET_TAB")) as Hchecked.
  { intros t. unfold Rev3.safeSheetTabChecked, Rev3.safeSheetTab. cbv zeta.
    cbn [JS.orEmpty default id]. destruct (JS.truthy (JS.trim t)); cbn [negb]; [|done].
    by destruct (Rev3.needsQuotes (JS.trim t)). }
  split; [apply Hchecked|]. split; [apply Hshape|]. split.
  - intros other. rewrite !Hshape.
    destruct (everyChar wordChar (JS.trim tabName)) eqn:Ha,
             (everyChar wordChar (JS.trim other)) eqn:Hb; [done|..].
    + unfold Rev5.quoteSheetName. intros Heq. rewrite Heq in Ha.
      by apply everyChar_head in Ha.
    + unfold Rev5.quoteSheetName. intros Heq. rewrite <- Heq in Hb.
      by apply everyChar_head in Hb.
    + apply quoted_inj.
  - intros env name tab (raw & _ & -> & _ & Htab)%mustEnv_value.
    by rewrite Hchecked, trim_idemp, Htab.
Qed.

Lemma safeSheetTab_quotes_when_needed_witness :
  Rev3.safeSheetTabChecked (Some "My Posts") = Ok "'My Posts'".
Proof.
  rewrite (proj2 (proj2 (proj2 (safeSheetTab_quotes_when_needed "")))
             (λ _, Some " My Posts ") "GOOGLE_SHEET_TAB" "My Posts"); reflexivity.
Defined.

(** ** Runs that stop before they select *)

Section Edges.
Context `{Engine} `{Outside}.

Lemma Rev3_main_unfold dry tab w :
  Rev3.main dry tab w =
  let w1 := emit (EvGet {| rangeTab := Rev3.safeSheetTab tab;
                           rangeFrom := "A"; rangeTo := "Z" |}) w in
  let '(header, items) := Rev3.parseSheet (readAZ (sheet w)) in
  match header with
  | [] => (Ok (), w1)
  | _ =>
      match Rev3.due header items w1 with
      | (Ok [], w2) => (Ok (), tick w2)
      | (Ok (first :: _), w2) => Rev3.dispatch dry tab header first.1 w2
      | (Err e, w2) => (Err e, w2)
      end
  end.
Proof.
  unfold Rev3.main, bind, sheetsGet. rewrite valuesGet_AZ. cbn zeta.
  destruct (Rev3.parseSheet (readAZ (sheet w))) as [header items].
  destruct header as [|h header]; [done|].
  destruct (Rev3.due (h :: header) items _) as [[[|first rest]|e] w2]; done.
Qed.

Lemma Rev1_columns_missing headers name :
  name ∈ ["Publish Date"; "Time (UTC)"; "Post Text"; "Status"; "id"] →
  foldedCol headers name = None →
  Rev1.columns headers = None.
Proof.
  intros Hin Hnone. unfold Rev1.columns.
  change (foldedCol headers name) with (Rev1.col headers name) in Hnone.
  repeat (apply elem_of_cons in Hin as [->|Hin];
          [rewrite Hnone; by repeat case_match|]).
  by apply elem_of_nil in Hin.
Qed.

Lemma objGet_objLiteral_missing k kvs :
  k ∉ kvs.*1 → JS.objGet k (JS.objLiteral kvs) = None.
Proof.
  intros Hk. destruct (JS.objGet k (JS.objLiteral kvs)) as [v|] eqn:Hget; [|done].
  exfalso. apply Hk. unfold JS.objLiteral in Hget. rewrite objGet_objAssign in Hget.
  simpl in Hget. clear Hk. induction kvs as [|[k' v'] kvs IH]; simpl in *; [done|].
  destruct (lastValue k kvs) as [v0|].
  - right. by apply IH.
  - case_decide; [subst; left|done].
Qed.

Lemma imap_keys {A} (f : nat → A) (l : list string) :
  (imap (λ k h, (h, f k)) l).*1 = l.
Proof.
  rewrite fmap_imap. change (imap _ l) with (imap (const id) l).
  by rewrite imap_const, list_fmap_id.
Qed.

Lemma objectsOf_no_status (s : Sheet) row :
  "Status" ∉ (objectsOf s).1 → row ∈ (objectsOf s).2 → ¬ Rev5.isPending row.
Proof.
  unfold objectsOf. case_decide; simpl; [by intros _ ?%elem_of_nil|].
  intros Hmissing (k & cells & -> & _)%elem_of_lookup_imap.
  unfold Rev5.isPending, Rev5.toLowerTrim. simpl.
  rewrite objGet_objLiteral_missing; [done|].
  by rewrite imap_keys.
Qed.

End Edges.

Lemma filter_none {A} (P : A → Prop) `{!∀ x, Decision (P x)} (l : list A) :
  (∀ x, x ∈ l → ¬ P x) → filter P l = [].
Proof.
  induction l as [|x l IH]; intros Hall; [done|].
  rewrite filter_cons_False by (apply Hall; left).
  apply IH. intros y Hy. apply Hall. by right.
Qed.

(** X4.  When the tab holds fewer than two rows (no header, or a header
    and no data), every revision ends normally after its one read: no
    post, no write. *)
Theorem no_data_rows_no_work `{Engine} `{Outside} tab dry (w : World) :
  (length (readAZ (take 10000 (sheet w))) < 2 →
   Rev1.main tab w =
     (Ok (), emit (EvGet {| rangeTab := tab; rangeFrom := "A1"; rangeTo := "Z10000" |}) w)) ∧
  (length (readAZ (sheet w)) < 2 →
   Rev3.main dry tab w =
     (Ok (), emit (EvGet {| rangeTab := Rev3.safeSheetTab tab;
                            rangeFrom := "A"; rangeTo := "Z" |}) w) ∧
   Rev4.main tab w =
     (Ok (), emit (EvGet {| rangeTab := tab; rangeFrom := "A"; rangeTo := "Z" |}) (tick w)) ∧
   Rev5.main tab w =
     (Ok (), emit (EvGet {| rangeTab := Rev5.quoteSheetName tab;
                            rangeFrom := "A"; rangeTo := "Z" |}) w)).
Proof.
  split.
  - intros Hshort. rewrite Rev1_main_unfold. cbn zeta. by rewrite decide_True.
  - intros Hshort. split; [|split].
    + rewrite Rev3_main_unfold. cbn zeta. unfold Rev3.parseSheet. by rewrite decide_True.
    + rewrite Rev4_main_unfold. cbn zeta. unfold tableOf. by rewrite decide_True.
    + rewrite Rev5_main_unfold. cbn zeta. unfold objectsOf. by rewrite decide_True.
Qed.

Lemma no_data_rows_no_work_witness :
  @Rev5.main Reference.engine Reference.accepting "Posts" (start [["Post Text"; "Status"]]) =
  (Ok (), emit (EvGet {| rangeTab := "'Posts'"; rangeFrom := "A"; rangeTo := "Z" |})
            (start [["Post Text"; "Status"]])).
Proof.
  apply (@no_data_rows_no_work Reference.engine Reference.accepting "Posts" false
           (start [["Post Text"; "Status"]])).
  vm_compute. lia.
Defined.

(** X5.  A sheet without one of the columns a revision requires stops
    the run before anything is posted or written.  Revision 1 fails with
    its list of the five required columns; revision 4 fails with the
    name of the first of its four that is missing; revision 5 requires
    none, and without a [Status] column it finds no pending row and ends
    normally. *)
Theorem missing_column_stops_the_run `{Engine} `{Outside} tab (w : World) (name : string) :
  (2 ≤ length (readAZ (take 10000 (sheet w))) →
   name ∈ ["Publish Date"; "Time (UTC)"; "Post Text"; "Status"; "id"] →
   foldedCol (JS.trim <$> default [] (head (readAZ (take 10000 (sheet w))))) name = None →
   Rev1.main tab w =
     (Err "Missing required columns. Need: Publish Date, Time (UTC), Post Text, Status, id",
      emit (EvGet {| rangeTab := tab; rangeFrom := "A1"; rangeTo := "Z10000" |}) w)) ∧
  ((tableOf (sheet w)).1 ≠ [] →
   name ∈ ["Publish Date"; "Time (UTC)"; "Post Text"; "Status"] →
   foldedCol (tableOf (sheet w)).1 name = None →
   ∃ missing,
     missing ∈ ["Publish Date"; "Time (UTC)"; "Post Text"; "Status"] ∧
     foldedCol (tableOf (sheet w)).1 missing = None ∧
     Rev4.main tab w =
       (Err ("Missing required column in sheet header: " +:+ dquote +:+ missing +:+ dquote),
        emit (EvGet {| rangeTab := tab; rangeFrom := "A"; rangeTo := "Z" |}) (tick w))) ∧
  ("Status" ∉ (objectsOf (sheet w)).1 →
   (Rev5.main tab w).1 = Ok () ∧
   sheet (Rev5.main tab w).2 = sheet w ∧
   trace (Rev5.main tab w).2 =
     trace w ++ [EvGet {| rangeTab := Rev5.quoteSheetName tab;
                          rangeFrom := "A"; rangeTo := "Z" |}]).
Proof.
  split; [|split].
  - intros Hrows Hin Hnone. rewrite Rev1_main_unfold. cbn zeta.
    rewrite decide_False by lia. by rewrite (Rev1_columns_missing _ _ Hin Hnone).
  - intros Hheaders Hin Hnone. rewrite Rev4_main_unfold. cbn zeta.
    destruct (tableOf (sheet w)) as [headers rows]. simpl in *.
    destruct headers as [|h headers]; [done|].
    unfold Rev4.headerIndex, foldedCol in *.
    destruct (JS.findIndex (JS.sameName "Publish Date") (h :: headers)) eqn:H1;
      [|exists "Publish Date"; repeat split; [set_solver|done]].
    destruct (JS.findIndex (JS.sameName "Time (UTC)") (h :: headers)) eqn:H2;
      [|exists "Time (UTC)"; repeat split; [set_solver|done]].
    destruct (JS.findIndex (JS.sameName "Post Text") (h :: headers)) eqn:H3;
      [|exists "Post Text"; repeat split; [set_solver|done]].
    destruct (JS.findIndex (JS.sameName "Status") (h :: headers)) eqn:H4;
      [|exists "Status"; repeat split; [set_solver|done]].
    repeat (apply elem_of_cons in Hin as [->|Hin]; [congruence|]).
    by apply elem_of_nil in Hin.
  - intros Hmissing. rewrite Rev5_main_unfold. cbn zeta.
    pose proof (objectsOf_no_status (sheet w)) as Hnone.
    destruct (objectsOf (sheet w)) as [headers rows]. simpl in *.
    destruct rows as [|row rows]; [done|].
    unfold Rev5.candidates. rewrite (filter_none Rev5.isPending); [done|].
    intros x Hx. by apply Hnone.
Qed.

Lemma missing_column_stops_the_run_witness :
  (@Rev1.main Reference.engine Reference.accepting "Posts" (start Reference.misdated)).1 =
  Err "Missing required columns. Need: Publish Date, Time (UTC), Post Text, Status, id".
Proof.
  rewrite (proj1 (@missing_column_stops_the_run Reference.engine Reference.accepting "Posts"
                    (start Reference.misdated) "id"));
    [reflexivity|vm_compute; lia
    |apply (bool_decide_unpack _); vm_compute; reflexivity|vm_compute; reflexivity].
Defined.

(** ** The loop of revision 4 *)

Section Scan.
Context `{Engine}.
Variables (now : Z) (iPublishDate iTimeUtc iPostText iStatus : nat).

Local Abbreviation scan := (Rev4.scan now iPublishDate iTimeUtc iPostText iStatus).
Local Abbreviation eligible := (eligible4 now iPublishDate iTimeUtc iPostText iStatus).

Lemma Rev4_scan_picked rows k picked :
  scan rows k = Ok (Some picked) →
  ∃ j row,
    Rev4.r picked = k + j ∧ rows !! j = Some row ∧
    Rev4.rowNumber picked = k + j + 2 ∧
    Rev4.postText picked = JS.trim (JS.orEmpty (row !! iPostText)) ∧
    Rev4.parseUtcDateTime (row !! iPublishDate) (row !! iTimeUtc)
      = Ok (Rev4.scheduled picked) ∧
    eligible row ∧
    ∀ i earlier, i < j → rows !! i = Some earlier → ¬ eligible earlier.
Proof.
  revert k. induction rows as [|row rows IH]; intros k; [done|].
  assert (¬ eligible row → scan rows (S k) = Ok (Some picked) →
          ∃ j row0,
            Rev4.r picked = k + j ∧ (row :: rows) !! j = Some row0 ∧
            Rev4.rowNumber picked = k + j + 2 ∧
            Rev4.postText picked = JS.trim (JS.orEmpty (row0 !! iPostText)) ∧
            Rev4.parseUtcDateTime (row0 !! iPublishDate) (row0 !! iTimeUtc)
              = Ok (Rev4.scheduled picked) ∧
            eligible row0 ∧
            ∀ i earlier, i < j → (row :: rows) !! i = Some earlier → ¬ eligible earlier)
    as Hskip.
  { intros Hrow (j & row0 & Hr & Hj & Hn & Htext & Hparse & Hok & Hearlier)%IH.
    exists (S j), row0. split_and!; try done; try lia.
    intros [|i] earlier Hi; simpl; [by intros [= <-]|].
    apply Hearlier. lia. }
  simpl. case_decide as Hstatus.
  { apply Hskip. by intros [? _]. }
  destruct (JS.truthy (JS.trim (JS.orEmpty (row !! iPostText)))) eqn:Htext; simpl;
    [|apply Hskip; intros (_ & ? & _); congruence].
  destruct (Rev4.parseUtcDateTime _ _) as [t|e] eqn:Hparse; [|done].
  case_decide as Hdue.
  - intros [= <-]. exists 0, row. simpl. rewrite Nat.add_0_r.
    assert (JS.toLowerCase (JS.trim (JS.orEmpty (row !! iStatus))) = "pending") as Hpending.
    { by destruct (decide (JS.toLowerCase (JS.trim (JS.orEmpty (row !! iStatus)))
                           = "pending")). }
    split_and!; try done.
    + split_and!; try done. by exists t.
    + intros i earlier Hi. lia.
  - apply Hskip. intros (_ & _ & t' & Ht' & Hle).
    rewrite Hparse in Ht'. injection Ht' as <-. done.
Qed.

Lemma Rev4_scan_none rows k row :
  scan rows k = Ok None → row ∈ rows → ¬ eligible row.
Proof.
  revert k. induction rows as [|row0 rows IH]; intros k; [by intros _ ?%elem_of_nil|].
  simpl. intros Hscan [->|Hin]%elem_of_cons.
  - intros (Hstatus & Htext & t & Ht & Hle).
    rewrite decide_False in Hscan by (by intros []).
    rewrite Htext, Ht in Hscan. simpl in Hscan. by rewrite decide_True in Hscan.
  - revert Hscan. case_decide; [by eauto|].
    destruct (negb _); [by eauto|].
    destruct (Rev4.parseUtcDateTime _ _); [|done]. case_decide; [done|by eauto].
Qed.

End Scan.

(** X6.  The loop of revision 4 picks the first row, in sheet order,
    that is pending, has text and is due, whatever the instants of the
    rows after it; the sheet row number it records is the row's position
    plus two.  When it picks none, no row is pending, with text and
    due. *)
Theorem Rev4_scan_first_eligible `{Engine} now iPublishDate iTimeUtc iPostText iStatus rows :
  (∀ picked,
     Rev4.scan now iPublishDate iTimeUtc iPostText iStatus rows 0 = Ok (Some picked) →
     ∃ row,
       rows !! Rev4.r picked = Some row ∧
       Rev4.rowNumber picked = Rev4.r picked + 2 ∧
       Rev4.postText picked = JS.trim (JS.orEmpty (row !! iPostText)) ∧
       Rev4.parseUtcDateTime (row !! iPublishDate) (row !! iTimeUtc)
         = Ok (Rev4.scheduled picked) ∧
       eligible4 now iPublishDate iTimeUtc iPostText iStatus row ∧
       ∀ i earlier, i < Rev4.r picked → rows !! i = Some earlier →
                    ¬ eligible4 now iPublishDate iTimeUtc iPostText iStatus earlier) ∧
  (Rev4.scan now iPublishDate iTimeUtc iPostText iStatus rows 0 = Ok None →
   ∀ row, row ∈ rows → ¬ eligible4 now iPublishDate iTimeUtc iPostText iStatus row).
Proof.
  split.
  - intros picked (j & row & Hr & Hj & Hn & Htext & Hparse & Hok & Hearlier)%Rev4_scan_picked.
    simpl in *. subst j. exists row. by rewrite Hn.
  - intros Hscan row Hin. by eapply Rev4_scan_none.
Qed.

Lemma Rev4_scan_first_eligible_witness :
  ∃ row, drop 1 Reference.queue !! 0 = Some row ∧
         eligible4 (H := Reference.engine) Reference.feb1 1 2 3 4 row.
Proof.
  destruct (proj1 (@Rev4_scan_first_eligible Reference.engine Reference.feb1 1 2 3 4
                     (drop 1 Reference.queue))
              {| Rev4.r := 0; Rev4.rowNumber := 2; Rev4.postText := "second";
                 Rev4.scheduled := 1769889900000 |})
    as (row & Hrow & _ & _ & _ & Hok & _); [vm_compute; reflexivity|].
  by exists row.
Defined.

(** ** A run that posts *)

Section Posted.
Context `{Engine} `{Outside}.

Lemma bind_assoc {A B C} (m : Run A) (f : A → Run B) (g : B → Run C) w :
  bind (bind m f) g w = bind m (λ x, bind (f x) g) w.
Proof. unfold bind. by destruct (m w) as [[a|e] w']. Qed.

Lemma post_then {A} text (k : Response → Run A) w :
  (∀ resp, sends 0 (k resp)) →
  ∃ tr, trace ((resp ⇐ sendPost text ;; k resp) w).2 = trace w ++ tr ∧ posts tr = [text].
Proof.
  intros Hk. unfold bind, sendPost.
  destruct (Hk (postingApi text) (emit (EvPost text) w)) as (tr & Htr & Hnone).
  exists (EvPost text :: tr). rewrite Htr. simpl. rewrite <- app_assoc. split; [done|].
  destruct (posts tr); [done|simpl in Hnone; lia].
Qed.

Lemma posts_after_get rg tr : posts (EvGet rg :: tr) = posts tr.
Proof. done. Qed.

Local Hint Resolve Rev1_updateRow_sends Rev4_updateRow_sends Rev4_lift_sends
  Rev3_updateRow_sends Rev5_updateRowByHeader_sends : run.

(** *** Revision 5 *)

Lemma Rev5_dispatch_posts tab headers chosen w :
  ∃ tr, trace (Rev5.dispatch tab headers chosen w).2 = trace w ++ tr ∧
        posts tr = [Rev5.textOf chosen].
Proof.
  unfold Rev5.dispatch, Rev5.postToX. rewrite bind_assoc.
  apply post_then. intros resp. sends_walk.
Qed.

Lemma Rev5_dispatch_posted tab headers chosen w id :
  ok (postingApi (Rev5.textOf chosen)) = true →
  dataId (default emptyJson (json (postingApi (Rev5.textOf chosen)))) = Some id →
  Rev5.dispatch tab headers chosen w =
  Rev5.updateRowByHeader tab headers (Rev5.rowIndex chosen)
    [ ("Status", "Posted"); ("Tweet ID", id);
      ("Posted At (UTC)", dateToISOString (clock (clockReads w))) ]
    (tick (emit (EvPost (Rev5.textOf chosen)) w)).
Proof.
  intros Hok Hid. unfold Rev5.dispatch, Rev5.postToX, bind, sendPost, readClock.
  by rewrite Hok, Hid.
Qed.

Lemma objectsOf_headers_width (s : Sheet) : length (objectsOf s).1 ≤ 26.
Proof.
  unfold objectsOf. case_decide; simpl; [lia|]. rewrite length_fmap.
  pose proof (readAZ_width s) as Hwidth.
  destruct (readAZ s) as [|row rows]; simpl; [lia|].
  by apply Forall_cons_1 in Hwidth as [? _].
Qed.

Lemma objectsOf_rowIndex (s : Sheet) row :
  row ∈ (objectsOf s).2 →
  ∃ k cells, drop 1 (readAZ s) !! k = Some cells ∧ Rev5.rowIndex row = S (S k) ∧
             Rev5.fields row =
               JS.objLiteral (imap (λ c h, (h, JS.orEmpty (cells !! c))) (objectsOf s).1).
Proof.
  unfold objectsOf. case_decide; simpl; [by intros ?%elem_of_nil|].
  intros (k & cells & -> & Hk)%elem_of_lookup_imap. exists k, cells. simpl.
  split; [done|]. split; [lia|done].
Qed.

Lemma Rev5_main_recorded tab (w : World) first id :
  head (Rev5.candidates (objectsOf (sheet w)).2 (clock (clockReads w))) = Some first →
  ok (postingApi (Rev5.textOf first.1)) = true →
  dataId (default emptyJson (json (postingApi (Rev5.textOf first.1)))) = Some id →
  (Rev5.main tab w).1 = Ok () ∧
  ∀ r c, cell (sheet (Rev5.main tab w).2) r c =
         cellAfter (exactCol (objectsOf (sheet w)).1)
           [ ("Status", "Posted"); ("Tweet ID", id);
             ("Posted At (UTC)", dateToISOString (clock (S (clockReads w)))) ]
           (Rev5.rowIndex first.1 - 1) (sheet w) r c.
Proof.
  intros Hhead Hok Hid.
  assert (first ∈ Rev5.candidates (objectsOf (sheet w)).2 (clock (clockReads w))) as Hin.
  { destruct (Rev5.candidates _ _) as [|x l]; [done|]. injection Hhead as ->. left. }
  apply Rev5_candidates_elem_of, dueRows5_due in Hin as (Hrow & _).
  apply objectsOf_rowIndex in Hrow as (k & cells & _ & Hindex & _).
  pose proof (objectsOf_headers_width (sheet w)) as Hwidth.
  rewrite Rev5_main_unfold. cbn zeta.
  destruct (objectsOf (sheet w)) as [headers rows]. simpl in *.
  destruct rows as [|row rows]; [done|].
  destruct (Rev5.candidates _ _) as [|x l]; [done|]. injection Hhead as ->.
  rewrite (Rev5_dispatch_posted _ _ _ _ id) by done.
  rewrite Hindex. simpl.
  destruct (Rev5_updateRowByHeader_cells tab headers (S k)
              [ ("Status", "Posted"); ("Tweet ID", id);
                ("Posted At (UTC)", dateToISOString (clock (S (clockReads w)))) ]
              (tick (emit (EvPost (Rev5.textOf first.1))
                 (tick (emit (EvGet {| rangeTab := Rev5.quoteSheetName tab;
                                       rangeFrom := "A"; rangeTo := "Z" |}) w)))) Hwidth)
    as [Hresult Hcells].
  split; [done|]. intros r c. by rewrite Hcells.
Qed.

End Posted.



Section Posted14.
Context `{Engine} `{Outside}.

Local Hint Resolve Rev1_updateRow_sends Rev4_updateRow_sends Rev4_lift_sends : run.

Lemma Rev1_dispatch_posts tab headers cols item w :
  JS.truthy (Rev1.textOf cols item) = true →
  ∃ tr, trace (Rev1.dispatch tab headers cols item w).2 = trace w ++ tr ∧
        posts tr = [Rev1.textOf cols item].
Proof.
  intros Htext. unfold Rev1.dispatch, Rev1.tweet. rewrite Htext, bind_assoc.
  apply post_then. intros resp. sends_walk.
Qed.

Lemma tableOf_headers_width (s : Sheet) : length (tableOf s).1 ≤ 26.
Proof.
  unfold tableOf. case_decide; simpl; [lia|]. rewrite length_fmap.
  pose proof (readAZ_width s) as Hwidth.
  destruct (readAZ s) as [|row rows]; simpl; [lia|].
  by apply Forall_cons_1 in Hwidth as [? _].
Qed.

Lemma Rev1_main_table tab w cols :
  Rev1.columns (tableOf (take 10000 (sheet w))).1 = Some cols →
  Rev1.main tab w =
  let w1 := emit (EvGet {| rangeTab := tab; rangeFrom := "A1"; rangeTo := "Z10000" |}) w in
  match Rev1.candidates cols (tableOf (take 10000 (sheet w))).2 (clock (clockReads w)) with
  | [] => (Ok (), tick w1)
  | item :: _ => Rev1.dispatch tab (tableOf (take 10000 (sheet w))).1 cols item (tick w1)
  end.
Proof.
  rewrite Rev1_main_unfold. unfold tableOf. cbn zeta.
  case_decide; simpl; [done|]. by intros ->.
Qed.

Lemma Rev4_dispatch_posts tab headers picked w :
  ∃ tr, trace (Rev4.dispatch tab headers picked w).2 = trace w ++ tr ∧
        posts tr = [Rev4.postText picked].
Proof.
  unfold Rev4.dispatch, Rev4.postToX. cbv zeta. rewrite bind_assoc.
  apply post_then. intros resp. sends_walk.
Qed.

Lemma findIndex_folded headers name :
  JS.toLowerCase name = name →
  JS.findIndex (λ h, JS.toLowerCase h = name) headers = foldedCol headers name.
Proof.
  intros Hname. unfold foldedCol, JS.findIndex. f_equal.
  apply list_find_ext. intros h. unfold JS.sameName. by rewrite Hname.
Qed.

Lemma Rev4_main_recorded tab (w : World)
    headers rows iPublishDate iTimeUtc iPostText iStatus picked id :
  tableOf (sheet w) = (headers, rows) →
  headers ≠ [] →
  Rev4.headerIndex headers "Publish Date" = Ok iPublishDate →
  Rev4.headerIndex headers "Time (UTC)" = Ok iTimeUtc →
  Rev4.headerIndex headers "Post Text" = Ok iPostText →
  Rev4.headerIndex headers "Status" = Ok iStatus →
  Rev4.scan (clock (clockReads w)) iPublishDate iTimeUtc iPostText iStatus rows 0
    = Ok (Some picked) →
  ok (postingApi (Rev4.postText picked)) = true →
  dataId (default emptyJson (json (postingApi (Rev4.postText picked)))) = Some id →
  (Rev4.main tab w).1 = Ok () ∧
  ∀ r c, cell (sheet (Rev4.main tab w).2) r c =
         cellAfter (foldedCol headers)
           ([("Status", "Posted")] ++
            match foldedCol headers "tweet_id" with
            | Some _ => [("tweet_id", id)]
            | None => []
            end ++
            match foldedCol headers "posted_at" with
            | Some _ => [("posted_at", dateToISOString (clock (S (clockReads w))))]
            | None => []
            end)
           (Rev4.rowNumber picked - 1) (sheet w) r c.
Proof.
  intros Htable Hheaders H1 H2 H3 H4 Hscan Hok Hid.
  pose proof (tableOf_headers_width (sheet w)) as Hwidth.
  destruct (Rev4_scan_picked _ _ _ _ _ _ _ _ Hscan)
    as (j & row & Hr & Hj & Hn & _). simpl in Hr, Hn. subst j.
  rewrite Rev4_main_unfold. cbn zeta. rewrite Htable in *. simpl in Hwidth.
  destruct headers as [|h headers]; [done|].
  rewrite H1, H2, H3, H4, Hscan.
  set (w1 := emit _ (tick w)).
  assert (foldedCol (h :: headers) "Status" = Some iStatus) as Hstatus.
  { unfold Rev4.headerIndex in H4. unfold foldedCol.
    by destruct (JS.findIndex _ _); [injection H4 as ->|]. }
  unfold Rev4.dispatch, Rev4.postToX, bind, sendPost. cbv zeta. rewrite Hok, Hid.
  rewrite !findIndex_folded by done. rewrite Hn.
  replace (Rev4.r picked + 2 - 1) with (S (Rev4.r picked)) by lia.
  replace (Rev4.r picked + 2) with (S (S (Rev4.r picked))) by lia.
  assert (is_Some ((tableOf (sheet w)).2 !! Rev4.r picked)) as Hrow
    by (by rewrite Htable; exists row).
  assert (length (h :: headers) ≥ 1) as Hone by (simpl; lia).
  destruct (foldedCol (h :: headers) "posted_at") as [iPostedAt|] eqn:Hposted,
           (foldedCol (h :: headers) "tweet_id") as [iTweetId|] eqn:Htweet;
    unfold readClock, ret; cbn [fst snd clockReads emit tick w1];
    (match goal with |- context [Rev4.updateRow ?t ?n ?hs ?us ?w0] =>
       destruct (Rev4_updateRow_cells t (Rev4.r picked) hs us w0) as [Hresult Hcells];
       [lia|done| |split; [exact Hresult|intros r c; by rewrite Hcells]]
     end);
    intros kv Hkv; repeat (apply elem_of_cons in Hkv as [->|Hkv]; [by eexists|]);
    by apply elem_of_nil in Hkv.
Qed.

End Posted14.

(** X8.  When revision 1 has a candidate with text, it sends exactly
    one post, the trimmed text of the first candidate.  When the reply
    is a success, the run ends normally and has written
    [Status = Posted], the time under [Posted At] and the post id (or
    nothing) under [Tweet ID] to that row, in the columns whose header
    is that name up to case; every other cell is as it was. *)
Theorem Rev1_posts_and_records `{Engine} `{Outside} tab (w : World) cols item :
  Rev1.columns (tableOf (take 10000 (sheet w))).1 = Some cols →
  head (Rev1.candidates cols (tableOf (take 10000 (sheet w))).2 (clock (clockReads w)))
    = Some item →
  JS.truthy (Rev1.textOf cols item) = true →
  (∃ tr, trace (Rev1.main tab w).2 = trace w ++ tr ∧ posts tr = [Rev1.textOf cols item]) ∧
  (ok (postingApi (Rev1.textOf cols item)) = true →
   (Rev1.main tab w).1 = Ok () ∧
   ∀ r c, cell (sheet (Rev1.main tab w).2) r c =
          cellAfter (foldedCol (tableOf (take 10000 (sheet w))).1)
            [ ("Status", "Posted");
              ("Posted At", dateToISOString (clock (S (clockReads w))));
              ("Tweet ID",
               JS.orEmpty (dataId (default emptyJson
                                     (json (postingApi (Rev1.textOf cols item)))))) ]
            (Rev1.sheetRow item - 1) (sheet w) r c).
Proof.
  intros Hcols Hhead Htext.
  assert (item ∈ Rev1.candidates cols (tableOf (take 10000 (sheet w))).2
                   (clock (clockReads w))) as Hin.
  { destruct (Rev1.candidates _ _ _) as [|x l]; [done|]. injection Hhead as ->. left. }
  apply Rev1_candidates_elem_of, dueRows1_pending in Hin as (_ & Hrow & _).
  pose proof (tableOf_headers_width (take 10000 (sheet w))) as Hwidth.
  rewrite (Rev1_main_table _ _ _ Hcols). cbn zeta.
  destruct (Rev1.candidates _ _ _) as [|x l]; [done|]. injection Hhead as ->.
  set (w1 := tick (emit _ w)). split.
  - destruct (Rev1_dispatch_posts tab (tableOf (take 10000 (sheet w))).1 cols item w1 Htext)
      as (tr & Htr & Hposts).
    eexists (_ :: tr). rewrite Htr. simpl. rewrite <- app_assoc. by split.
  - intros Hok. rewrite Rev1_dispatch_posted by done.
    rewrite Hrow. replace (Rev1.i item + 2) with (S (S (Rev1.i item))) by lia. split.
    + rewrite Rev1_updateRow_run. cbn zeta. by rewrite decide_True.
    + intros r c. by rewrite Rev1_updateRow_cells.
Qed.

Lemma Rev1_posts_and_records_witness :
  (@Rev1.main Reference.engine Reference.accepting "Posts" (start Reference.queue)).1 = Ok () ∧
  cell (sheet (@Rev1.main Reference.engine Reference.accepting "Posts"
                 (start Reference.queue)).2) 2 6 = "1900000000000000001".
Proof.
  edestruct (@Rev1_posts_and_records Reference.engine Reference.accepting "Posts"
               (start Reference.queue)) as [_ Hrecorded];
    [vm_compute; reflexivity..|].
  edestruct Hrecorded as [Hresult Hcells]; [vm_compute; reflexivity|].
  split; [exact Hresult|]. rewrite Hcells. vm_compute. reflexivity.
Defined.

(** X9.  When the loop of revision 4 has picked a row, the run sends
    exactly one post, the text of that row.  When the reply is a success
    that names the post, the run ends normally: every field it writes
    has a column, so [updateRow] does not raise its missing-column
    error.  It has written [Status = Posted], and the post id and the
    time where the sheet has a [tweet_id] and a [posted_at] column;
    every other cell is as it was. *)
Theorem Rev4_posts_and_records `{Engine} `{Outside} tab (w : World)
    headers rows iPublishDate iTimeUtc iPostText iStatus picked :
  tableOf (sheet w) = (headers, rows) →
  headers ≠ [] →
  Rev4.headerIndex headers "Publish Date" = Ok iPublishDate →
  Rev4.headerIndex headers "Time (UTC)" = Ok iTimeUtc →
  Rev4.headerIndex headers "Post Text" = Ok iPostText →
  Rev4.headerIndex headers "Status" = Ok iStatus →
  Rev4.scan (clock (clockReads w)) iPublishDate iTimeUtc iPostText iStatus rows 0
    = Ok (Some picked) →
  (∃ tr, trace (Rev4.main tab w).2 = trace w ++ tr ∧ posts tr = [Rev4.postText picked]) ∧
  (∀ id,
     ok (postingApi (Rev4.postText picked)) = true →
     dataId (default emptyJson (json (postingApi (Rev4.postText picked)))) = Some id →
     (Rev4.main tab w).1 = Ok () ∧
     ∀ r c, cell (sheet (Rev4.main tab w).2) r c =
            cellAfter (foldedCol headers)
              ([("Status", "Posted")] ++
               match foldedCol headers "tweet_id" with
               | Some _ => [("tweet_id", id)]
               | None => []
               end ++
               match foldedCol headers "posted_at" with
               | Some _ => [("posted_at", dateToISOString (clock (S (clockReads w))))]
               | None => []
               end)
              (Rev4.rowNumber picked - 1) (sheet w) r c).
Proof.
  intros Htable Hheaders H1 H2 H3 H4 Hscan.
  split; [|intros id Hok Hid; by eapply Rev4_main_recorded].
  rewrite Rev4_main_unfold. cbn zeta. rewrite Htable.
  destruct headers as [|h headers]; [done|].
  rewrite H1, H2, H3, H4, Hscan.
  destruct (Rev4_dispatch_posts tab (h :: headers) picked
              (emit (EvGet {| rangeTab := tab; rangeFrom := "A"; rangeTo := "Z" |}) (tick w)))
    as (tr & Htr & Hposts).
  eexists (_ :: tr). rewrite Htr. simpl. rewrite <- app_assoc. by split.
Qed.

Lemma Rev4_posts_and_records_witness :
  (@Rev4.main Reference.engine Reference.accepting "Posts" (start Reference.logged)).1 = Ok () ∧
  (sheet (@Rev4.main Reference.engine Reference.accepting "Posts"
            (start Reference.logged)).2) !! 1 =
    Some ["2026-01-31"; "10:00"; "hello"; "Posted"; "1900000000000000001";
          "2026-02-01T00:00:00.001Z"].
Proof.
  edestruct (@Rev4_posts_and_records Reference.engine Reference.accepting "Posts"
               (start Reference.logged)) as [_ Hrecorded];
    [vm_compute; reflexivity|done|vm_compute; reflexivity..|].
  edestruct Hrecorded as [Hresult _]; [vm_compute; reflexivity..|].
  split; [exact Hresult|]. vm_compute. reflexivity.
Defined.

(** ** The dry run of revision 3 *)

Section Dry.
Context `{Engine} `{Outside}.

Lemma Rev3_dispatch_dry_quiet tab header next : quiet (Rev3.dispatch true tab header next).
Proof.
  unfold Rev3.dispatch. cbv zeta. destruct (negb _); [apply quiet_ret|].
  apply quiet_bind; [apply quiet_ret|]. intros _.
  destruct (Rev3.headerKey header "status"); [|apply quiet_ret].
  apply quiet_bind; [|intros; apply quiet_ret].
  destruct (Rev3.findHeaderIndex header "Posted At (UTC)"); [|apply quiet_ret].
  apply quiet_bind; [apply quiet_readClock|]. intros t. apply quiet_ret.
Qed.

End Dry.

(** X10.  When the variable [DRY_RUN] reads 1, true or yes in any
    letter case, revision 3 only reads: whatever the sheet and the
    clock, the run ends normally, its one request is the read of the
    tab, nothing is posted and the sheet is as it was. *)
Theorem dry_run_only_reads `{Engine} `{Outside} (env : string → option string) tab (w : World) :
  JS.toLowerCase (Rev3.optEnv env "DRY_RUN" "") ∈ ["1"; "true"; "yes"] →
  (Rev3.main (Rev3.dryRun env) tab w).1 = Ok () ∧
  sheet (Rev3.main (Rev3.dryRun env) tab w).2 = sheet w ∧
  trace (Rev3.main (Rev3.dryRun env) tab w).2 =
    trace w ++ [EvGet {| rangeTab := Rev3.safeSheetTab tab; rangeFrom := "A"; rangeTo := "Z" |}].
Proof.
  intros Hdry. unfold Rev3.dryRun. rewrite bool_decide_eq_true_2 by done.
  rewrite Rev3_main_unfold. cbn zeta.
  destruct (Rev3.parseSheet (readAZ (sheet w))) as [header items].
  destruct header as [|h header]; [done|].
  set (w1 := emit _ w).
  destruct (Rev3_due_run (h :: header) items w1) as (dueRows & Hrun & Hs & Ht & _).
  destruct (Rev3.due (h :: header) items w1) as [[d|e] w2]; simpl in *; [|done].
  injection Hrun as ->. destruct dueRows as [|first rest]; [by rewrite <- Hs, <- Ht|].
  destruct (Rev3_dispatch_dry_quiet tab (h :: header) first.1 w2) as (u & Hu & Hs' & Ht').
  destruct u. by rewrite Hu, Hs', Ht', Hs, Ht.
Qed.

Lemma dry_run_only_reads_witness :
  sheet (@Rev3.main Reference.engine Reference.accepting
           (Rev3.dryRun (λ _, Some "TRUE")) "Posts" (start Reference.ties)).2 = Reference.ties.
Proof.
  apply (@dry_run_only_reads Reference.engine Reference.accepting (λ _, Some "TRUE") "Posts"
           (start Reference.ties)).
  apply (bool_decide_unpack _). vm_compute. reflexivity.
Defined.

(** ** Rows as objects *)

Lemma lastValue_imap {A} (g : A → string) (f : nat → A) h (headers : list string) :
  lastValue h (imap (λ k x, (x, g (f k))) headers) = (λ c, g (f c)) <$> lastIndexOf h headers.
Proof.
  revert f. induction headers as [|x headers IH]; intros f; [done|].
  rewrite imap_cons. cbn [lastValue lastIndexOf].
  change (imap (_ ∘ S) headers) with (imap (λ k x, (x, g (f (S k)))) headers).
  rewrite (IH (λ k, f (S k))). destruct (lastIndexOf h headers) as [c|]; simpl; [done|].
  by case_decide.
Qed.

Lemma objGet_header_literal (cells : list string) h (headers : list string) :
  JS.objGet h (JS.objLiteral (imap (λ k x, (x, JS.orEmpty (cells !! k))) headers))
  = (λ c, JS.orEmpty (cells !! c)) <$> lastIndexOf h headers.
Proof.
  unfold JS.objLiteral. rewrite objGet_objAssign. simpl.
  rewrite (lastValue_imap JS.orEmpty (λ k, cells !! k)).
  by destruct (lastIndexOf h headers).
Qed.

Lemma lastIndexOf_lt h (headers : list string) c :
  lastIndexOf h headers = Some c → c < length headers ∧ headers !! c = Some h.
Proof.
  revert c. induction headers as [|x headers IH]; intros c; [done|]. simpl.
  destruct (lastIndexOf h headers) as [c'|].
  - intros [= <-]. destruct (IH c' eq_refl). split; [lia|done].
  - case_decide; [|done]. intros [= <-]. subst. split; [lia|done].
Qed.

Lemma lastIndexOf_None h (headers : list string) :
  lastIndexOf h headers = None ↔ h ∉ headers.
Proof.
  induction headers as [|x headers IH]; simpl; [split; [by intros _ ?%elem_of_nil|done]|].
  rewrite not_elem_of_cons. destruct (lastIndexOf h headers) as [c|].
  - split; [done|]. intros [_ Hin]. by apply IH in Hin.
  - case_decide; [split; [done|by intros [? _]]|]. split; [|done]. intros _.
    split; [done|]. by apply IH.
Qed.

Lemma lastIndexOf_NoDup h (headers : list string) c :
  NoDup headers → headers !! c = Some h → lastIndexOf h headers = Some c.
Proof.
  intros Hnodup. revert c. induction Hnodup as [|x headers Hx Hnodup IH]; intros c; [done|].
  destruct c as [|c]; simpl.
  - intros [= ->]. apply lastIndexOf_None in Hx. rewrite Hx. by rewrite decide_True.
  - intros Hc. by rewrite (IH c Hc).
Qed.

Lemma lastIndexOf_elem_of h (headers : list string) :
  h ∈ headers → is_Some (lastIndexOf h headers).
Proof.
  intros Hin. destruct (lastIndexOf h headers) eqn:Hlast; [done|].
  by apply lastIndexOf_None in Hlast.
Qed.

Lemma header_object_cells (s : Sheet) k cells (headers : list string) h :
  readAZ s !! S k = Some cells → length headers ≤ 26 →
  JS.objGet h (JS.objLiteral (imap (λ c x, (x, JS.orEmpty (cells !! c))) headers))
  = cell s (S k) <$> lastIndexOf h headers.
Proof.
  intros Hcells Hwidth. rewrite objGet_header_literal.
  destruct (lastIndexOf h headers) as [c|] eqn:Hc; [|done]. simpl.
  apply lastIndexOf_lt in Hc as [Hc _].
  unfold JS.orEmpty. rewrite (readAZ_lookup _ _ _ Hcells). by rewrite decide_True by lia.
Qed.



(** ** [updateRow] of revision 3 *)

Lemma sourceCol_NoDup (header : list string) c : NoDup header → sourceCol header c = c.
Proof.
  intros Hnodup. unfold sourceCol. destruct (header !! c) as [h|] eqn:Hc; [|done].
  simpl. by rewrite (lastIndexOf_NoDup _ _ _ Hnodup Hc).
Qed.

Lemma Rev3_updateRow_run tab (header : list string) it updates w k :
  Rev3.rowIndex1 it = k + 2 → length header ≤ 26 →
  Rev3.updateRow tab header it updates w =
  let cells :=
    Some <$> fold_left
      (λ cells (kv : string * string),
         match foldedCol header kv.1 with
         | Some idx => <[idx := kv.2]> cells
         | None => cells
         end)
      updates ((λ h, JS.orEmpty (Rev3.itemGet h it)) <$> header) in
  (Ok (), withSheet (writeRow (S k) 0 cells (sheet w))
            (emit (EvUpdate (Rev3.rowRange tab (Rev3.rowIndex1 it)) cells) w)).
Proof.
  intros Hrow Hwidth. unfold Rev3.updateRow, sheetsUpdate. cbv zeta.
  change (Rev3.findHeaderIndex header) with (foldedCol header).
  unfold Rev3.rowRange at 1. rewrite Hrow.
  replace (k + 2) with (S (S k)) by lia.
  change ("Z" +:+ JS.toString10 (N.of_nat (S (S k))))
    with (String "Z" "" +:+ JS.toString10 (N.of_nat (S (S k)))).
  rewrite (valuesUpdate_row _ _ _ _ _ _ letterIndex_Z).
  rewrite length_fmap, fold_insert_length, length_fmap.
  by rewrite decide_True by lia.
Qed.

Lemma parseSheet_item (s : Sheet) header items k it :
  Rev3.parseSheet (readAZ s) = (header, items) → items !! k = Some it →
  ∃ cells, readAZ s !! S k = Some cells ∧ length header ≤ 26 ∧
           Rev3.rowIndex1 it = k + 2 ∧
           Rev3.fields it = JS.objLiteral (imap (λ c x, (x, JS.orEmpty (cells !! c))) header).
Proof.
  pose proof (objectsOf_headers_width s) as Hwidth. revert Hwidth.
  unfold objectsOf, Rev3.parseSheet. case_decide; simpl; [by intros _ [= <- <-]|].
  intros Hwidth [= <- <-]. rewrite list_lookup_imap.
  destruct (drop 1 (readAZ s) !! k) as [cells|] eqn:Hcells; [|done].
  simpl. intros [= <-]. rewrite lookup_drop in Hcells. by exists cells.
Qed.

Lemma Rev3_existing_cell (s : Sheet) header items k it c h :
  Rev3.parseSheet (readAZ s) = (header, items) → items !! k = Some it →
  "__rowIndex1" ∉ header → header !! c = Some h →
  JS.orEmpty (Rev3.itemGet h it) = cell s (S k) (sourceCol header c).
Proof.
  intros Hparse Hit Hkey Hc.
  destruct (parseSheet_item _ _ _ _ _ Hparse Hit) as (cells & Hcells & Hwidth & _ & Hfields).
  assert (h ∈ header) as Hin by (by eapply list_elem_of_lookup_2).
  unfold Rev3.itemGet. rewrite decide_False by (by intros ->).
  rewrite Hfields, (header_object_cells _ _ _ _ _ Hcells Hwidth).
  unfold sourceCol. rewrite Hc. simpl.
  by destruct (lastIndexOf_elem_of _ _ Hin) as [c' ->].
Qed.

Lemma Rev3_updateRow_cells tab (w : World) header items k it updates r c :
  Rev3.parseSheet (readAZ (sheet w)) = (header, items) →
  items !! k = Some it →
  "__rowIndex1" ∉ header →
  cell (sheet (Rev3.updateRow tab header it updates w).2) r c =
  if decide (r = S k ∧ c < length header)
  then default (cell (sheet w) (S k) (sourceCol header c))
               (lastWrite (foldedCol header) updates c)
  else cell (sheet w) r c.
Proof.
  intros Hparse Hit Hkey.
  destruct (parseSheet_item _ _ _ _ _ Hparse Hit) as (cells & Hcells & Hwidth & Hrow & _).
  assert (∀ name idx, foldedCol header name = Some idx →
                      idx < length ((λ h, JS.orEmpty (Rev3.itemGet h it)) <$> header))
    as Hbound.
  { intros name idx Hidx. rewrite length_fmap. by apply findIndex_lt in Hidx. }
  rewrite (Rev3_updateRow_run _ _ _ _ _ k Hrow Hwidth). cbn zeta.
  cbn [snd withSheet sheet]. rewrite cell_writeRow, Nat.sub_0_r.
  destruct (decide (r = S k)) as [->|Hr].
  - rewrite decide_True by (split; [done|lia]).
    rewrite list_lookup_fmap, fold_insert_lookup by done.
    destruct (lastWrite (foldedCol header) updates c) as [v|] eqn:Hlast.
    + apply lastWrite_lt with (n := length header) in Hlast;
        [|intros ? ? ?%findIndex_lt; done].
      by rewrite decide_True.
    + rewrite list_lookup_fmap. destruct (header !! c) as [h|] eqn:Hc; simpl.
      * rewrite decide_True by (split; [done|by eapply lookup_lt_Some]).
        by eapply Rev3_existing_cell.
      * apply lookup_ge_None in Hc. by rewrite decide_False by lia.
  - rewrite decide_False by (by intros [? _]). by rewrite decide_False by (by intros [? _]).
Qed.

Lemma Rev3_updateRow_cells_NoDup tab (w : World) header items k it updates r c :
  Rev3.parseSheet (readAZ (sheet w)) = (header, items) →
  items !! k = Some it →
  "__rowIndex1" ∉ header →
  NoDup header →
  cell (sheet (Rev3.updateRow tab header it updates w).2) r c =
  cellAfter (foldedCol header) updates (S k) (sheet w) r c.
Proof.
  intros Hparse Hit Hkey Hnodup. rewrite (Rev3_updateRow_cells _ _ _ _ _ _ _ _ _ Hparse Hit Hkey).
  unfold cellAfter. destruct (decide (r = S k)) as [->|Hr].
  - rewrite sourceCol_NoDup by done.
    destruct (lastWrite (foldedCol header) updates c) as [v|] eqn:Hlast.
    + apply lastWrite_lt with (n := length header) in Hlast;
        [|intros ? ? ?%findIndex_lt; done].
      by rewrite decide_True.
    + by case_decide.
  - by rewrite decide_False by (by intros [? _]).
Qed.

(** X12.  [updateRow] of revision 3, given a row object read from the
    sheet as it is (no column being named [__rowIndex1] or
    [__proto__]), succeeds and
    rewrites the row under the header: a column named by a field
    receives the field's value (names match up to case, a later field
    wins), any other column receives the value of the last column that
    has the same header name, and all other rows are as they were.
    When no two columns share a name, that is: the named fields are
    written and every other cell is as it was. *)
Theorem Rev3_updateRow_writes_back tab (w : World) header items k it updates :
  Rev3.parseSheet (readAZ (sheet w)) = (header, items) →
  items !! k = Some it →
  "__rowIndex1" ∉ header →
  "__proto__" ∉ header →
  (Rev3.updateRow tab header it updates w).1 = Ok () ∧
  (∀ r c, cell (sheet (Rev3.updateRow tab header it updates w).2) r c =
          if decide (r = S k ∧ c < length header)
          then default (cell (sheet w) (S k) (sourceCol header c))
                       (lastWrite (foldedCol header) updates c)
          else cell (sheet w) r c) ∧
  (NoDup header →
   ∀ r c, cell (sheet (Rev3.updateRow tab header it updates w).2) r c =
          cellAfter (foldedCol header) updates (S k) (sheet w) r c).
Proof.
  intros Hparse Hit Hkey _.
  destruct (parseSheet_item _ _ _ _ _ Hparse Hit) as (cells & Hcells & Hwidth & Hrow & _).
  split; [|split].
  - by rewrite (Rev3_updateRow_run _ _ _ _ _ k Hrow Hwidth).
  - intros r c. by eapply Rev3_updateRow_cells.
  - intros Hnodup r c. by eapply Rev3_updateRow_cells_NoDup.
Qed.

Lemma Rev3_updateRow_writes_back_witness :
  cell (sheet (Rev3.updateRow "Posts" (default [] (head Reference.blank))
                 {| Rev3.fields :=
                      JS.objLiteral
                        (imap (λ c x, (x, JS.orEmpty (["1"; "2026-01-31"; "10:00"; ""; "Pending"] !! c)))
                           (default [] (head Reference.blank)));
                    Rev3.rowIndex1 := 2 |}
                 [("status", "Posted")] (start Reference.blank)).2) 1 4 = "Posted".
Proof.
  rewrite (proj1 (proj2 (Rev3_updateRow_writes_back "Posts" (start Reference.blank)
                           _ _ 0 _ [("status", "Posted")] eq_refl eq_refl
                           ltac:(vm_compute; set_solver) ltac:(vm_compute; set_solver)))).
  vm_compute. reflexivity.
Defined.

(** ** A run of revision 3 that posts *)

Section Posted3.
Context `{Engine} `{Outside}.

Local Hint Resolve Rev3_updateRow_sends : run.


Lemma pending3_status_key header it : pending3 header it → is_Some (Rev3.headerKey header "status").
Proof.
  unfold pending3. by destruct (Rev3.headerKey header "status").
Qed.

Lemma Rev3_dispatch_posted tab header next w parsed key :
  JS.truthy (Rev3.postTextOf header next) = true →
  ok (postingApi (Rev3.finalTextOf header next)) = true →
  json (postingApi (Rev3.finalTextOf header next)) = Some parsed →
  Rev3.headerKey header "status" = Some key →
  Rev3.dispatch false tab header next w =
  Rev3.updateRow tab header next
    (("Status", "Posted") ::
     match foldedCol header "Posted At (UTC)" with
     | Some _ => [("Posted At (UTC)", dateToISOString (clock (clockReads w)))]
     | None => []
     end)
    (match foldedCol header "Posted At (UTC)" with
     | Some _ => tick (emit (EvPost (Rev3.finalTextOf header next)) w)
     | None => emit (EvPost (Rev3.finalTextOf header next)) w
     end).
Proof.
  intros Htext Hok Hjson Hkey. unfold Rev3.dispatch, Rev3.postToX, bind, sendPost. cbv zeta.
  rewrite Htext, Hok, Hjson, Hkey. cbn [negb ret].
  change (Rev3.findHeaderIndex header "Posted At (UTC)")
    with (foldedCol header "Posted At (UTC)").
  by destruct (foldedCol header "Posted At (UTC)").
Qed.

End Posted3.

Lemma Rev3_main_recorded `{Engine} `{Outside} tab (w : World)
    header items dueRows first :
  Rev3.parseSheet (readAZ (sheet w)) = (header, items) →
  header ≠ [] →
  (Rev3.due header items
     (emit (EvGet {| rangeTab := Rev3.safeSheetTab tab; rangeFrom := "A"; rangeTo := "Z" |})
           w)).1 = Ok dueRows →
  head dueRows = Some first →
  ok (postingApi (Rev3.finalTextOf header first.1)) = true →
  is_Some (json (postingApi (Rev3.finalTextOf header first.1))) →
  NoDup header →
  "__rowIndex1" ∉ header →
  (Rev3.main false tab w).1 = Ok () ∧
  ∀ r c, cell (sheet (Rev3.main false tab w).2) r c =
         cellAfter (foldedCol header)
           (("Status", "Posted") ::
            match foldedCol header "Posted At (UTC)" with
            | Some _ =>
                [("Posted At (UTC)",
                  dateToISOString
                    (clock (clockReads
                       (Rev3.due header items
                          (emit (EvGet {| rangeTab := Rev3.safeSheetTab tab;
                                          rangeFrom := "A"; rangeTo := "Z" |}) w)).2)))]
            | None => []
            end)
           (Rev3.rowIndex1 first.1 - 1) (sheet w) r c.
Proof.
  intros Hparse Hheader Hdue Hhead Hok [parsed Hjson] Hnodup Hkey.
  rewrite Rev3_main_unfold. cbn zeta. rewrite Hparse.
  destruct header as [|h header']; [done|].
  set (header := h :: header') in *. set (w1 := emit _ w) in *.
  destruct (Rev3_due_run header items w1) as (dueRows' & Hrun & Hs & Ht & Hin).
  destruct (Rev3.due header items w1) as [[d|e] w2]; simpl in *; [|done].
  injection Hrun as ->. injection Hdue as ->.
  destruct dueRows as [|x l]; [done|]. injection Hhead as ->.
  destruct (Hin first) as (Hitem & Htext & Hpending); [left|].
  apply list_elem_of_lookup_1 in Hitem as [k Hk].
  destruct (parseSheet_item _ _ _ _ _ Hparse Hk) as (cells & _ & Hwidth & Hrow & _).
  destruct (pending3_status_key _ _ Hpending) as [key Hstatus].
  rewrite (Rev3_dispatch_posted _ _ _ _ parsed key) by done.
  rewrite Hrow. replace (k + 2 - 1) with (S k) by lia.
  match goal with |- context [Rev3.updateRow tab header first.1 ?us ?w0] =>
    assert (Rev3.parseSheet (readAZ (sheet w0)) = (header, items)) as Hparse'
      by (by destruct (foldedCol header "Posted At (UTC)"); simpl; rewrite Hs);
    assert (sheet w0 = sheet w) as Hsame
      by (by destruct (foldedCol header "Posted At (UTC)"); simpl; rewrite Hs);
    split;
    [ by rewrite (Rev3_updateRow_run _ _ _ _ _ k Hrow Hwidth)
    | intros r c;
      by rewrite (Rev3_updateRow_cells_NoDup _ _ _ _ _ _ _ r c Hparse' Hk Hkey Hnodup), Hsame ]
  end.
Qed.



(** ** The order of revision 3 *)

Section Order3.
Context `{Engine} `{Outside}.

Lemma Rev3_filterRun_sorted {A} (R : relation A) (p : A → Run bool) (xs : list A) w kept :
  (∀ x, quiet (p x)) → StronglySorted R xs →
  (Rev3.filterRun p xs w).1 = Ok kept → StronglySorted R kept.
Proof.
  intros Hp Hsorted. revert w kept. induction Hsorted as [|x xs Hxs IH Hall]; intros w kept.
  { intros [= <-]. constructor. }
  simpl. unfold bind. destruct (Hp x w) as (b & Hb & _).
  destruct (p x w) as [[b'|e] w1]; simpl in *; [|done]. injection Hb as ->.
  destruct (Rev3_filterRun_run p xs w1 Hp) as (rest & Hrest & _ & _ & Hin).
  specialize (IH w1 rest Hrest).
  destruct (Rev3.filterRun p xs w1) as [[rest'|e] w2]; simpl in *; [|done].
  injection Hrest as ->. intros [= <-]. destruct b; [|done].
  constructor; [done|]. rewrite Forall_forall in Hall. apply Forall_forall.
  intros y Hy. apply Hall. by destruct (Hin y Hy).
Qed.

Lemma parseSheet_sheet_order (rows : list (list string)) :
  StronglySorted (λ a b, Rev3.rowIndex1 a < Rev3.rowIndex1 b) (Rev3.parseSheet rows).2.
Proof.
  unfold Rev3.parseSheet. case_decide; simpl; [constructor|].
  generalize (drop 1 rows). intros data.
  set (header := JS.trim <$> default [] (head rows)).
  pose proof (imap_indices_sorted data 0) as Hsorted.
  eapply (StronglySorted_fmap
            (λ x : nat * list string,
               {| Rev3.fields := JS.objLiteral (imap (λ c h, (h, JS.orEmpty (x.2 !! c))) header);
                  Rev3.rowIndex1 := x.1 + 2 |})) in Hsorted.
  - by rewrite fmap_imap in Hsorted.
  - intros x y ?. simpl. lia.
Qed.

Lemma Rev3_due_sorted header items w dueRows :
  StronglySorted (λ a b, Rev3.rowIndex1 a < Rev3.rowIndex1 b) items →
  (Rev3.due header items w).1 = Ok dueRows →
  StronglySorted before3 dueRows.
Proof.
  intros Hitems. unfold Rev3.due, bind.
  match goal with |- context [Rev3.filterRun ?p ?xs w] =>
    assert (∀ x, quiet (p x)) as Hquiet;
    [|pose proof (Rev3_filterRun_sorted (λ a b, Rev3.rowIndex1 a.1 < Rev3.rowIndex1 b.1)
                    p xs w) as Hsorted;
      destruct (Rev3_filterRun_run p xs w Hquiet) as (kept & Hkept & _ & _ & Hin);
      destruct (Rev3.filterRun p xs w) as [[kept'|e] w1]; simpl in *; [|done]]
  end.
  { intros [it [iso|]]; simpl; [|apply quiet_ret].
    destruct (JS.truthy iso); [apply Rev3_isDue_quiet|apply quiet_ret]. }
  injection Hkept as ->. intros [= <-]. unfold JS.sort.
  apply (sortWith_sorted _ (λ x, Rev3.rowIndex1 x.1) before3
           (λ x, is_Some (x.2 ≫= dateParse))).
  - intros x y [tx Hx] [ty Hy]. unfold JS.sortCompare, Rev3.comparefn, before3.
    rewrite Hx, Hy. simpl. intros ?%Z.leb_le ?. lia.
  - intros x y [tx Hx] [ty Hy]. unfold JS.sortCompare, Rev3.comparefn, before3.
    rewrite Hx, Hy. simpl. intros ?%Z.leb_gt. lia.
  - intros x y z [tx Hx] [ty Hy] [tz Hz]. unfold before3. rewrite Hx, Hy, Hz. lia.
  - apply Forall_forall. intros x Hx. destruct (Hin x Hx) as [Hitem [w' Hw']].
    apply list_elem_of_fmap in Hitem as (it & -> & _). simpl in *.
    destruct (Rev3.isoOf header it) as [iso|] eqn:Hiso; [|done].
    destruct (JS.truthy iso); [|done].
    apply Rev3_isDue_parsed in Hw' as (iso' & Hiso' & Hparsed).
    rewrite Hiso in Hiso'. by injection Hiso' as <-.
  - apply Hsorted; [done| |done].
    eapply StronglySorted_fmap; [|exact Hitems]. by intros x y.
Qed.

End Order3.

(** X14.  Revision 3 orders its due rows by instant, rows of one
    instant in sheet order, and hands the first to its dispatcher: a row
    that stands before every other due row.  Finding the due rows never
    fails. *)
Theorem Rev3_due_order `{Engine} `{Outside} (rows : list (list string)) (w : World) :
  ∃ dueRows,
    (Rev3.due (Rev3.parseSheet rows).1 (Rev3.parseSheet rows).2 w).1 = Ok dueRows ∧
    StronglySorted before3 dueRows ∧
    ∀ first x, head dueRows = Some first → x ∈ dueRows → x = first ∨ before3 first x.
Proof.
  destruct (Rev3_due_run (Rev3.parseSheet rows).1 (Rev3.parseSheet rows).2 w)
    as (dueRows & Hrun & _).
  exists dueRows. split; [done|].
  assert (StronglySorted before3 dueRows) as Hsorted.
  { eapply Rev3_due_sorted; [apply parseSheet_sheet_order|done]. }
  split; [done|]. intros first x Hhead Hin. by eapply head_StronglySorted.
Qed.

(** ** The signer, continued *)

Lemma objKeys_same (p q : JS.object) :
  (∀ k, JS.objGet k p = JS.objGet k q) →
  NoDup (JS.objKeys p) → NoDup (JS.objKeys q) →
  JS.objKeys p ≡ₚ JS.objKeys q.
Proof.
  intros Hsame Hp Hq. apply NoDup_Permutation; [done..|].
  intros k. split; intros [v Hv]%objKeys_objGet.
  - rewrite Hsame in Hv. by eapply objGet_Some_keys.
  - rewrite <- Hsame in Hv. by eapply objGet_Some_keys.
Qed.

Lemma sortStrings_Permutation (ks ks' : list string) :
  ks ≡ₚ ks' → JS.sortStrings ks = JS.sortStrings ks'.
Proof.
  intros Hperm. unfold JS.sortStrings.
  apply (StronglySorted_unique String.le); [apply StronglySorted_merge_sort; apply _..|].
  by rewrite !merge_sort_Permutation.
Qed.

(** X15.  [buildQueryString] does not depend on the order in which the
    parameters were put into the object: two objects that give every key
    the same value yield the same string, and so the same signature
    base string in [oauth1Header]. *)
Theorem buildQueryString_order_free (p q : JS.object) :
  (∀ k, JS.objGet k p = JS.objGet k q) →
  NoDup (JS.objKeys p) → NoDup (JS.objKeys q) →
  buildQueryString p = buildQueryString q.
Proof.
  intros Hsame Hp Hq. unfold buildQueryString.
  rewrite (sortStrings_Permutation _ _ (objKeys_same p q Hsame Hp Hq)).
  f_equal. apply map_ext. intros k. by rewrite Hsame.
Qed.

Lemma buildQueryString_order_free_witness :
  buildQueryString [("b", "2"); ("a", "1")] = buildQueryString [("a", "1"); ("b", "2")].
Proof.
  apply buildQueryString_order_free.
  - intros k. simpl. repeat case_decide; congruence.
  - apply (bool_decide_unpack _). vm_compute. reflexivity.
  - apply (bool_decide_unpack _). vm_compute. reflexivity.
Defined.

Lemma sorted_header_keys :
  JS.sortStrings
    [ "oauth_consumer_key"; "oauth_nonce"; "oauth_signature_method"; "oauth_timestamp";
      "oauth_token"; "oauth_version"; "oauth_signature" ]
  = [ "oauth_consumer_key"; "oauth_nonce"; "oauth_signature"; "oauth_signature_method";
      "oauth_timestamp"; "oauth_token"; "oauth_version" ].
Proof. vm_compute. reflexivity. Qed.

Lemma Rev5_oauth1Header_fields hmacSha1Base64 method url c nonce timestamp :
  Rev5.oauth1Header hmacSha1Base64 method url c nonce timestamp =
  "OAuth " +:+
  JS.join ", "
    [ headerField "oauth_consumer_key" (consumerKey c);
      headerField "oauth_nonce" nonce;
      headerField "oauth_signature"
        (hmacSha1Base64 (signingKey c) (Rev5.baseString method url c nonce timestamp));
      headerField "oauth_signature_method" "HMAC-SHA1";
      headerField "oauth_timestamp" timestamp;
      headerField "oauth_token" (token c);
      headerField "oauth_version" "1.0" ].
Proof.
  unfold Rev5.oauth1Header, authorizationHeader. cbv zeta.
  change (JS.objKeys (JS.objAssign (JS.objLiteral (oauthLiteral c nonce timestamp))
                        [("oauth_signature", _)]))
    with [ "oauth_consumer_key"; "oauth_nonce"; "oauth_signature_method"; "oauth_timestamp";
           "oauth_token"; "oauth_version"; "oauth_signature" ].
  by rewrite sorted_header_keys.
Qed.

(** X16.  For a URL without a query, called without extra parameters,
    as [postToX] calls them, [buildOAuth1Header] (revision 3) and
    [oauth1Header] (revision 5) return the same Authorization header:
    [OAuth ] and the seven OAuth fields in alphabetical order, each
    value percent-encoded between double quotes, the signature being the
    HMAC of the base string under the two percent-encoded secrets. *)
Theorem signers_agree (newURL : string → option URL) (hmacSha1Base64 : string → string → string)
    method url u c nonce timestamp :
  newURL url = Some u →
  origin u +:+ pathname u = url →
  searchParams u = [] →
  Rev3.buildOAuth1Header newURL hmacSha1Base64 method url c nonce timestamp []
    = Some (Rev5.oauth1Header hmacSha1Base64 method url c nonce timestamp) ∧
  Rev5.oauth1Header hmacSha1Base64 method url c nonce timestamp =
    "OAuth " +:+
    JS.join ", "
      [ headerField "oauth_consumer_key" (consumerKey c);
        headerField "oauth_nonce" nonce;
        headerField "oauth_signature"
          (hmacSha1Base64 (percentEncode (consumerSecret c) +:+ "&" +:+
                           percentEncode (tokenSecret c))
             (Rev5.baseString method url c nonce timestamp));
        headerField "oauth_signature_method" "HMAC-SHA1";
        headerField "oauth_timestamp" timestamp;
        headerField "oauth_token" (token c);
        headerField "oauth_version" "1.0" ].
Proof.
  intros Hurl Hbase Hquery. split; [|apply Rev5_oauth1Header_fields].
  unfold Rev3.buildOAuth1Header, Rev3.baseString. rewrite Hurl. cbn [mbind option_bind].
  unfold Rev3.queryParams. rewrite Hbase, Hquery. reflexivity.
Qed.

Lemma signers_agree_witness :
  Rev3.buildOAuth1Header Reference.parseURL (λ key text, "c2lnbmF0dXJl") "POST"
    "https://api.twitter.com/2/tweets" Reference.creds Reference.nonce Reference.timestamp []
  = Some (Rev5.oauth1Header (λ key text, "c2lnbmF0dXJl") "POST"
            "https://api.twitter.com/2/tweets" Reference.creds Reference.nonce
            Reference.timestamp).
Proof.
  eapply signers_agree; vm_compute; reflexivity.
Defined.

(** ** Bounds *)

(** X17.  [updateRow] of revision 4 reads the tab again and refuses a
    row number that is not one of its data rows, row 1 being the header
    and the rows counted as the read returns them: it fails with
    [Row number out of range] and writes nothing. *)
Theorem Rev4_updateRow_out_of_range tab rowNumber headers updates (w : World) :
  rowNumber < 2 ∨ length (tableOf (sheet w)).2 ≤ rowNumber - 2 →
  Rev4.updateRow tab rowNumber headers updates w =
  (Err ("Row number out of range: " +:+ JS.toString10 (N.of_nat rowNumber)),
   emit (EvGet {| rangeTab := tab; rangeFrom := "A"; rangeTo := "Z" |}) w).
Proof.
  intros Hout. unfold Rev4.updateRow, bind. rewrite Rev4_fetchRows_run. cbn zeta.
  cbn [fst snd]. case_decide; [done|].
  destruct Hout as [?|Hlen]; [lia|]. by rewrite (lookup_ge_None_2 _ _ Hlen).
Qed.

Lemma Rev4_updateRow_out_of_range_witness :
  (Rev4.updateRow "Posts" 7 ["Status"] [("Status", "Posted")] (start Reference.logged)).1 =
  Err "Row number out of range: 7".
Proof.
  rewrite Rev4_updateRow_out_of_range; [reflexivity|]. right. vm_compute. lia.
Defined.

(** ** More on [percentEncode] *)

Lemma percentEncode_cons c (s : string) :
  percentEncode (String c s) =
  (if rfc3986Unreserved c then String c EmptyString else JS.escapeOctet c) +:+ percentEncode s.
Proof.
  unfold percentEncode. cbn [JS.encodeURIComponent].
  by rewrite replaceClass_app, percentEncode_char.
Qed.

Lemma percentEncode_append (s t : string) :
  percentEncode (s +:+ t) = percentEncode s +:+ percentEncode t.
Proof.
  induction s as [|c s IH]; [done|].
  rewrite append_cons, !percentEncode_cons, IH. by rewrite append_assoc.
Qed.

Lemma unescape_escape (c : ascii) :
  unescapeOctet (JS.hexDigit (JS.code c / 16)) (JS.hexDigit (JS.code c mod 16)) = c.
Proof. destruct c as [[] [] [] [] [] [] [] []]; vm_compute; reflexivity. Qed.

Lemma escapeOctet_inj (c d : ascii) : JS.escapeOctet c = JS.escapeOctet d → c = d.
Proof.
  unfold JS.escapeOctet. intros [= Hh Hl].
  by rewrite <- (unescape_escape c), <- (unescape_escape d), Hh, Hl.
Qed.

Lemma percent_reserved : rfc3986Unreserved "%" = false.
Proof. reflexivity. Qed.

Lemma percentEncode_inj (s t : string) : percentEncode s = percentEncode t → s = t.
Proof.
  revert t. induction s as [|c s IH]; intros [|d t].
  - done.
  - rewrite percentEncode_cons. unfold JS.escapeOctet. by destruct (rfc3986Unreserved d).
  - rewrite percentEncode_cons. unfold JS.escapeOctet. by destruct (rfc3986Unreserved c).
  - rewrite !percentEncode_cons.
    destruct (rfc3986Unreserved c) eqn:Hc, (rfc3986Unreserved d) eqn:Hd.
    + rewrite !append_cons. intros [= -> Heq]. f_equal. by apply IH.
    + unfold JS.escapeOctet. rewrite !append_cons. intros [= -> _].
      by rewrite percent_reserved in Hc.
    + unfold JS.escapeOctet. rewrite !append_cons. intros [= <- _].
      by rewrite percent_reserved in Hd.
    + unfold JS.escapeOctet at 1 2. rewrite !append_cons. intros [= Hh Hl Heq].
      assert (c = d) as -> by (apply escapeOctet_inj; unfold JS.escapeOctet; congruence).
      f_equal. by apply IH.
Qed.

Lemma everyChar_append p (s t : string) :
  everyChar p (s +:+ t) = everyChar p s && everyChar p t.
Proof.
  induction s as [|c s IH]; [done|].
  rewrite append_cons. cbn [everyChar]. by rewrite IH, andb_assoc.
Qed.

Lemma percentEncode_char_safe (c : ascii) :
  everyChar (λ x, rfc3986Unreserved x || Ascii.eqb x "%")
    (if rfc3986Unreserved c then String c EmptyString else JS.escapeOctet c) = true.
Proof. destruct c as [[] [] [] [] [] [] [] []]; vm_compute; reflexivity. Qed.

(** X18.  [percentEncode] encodes a concatenation piece by piece, never
    gives two texts the same encoding, and its result holds nothing but
    letters, digits, [- _ . ~] and the percent sign. *)
Theorem percentEncode_lossless_and_safe (s t : string) :
  percentEncode (s +:+ t) = percentEncode s +:+ percentEncode t ∧
  (percentEncode s = percentEncode t → s = t) ∧
  everyChar (λ x, rfc3986Unreserved x || Ascii.eqb x "%") (percentEncode s) = true.
Proof.
  split; [apply percentEncode_append|]. split; [apply percentEncode_inj|].
  clear t. induction s as [|c s IH]; [done|].
  by rewrite percentEncode_cons, everyChar_append, percentEncode_char_safe, IH.
Qed.

Lemma percentEncode_lossless_and_safe_witness : "a b" = "a b".
Proof.
  apply (proj1 (proj2 (percentEncode_lossless_and_safe "a b" "a b"))). reflexivity.
Defined.

(** ** Looking a header up *)

Lemma findIndex_Some {A} (P : A → Prop) `{!∀ x, Decision (P x)} (l : list A) c :
  JS.findIndex P l = Some c ↔
  (∃ x, l !! c = Some x ∧ P x) ∧ ∀ c' x', c' < c → l !! c' = Some x' → ¬ P x'.
Proof.
  unfold JS.findIndex. split.
  - destruct (list_find P l) as [[i x]|] eqn:Hfind; [|done]. simpl. intros [= <-].
    apply list_find_Some in Hfind as (Hx & HP & Hfirst). split; [by exists x|].
    intros c' x' Hlt Hx'. by eapply Hfirst.
  - intros [(x & Hx & HP) Hfirst].
    assert (list_find P l = Some (c, x)) as ->; [|done].
    apply list_find_Some. split; [done|]. split; [done|].
    intros j y Hy Hlt. by eapply Hfirst.
Qed.

Lemma findIndex_None {A} (P : A → Prop) `{!∀ x, Decision (P x)} (l : list A) :
  JS.findIndex P l = None ↔ ∀ x, x ∈ l → ¬ P x.
Proof.
  unfold JS.findIndex. rewrite fmap_None, list_find_None, Forall_forall. done.
Qed.

(** X19.  The header look-ups of revisions 1, 3 and 4 ([col],
    [findHeaderIndex], [headerIndex]) are one function: they return the
    first column whose header equals the name up to the case of its
    letters, and none exactly when no header does, which [headerIndex]
    turns into its error.  The look-up of revision 5 ([indexOf])
    compares the names as they are; it agrees with the others when the
    column it finds is the only one that matches up to case. *)
Theorem header_lookup_first_match (headers : list string) (name : string) :
  (∀ c, foldedCol headers name = Some c ↔
        (∃ h, headers !! c = Some h ∧ JS.toLowerCase h = JS.toLowerCase name) ∧
        ∀ c' h', c' < c → headers !! c' = Some h' →
                 JS.toLowerCase h' ≠ JS.toLowerCase name) ∧
  (foldedCol headers name = None ↔
   ∀ h, h ∈ headers → JS.toLowerCase h ≠ JS.toLowerCase name) ∧
  Rev1.col headers name = foldedCol headers name ∧
  Rev3.findHeaderIndex headers name = foldedCol headers name ∧
  Rev4.headerIndex headers name =
    match foldedCol headers name with
    | Some c => Ok c
    | None => Err ("Missing required column in sheet header: " +:+ dquote +:+ name +:+ dquote)
    end ∧
  (∀ c, exactCol headers name = Some c →
        (∀ c' h', headers !! c' = Some h' →
                  JS.toLowerCase h' = JS.toLowerCase name → c' = c) →
        foldedCol headers name = Some c).
Proof.
  split; [|split; [|split; [done|split; [done|split; [done|]]]]].
  - intros c. apply findIndex_Some.
  - apply findIndex_None.
  - intros c [(h & Hh & ->) _]%findIndex_Some Honly.
    apply findIndex_Some. split; [by exists name|].
    intros c' h' Hlt Hh' Hsame. specialize (Honly c' h' Hh' Hsame). lia.
Qed.

Lemma header_lookup_first_match_witness :
  foldedCol ["id"; "Status"] "Status" = Some 1.
Proof.
  apply (proj2 (proj2 (proj2 (proj2 (proj2
           (header_lookup_first_match ["id"; "Status"] "Status")))))).
  - vm_compute. reflexivity.
  - intros [|[|c']] h' Hh' Hsame; [|done|done].
    injection Hh' as <-. vm_compute in Hsame. discriminate Hsame.
Defined.

(** ** [toIsoUtcFromColumns], its other branches *)

Lemma split_no_separator sep (s : string) :
  everyChar (λ x, negb (Ascii.eqb x sep)) s = true → JS.split sep s = [s].
Proof.
  induction s as [|c s IH]; [done|]. cbn [everyChar JS.split].
  intros [Hc Hs]%andb_prop. apply negb_true_iff in Hc. rewrite Hc.
  by rewrite (IH Hs).
Qed.

Lemma trim_one_digit a : JS.isDigit a = true → JS.trim (String a EmptyString) = String a EmptyString.
Proof.
  intros Ha%digit_not_space. unfold JS.trim. cbn [JS.trimStart]. rewrite Ha.
  cbn [JS.trimEnd]. by rewrite Ha.
Qed.

(** X20.  [toIsoUtcFromColumns] gives no date when the date or the
    time is missing or blank, and when the time holds no colon; it pads
    a one-digit hour or minute with a zero, so [9:5] is read as
    [09:05:00]. *)
Theorem toIsoUtcFromColumns_edges (d t : string) (a c : ascii) :
  Rev3.toIsoUtcFromColumns None (Some t) = None ∧
  Rev3.toIsoUtcFromColumns (Some d) None = None ∧
  (JS.trim d = "" ∨ JS.trim t = "" → Rev3.toIsoUtcFromColumns (Some d) (Some t) = None) ∧
  (everyChar (λ x, negb (Ascii.eqb x ":")) (JS.trim t) = true →
   Rev3.toIsoUtcFromColumns (Some d) (Some t) = None) ∧
  (JS.isDigit a = true → JS.isDigit c = true →
   JS.truthy (JS.trim d) = true →
   JS.trim t = String a (String ":" (String c EmptyString)) →
   Rev3.toIsoUtcFromColumns (Some d) (Some t)
     = Some (JS.trim d +:+ "T" +:+ hhmmss "0" a "0" c "0" "0" +:+ "Z")).
Proof.
  split; [done|]. split.
  { unfold Rev3.toIsoUtcFromColumns. cbv zeta. cbn [JS.orEmpty default id].
    by destruct (JS.truthy (JS.trim d)). }
  split; [|split].
  - unfold Rev3.toIsoUtcFromColumns. cbv zeta. cbn [JS.orEmpty default id].
    intros [-> | ->]; [done|]. by destruct (JS.truthy (JS.trim d)).
  - intros Hcolon. unfold Rev3.toIsoUtcFromColumns. cbv zeta. cbn [JS.orEmpty default id].
    destruct (negb (JS.truthy (JS.trim d)) || negb (JS.truthy (JS.trim t))); [done|].
    by rewrite (split_no_separator _ _ Hcolon).
  - intros Ha Hc Hd Ht. unfold Rev3.toIsoUtcFromColumns. cbv zeta.
    cbn [JS.orEmpty default id]. rewrite Hd, Ht. cbn [negb orb JS.truthy JS.split].
    rewrite (digit_not_colon _ Ha), (digit_not_colon _ Hc).
    cbn [Ascii.eqb Bool.eqb fmap list_fmap]. by rewrite !trim_one_digit.
Qed.

Lemma toIsoUtcFromColumns_edges_witness :
  Rev3.toIsoUtcFromColumns (Some "2026-01-31") (Some " 9:5 ") = Some "2026-01-31T09:05:00Z".
Proof.
  apply (proj2 (proj2 (proj2 (proj2
           (toIsoUtcFromColumns_edges "2026-01-31" " 9:5 " "9" "5"))))); reflexivity.
Defined.

(** ** Reading the sheet again *)

Lemma dropTrailing_all_empty (l : list string) :
  (∀ c, default "" (l !! c) = "") → dropTrailing isEmptyCell l = [].
Proof.
  induction l as [|x l IH]; intros Hall; [done|]. simpl.
  rewrite IH by (intros c; apply (Hall (S c))).
  specialize (Hall 0). simpl in Hall. by rewrite Hall.
Qed.

Lemma dropTrailing_ext (l l' : list string) :
  (∀ c, default "" (l !! c) = default "" (l' !! c)) →
  dropTrailing isEmptyCell l = dropTrailing isEmptyCell l'.
Proof.
  revert l'. induction l as [|x l IH]; intros l' Hsame.
  - symmetry. apply dropTrailing_all_empty. intros c. by rewrite <- Hsame.
  - destruct l' as [|y l'].
    + apply dropTrailing_all_empty. intros c. by rewrite Hsame.
    + pose proof (Hsame 0) as Hhead. simpl in Hhead. subst y. simpl.
      by rewrite (IH l') by (intros c; apply (Hsame (S c))).
Qed.

Lemma readAZ_row (s : Sheet) r row :
  readAZ s !! r = Some row →
  row = dropTrailing isEmptyCell (take 26 (default [] (s !! r))).
Proof.
  intros Hrow. eapply prefix_lookup_Some in Hrow; [|apply dropTrailing_prefix].
  rewrite list_lookup_fmap in Hrow. by destruct (s !! r); simplify_eq/=.
Qed.

Lemma take_26_cell (s : Sheet) r c :
  default "" (take 26 (default [] (s !! r)) !! c) = if decide (c < 26) then cell s r c else "".
Proof.
  unfold cell. case_decide; [by rewrite lookup_take_lt|].
  by rewrite lookup_take_ge by lia.
Qed.

Lemma readAZ_row_ext (s s' : Sheet) r row row' :
  readAZ s !! r = Some row → readAZ s' !! r = Some row' →
  (∀ c, c < 26 → cell s' r c = cell s r c) →
  row' = row.
Proof.
  intros ->%readAZ_row ->%readAZ_row Hsame. apply dropTrailing_ext.
  intros c. rewrite !take_26_cell. case_decide; [by apply Hsame|done].
Qed.

Lemma readAZ_length_cell (s : Sheet) r c :
  cell s r c ≠ "" → c < 26 → r < length (readAZ s).
Proof.
  intros Hcell Hc. destruct (readAZ s !! r) as [row|] eqn:Hrow; [by eapply lookup_lt_Some|].
  exfalso. apply Hcell.
  assert (default [] (readAZ s !! r) = []) as Hempty by (by rewrite Hrow).
  unfold readAZ in Hempty.
  rewrite (dropTrailing_lookup _ []) in Hempty by apply isEmptyRow_empty.
  rewrite list_lookup_fmap in Hempty. unfold cell.
  destruct (s !! r) as [srow|]; [|done]. simpl in *.
  rewrite <- (lookup_take_lt srow 26 c) by done.
  rewrite <- (dropTrailing_lookup isEmptyCell "") by apply isEmptyCell_empty.
  by rewrite Hempty.
Qed.

Lemma exactCol_NoDup (headers : list string) c h :
  NoDup headers → headers !! c = Some h → exactCol headers h = Some c.
Proof.
  intros Hnodup Hc. apply findIndex_Some. split; [by exists h|].
  intros c' h' Hlt Hc' ->.
  pose proof (NoDup_lookup _ _ _ _ Hnodup Hc Hc'). lia.
Qed.

Lemma exactCol_lookup (headers : list string) name c :
  exactCol headers name = Some c → headers !! c = Some name.
Proof. by intros [(h & Hh & ->) _]%findIndex_Some. Qed.

(** ** A posted row is not posted again *)

Section Done.
Context `{Engine} `{Outside}.

Lemma lastWrite_status (headers : list string) c (id stamp : string) :
  exactCol headers "Status" = Some c →
  lastWrite (exactCol headers)
    [("Status", "Posted"); ("Tweet ID", id); ("Posted At (UTC)", stamp)] c = Some "Posted".
Proof.
  intros Hc. pose proof (exactCol_lookup _ _ _ Hc) as Hname. simpl.
  rewrite decide_False.
  - rewrite decide_False; [by rewrite decide_True|].
    intros Hother%exactCol_lookup. congruence.
  - intros Hother%exactCol_lookup. congruence.
Qed.

Lemma Rev5_headers_kept (s s' : Sheet) :
  2 ≤ length (readAZ s) → 2 ≤ length (readAZ s') →
  (∀ c, cell s' 0 c = cell s 0 c) →
  (objectsOf s').1 = (objectsOf s).1.
Proof.
  intros Hs Hs' Hsame. unfold objectsOf. rewrite !decide_False by lia. simpl.
  destruct (readAZ s) as [|row0 rest] eqn:Hread; [simpl in Hs; lia|].
  destruct (readAZ s') as [|row0' rest'] eqn:Hread'; [simpl in Hs'; lia|].
  simpl. f_equal. apply (readAZ_row_ext s s' 0); [by rewrite Hread|by rewrite Hread'|].
  intros c _. apply Hsame.
Qed.

End Done.

(** X21.  After a run of revision 5 that posted and recorded a row, in
    a sheet where no two columns share a name, the row reads [Posted]
    under [Status] when the sheet is read again: it is not pending, and
    no later run selects it. *)
Theorem Rev5_posted_row_is_done `{Engine} `{Outside} tab (w : World) first id :
  head (Rev5.candidates (objectsOf (sheet w)).2 (clock (clockReads w))) = Some first →
  ok (postingApi (Rev5.textOf first.1)) = true →
  dataId (default emptyJson (json (postingApi (Rev5.textOf first.1)))) = Some id →
  NoDup (objectsOf (sheet w)).1 →
  (∀ row, row ∈ (objectsOf (sheet (Rev5.main tab w).2)).2 →
          Rev5.rowIndex row = Rev5.rowIndex first.1 →
          JS.objGet "Status" (Rev5.fields row) = Some "Posted" ∧ ¬ Rev5.isPending row) ∧
  (∀ later x, x ∈ Rev5.candidates (objectsOf (sheet (Rev5.main tab w).2)).2 later →
              Rev5.rowIndex x.1 ≠ Rev5.rowIndex first.1).
Proof.
  intros Hhead Hok Hid Hnodup.
  destruct (Rev5_main_recorded tab w first id Hhead Hok Hid) as [_ Hcells].
  set (s' := sheet (Rev5.main tab w).2) in *.
  assert (first ∈ Rev5.candidates (objectsOf (sheet w)).2 (clock (clockReads w))) as Hin.
  { destruct (Rev5.candidates _ _) as [|x l]; [done|]. injection Hhead as ->. left. }
  apply Rev5_candidates_elem_of, dueRows5_due in Hin as (Hrow & Hpending & _).
  destruct (objectsOf_rowIndex _ _ Hrow) as (k & cells & Hk & Hindex & Hfields).
  pose proof (objectsOf_headers_width (sheet w)) as Hwidth.
  (* the column of Status *)
  rewrite lookup_drop in Hk.
  assert (∃ c, lastIndexOf "Status" (objectsOf (sheet w)).1 = Some c) as [c Hlast].
  { unfold Rev5.isPending, Rev5.toLowerTrim in Hpending.
    rewrite Hfields, (header_object_cells _ _ _ _ _ Hk Hwidth) in Hpending.
    destruct (lastIndexOf "Status" (objectsOf (sheet w)).1) as [c|]; [by exists c|done]. }
  destruct (lastIndexOf_lt _ _ _ Hlast) as [Hc Hname].
  pose proof (exactCol_NoDup _ _ _ Hnodup Hname) as Hexact.
  assert (cell s' (S k) c = "Posted") as Hposted.
  { rewrite Hcells, Hindex. unfold cellAfter.
    replace (S (S k) - 1) with (S k) by lia.
    rewrite decide_True by done. by rewrite lastWrite_status. }
  (* the sheet read again *)
  assert (2 ≤ length (readAZ (sheet w))) as Hlen by (apply lookup_lt_Some in Hk; lia).
  assert (2 ≤ length (readAZ s')) as Hlen'.
  { assert (S k < length (readAZ s')); [|lia].
    apply (readAZ_length_cell _ _ c); [by rewrite Hposted|lia]. }
  assert ((objectsOf s').1 = (objectsOf (sheet w)).1) as Hheaders.
  { apply Rev5_headers_kept; [done..|]. intros c0. rewrite Hcells, Hindex.
    unfold cellAfter. replace (S (S k) - 1) with (S k) by lia.
    by rewrite decide_False by lia. }
  assert (∀ row, row ∈ (objectsOf s').2 → Rev5.rowIndex row = Rev5.rowIndex first.1 →
                 JS.objGet "Status" (Rev5.fields row) = Some "Posted" ∧ ¬ Rev5.isPending row)
    as Hdone.
  { intros row (k' & cells' & Hk' & Hindex' & Hfields')%objectsOf_rowIndex Hsame.
    assert (k' = k) as -> by lia. rewrite lookup_drop in Hk'.
    assert (JS.objGet "Status" (Rev5.fields row) = Some "Posted") as Hstatus.
    { rewrite Hfields', Hheaders, (header_object_cells _ _ _ _ _ Hk' Hwidth), Hlast.
      simpl. by rewrite Hposted. }
    split; [done|]. unfold Rev5.isPending, Rev5.toLowerTrim. by rewrite Hstatus. }
  split; [exact Hdone|].
  intros later x (Hx & Hxpending & _)%Rev5_candidates_elem_of%dueRows5_due Hsame.
  by destruct (Hdone x.1 Hx Hsame).
Qed.

Lemma Rev5_posted_row_is_done_witness :
  (λ x : Rev5.Row * option Z, Rev5.rowIndex x.1) <$>
    @Rev5.candidates Reference.engine
      (objectsOf (sheet (@Rev5.main Reference.engine Reference.accepting "Posts"
                           (start Reference.ties)).2)).2 Reference.feb1 = [3] ∧
  ∀ x, x ∈ @Rev5.candidates Reference.engine
             (objectsOf (sheet (@Rev5.main Reference.engine Reference.accepting "Posts"
                                  (start Reference.ties)).2)).2 Reference.feb1 →
       Rev5.rowIndex x.1 ≠ 2.
Proof.
  split; [vm_compute; reflexivity|].
  edestruct (@Rev5_posted_row_is_done Reference.engine Reference.accepting "Posts"
               (start Reference.ties)) as [_ Hnever];
    [vm_compute; reflexivity|vm_compute; reflexivity|vm_compute; reflexivity
    |apply (bool_decide_unpack _); vm_compute; reflexivity|].
  intros x. apply Hnever.
Defined.

(** ** What is sent *)

Lemma Rev5_batchOf_nil tab headers rowIndex updates :
  Rev5.batchOf tab headers rowIndex updates = [] ↔
  ∀ kv, kv ∈ updates → exactCol headers kv.1 = None.
Proof.
  induction updates as [|[k v] updates IH].
  - split; [by intros _ kv ?%elem_of_nil|done].
  - rewrite Rev5_batchOf_cons. destruct (exactCol headers k) as [c|] eqn:Hk.
    + split; [done|]. intros Hall. specialize (Hall (k, v)). simpl in Hall.
      rewrite Hk in Hall. by discriminate Hall; left.
    + rewrite IH. split.
      * intros Hall kv [->|Hin]%elem_of_cons; [done|by apply Hall].
      * intros Hall kv Hin. apply Hall. by right.
Qed.

Lemma Rev5_batchOf_cells tab headers rowIndex updates :
  Forall (λ d : Range * string,
            rangeFrom d.1 = rangeTo d.1 ∧ rangeTab d.1 = Rev5.quoteSheetName tab)
    (Rev5.batchOf tab headers rowIndex updates).
Proof.
  induction updates as [|[k v] updates IH]; [constructor|].
  rewrite Rev5_batchOf_cons. destruct (exactCol headers k); [|done].
  by constructor.
Qed.

(** X22.  [updateRowByHeader] (revision 5) never reads: when no field
    names a header exactly it sends nothing at all, and otherwise one
    batch request whose entries address one cell each.  [updateRow]
    (revision 1) always reads the row and then writes it, also when no
    field names a header. *)
Theorem update_requests tab headers rowIndex updates (w : World) :
  ((∀ kv, kv ∈ updates → exactCol headers kv.1 = None) →
   Rev5.updateRowByHeader tab headers rowIndex updates w = (Ok (), w)) ∧
  (∀ kv, kv ∈ updates → is_Some (exactCol headers kv.1) →
         trace (Rev5.updateRowByHeader tab headers rowIndex updates w).2 =
           trace w ++ [EvBatchUpdate (Rev5.batchOf tab headers rowIndex updates)] ∧
         Forall (λ d : Range * string,
                   rangeFrom d.1 = rangeTo d.1 ∧ rangeTab d.1 = Rev5.quoteSheetName tab)
           (Rev5.batchOf tab headers rowIndex updates)) ∧
  (∀ n, trace (Rev1.updateRow tab (S n) headers updates w).2 =
          trace w ++
          [ EvGet (Rev1.rowRange tab (S n));
            EvUpdate (Rev1.rowRange tab (S n))
              (Some <$> Rev1.applyUpdates headers updates
                          (rowAsRead (sheet w) n (length headers))) ]).
Proof.
  split; [|split].
  - intros Hnone. unfold Rev5.updateRowByHeader.
    by rewrite (proj2 (Rev5_batchOf_nil tab headers rowIndex updates) Hnone).
  - intros kv Hin [c Hc]. split; [|apply Rev5_batchOf_cells].
    unfold Rev5.updateRowByHeader.
    destruct (Rev5.batchOf tab headers rowIndex updates) as [|d data] eqn:Hbatch.
    + rewrite (proj1 (Rev5_batchOf_nil tab headers rowIndex updates) Hbatch kv Hin) in Hc.
      done.
    + unfold sheetsBatchUpdate. by destruct (valuesBatchUpdate _ _).
  - intros n. rewrite Rev1_updateRow_run. cbn zeta.
    case_decide; simpl; by rewrite <- app_assoc.
Qed.

Lemma update_requests_witness :
  Rev5.updateRowByHeader "Posts" ["Status"] 2 [("status", "Posted")]
    (start [["Status"]; ["Pending"]])
  = (Ok (), start [["Status"]; ["Pending"]]).
Proof.
  apply update_requests. intros kv [->|Hin]%elem_of_cons; [reflexivity|].
  by apply elem_of_nil in Hin.
Defined.

(** ** The texts that are posted *)

Section Texts.
Context `{Engine} `{Outside}.

Lemma sends_none {A} (m : Run A) w :
  sends 0 m → ∃ tr, trace (m w).2 = trace w ++ tr ∧ posts tr = [].
Proof.
  intros Hm. destruct (Hm w) as (tr & Htr & Hlen). exists tr. split; [done|].
  destruct (posts tr); [done|simpl in Hlen; lia].
Qed.

Lemma after_read {A} (out : Outcome A * World) rg (w : World) (l : list string) :
  (∃ tr, trace out.2 = trace (emit (EvGet rg) w) ++ tr ∧ posts tr = l) →
  ∃ tr, trace out.2 = trace w ++ tr ∧ posts tr = l.
Proof.
  intros (tr & Htr & Hposts). exists (EvGet rg :: tr). rewrite Htr. simpl.
  rewrite <- app_assoc. by split.
Qed.

Lemma no_more {A} (a : Outcome A) (w w' : World) :
  trace w' = trace w → ∃ tr, trace (a, w').2 = trace w ++ tr ∧ posts tr = [].
Proof. intros Hsame. exists []. simpl. by rewrite app_nil_r. Qed.

Lemma Rev5_main_posts tab w :
  ∃ tr, trace (Rev5.main tab w).2 = trace w ++ tr ∧
        posts tr = match head (Rev5.candidates (objectsOf (sheet w)).2 (clock (clockReads w))) with
                   | Some first => [Rev5.textOf first.1]
                   | None => []
                   end.
Proof.
  rewrite Rev5_main_unfold. cbn zeta.
  destruct (objectsOf (sheet w)) as [headers rows]. simpl.
  apply (after_read _ (Build_Range (Rev5.quoteSheetName tab) "A" "Z")).
  destruct rows as [|row rows]; [by apply no_more|].
  destruct (Rev5.candidates _ _) as [|first l]; [by apply no_more|].
  apply (Rev5_dispatch_posts tab headers first.1 (tick (emit _ w))).
Qed.

Lemma Rev1_main_posts tab w :
  ∃ tr, trace (Rev1.main tab w).2 = trace w ++ tr ∧
        (posts tr = [] ∨
         ∃ cols item, posts tr = [Rev1.textOf cols item] ∧
                      JS.truthy (Rev1.textOf cols item) = true).
Proof.
  rewrite Rev1_main_unfold. cbn zeta.
  assert (∀ (out : Outcome unit * World) l,
            (∃ tr, trace out.2 = trace (emit (EvGet (Build_Range tab "A1" "Z10000")) w) ++ tr ∧
                   posts tr = l) →
            (l = [] ∨ ∃ cols item, l = [Rev1.textOf cols item] ∧
                                   JS.truthy (Rev1.textOf cols item) = true) →
            ∃ tr, trace out.2 = trace w ++ tr ∧
                  (posts tr = [] ∨
                   ∃ cols item, posts tr = [Rev1.textOf cols item] ∧
                                JS.truthy (Rev1.textOf cols item) = true)) as Hwrap.
  { intros out l Hout Hl. apply after_read in Hout as (tr & Htr & Hposts).
    exists tr. by rewrite Hposts. }
  case_decide; [by eapply Hwrap; [apply no_more|left]|].
  destruct (Rev1.columns _) as [cols|]; [|by eapply Hwrap; [apply no_more|left]].
  destruct (Rev1.candidates _ _ _) as [|item l]; [by eapply Hwrap; [apply no_more|left]|].
  destruct (JS.truthy (Rev1.textOf cols item)) eqn:Htext.
  - eapply Hwrap; [by apply (Rev1_dispatch_posts tab _ cols item (tick (emit _ w)))|].
    right. by exists cols, item.
  - eapply Hwrap; [|by left]. rewrite Rev1_dispatch_empty by done.
    apply (sends_none _ (tick (tick (emit _ w)))). apply Rev1_updateRow_sends.
Qed.

Lemma Rev4_main_posts tab w :
  ∃ tr, trace (Rev4.main tab w).2 = trace w ++ tr ∧
        (posts tr = [] ∨
         ∃ text, posts tr = [JS.trim text] ∧ JS.truthy (JS.trim text) = true).
Proof.
  rewrite Rev4_main_unfold. cbn zeta.
  assert (∀ (out : Outcome unit * World) l,
            (∃ tr, trace out.2 = trace (emit (EvGet (Build_Range tab "A" "Z")) (tick w)) ++ tr ∧
                   posts tr = l) →
            (l = [] ∨ ∃ text, l = [JS.trim text] ∧ JS.truthy (JS.trim text) = true) →
            ∃ tr, trace out.2 = trace w ++ tr ∧
                  (posts tr = [] ∨
                   ∃ text, posts tr = [JS.trim text] ∧ JS.truthy (JS.trim text) = true))
    as Hwrap.
  { intros out l Hout Hl. apply (after_read _ _ (tick w)) in Hout as (tr & Htr & Hposts).
    exists tr. by rewrite Hposts. }
  destruct (tableOf (sheet w)) as [headers rows].
  destruct headers as [|h headers]; [by eapply Hwrap; [apply no_more|left]|].
  destruct (Rev4.headerIndex _ "Publish Date") as [i1|]; [|by eapply Hwrap; [apply no_more|left]].
  destruct (Rev4.headerIndex _ "Time (UTC)") as [i2|]; [|by eapply Hwrap; [apply no_more|left]].
  destruct (Rev4.headerIndex _ "Post Text") as [i3|]; [|by eapply Hwrap; [apply no_more|left]].
  destruct (Rev4.headerIndex _ "Status") as [i4|]; [|by eapply Hwrap; [apply no_more|left]].
  destruct (Rev4.scan _ _ _ _ _ _ _) as [[picked|]|e] eqn:Hscan;
    [|by eapply Hwrap; [apply no_more|left]..].
  destruct (Rev4_scan_picked _ _ _ _ _ _ _ _ Hscan)
    as (j & row & _ & _ & _ & Htext & _ & (_ & Htruthy & _) & _).
  eapply Hwrap; [apply Rev4_dispatch_posts|]. right.
  exists (JS.orEmpty (row !! i3)). by rewrite Htext.
Qed.

End Texts.

(** X23.  Whatever the sheet, a text that revision 1, 4 or 5 sends to
    the posting API is not empty and carries no white space at either
    end: it is the trimmed text of a row. *)
Theorem posted_text_is_trimmed `{Engine} `{Outside} tab (w : World) (text : string) :
  (text ∈ posts (drop (length (trace w)) (trace (Rev1.main tab w).2)) →
   text ≠ "" ∧ JS.trim text = text) ∧
  (text ∈ posts (drop (length (trace w)) (trace (Rev4.main tab w).2)) →
   text ≠ "" ∧ JS.trim text = text) ∧
  (text ∈ posts (drop (length (trace w)) (trace (Rev5.main tab w).2)) →
   text ≠ "" ∧ JS.trim text = text).
Proof.
  split; [|split].
  - destruct (Rev1_main_posts tab w) as (tr & Htr & Hposts).
    rewrite Htr, drop_app_length.
    destruct Hposts as [->|(cols & item & -> & Htext)]; [by intros ?%elem_of_nil|].
    intros ->%list_elem_of_singleton. split; [by intros Heq; rewrite Heq in Htext|].
    apply trim_idemp.
  - destruct (Rev4_main_posts tab w) as (tr & Htr & Hposts).
    rewrite Htr, drop_app_length.
    destruct Hposts as [->|(raw & -> & Htext)]; [by intros ?%elem_of_nil|].
    intros ->%list_elem_of_singleton. split; [by intros Heq; rewrite Heq in Htext|].
    apply trim_idemp.
  - destruct (Rev5_main_posts tab w) as (tr & Htr & Hposts).
    rewrite Htr, drop_app_length, Hposts.
    destruct (head _) as [first|] eqn:Hhead; [|by intros ?%elem_of_nil].
    intros ->%list_elem_of_singleton.
    assert (first ∈ Rev5.candidates (objectsOf (sheet w)).2 (clock (clockReads w))) as Hin.
    { destruct (Rev5.candidates _ _) as [|x l]; [done|]. injection Hhead as ->. left. }
    apply Rev5_candidates_elem_of, dueRows5_due in Hin as (_ & _ & Htext & _).
    split; [by intros Heq; rewrite Heq in Htext|]. apply trim_idemp.
Qed.

Lemma posted_text_is_trimmed_witness : JS.trim "two" = "two".
Proof.
  apply (proj2 (proj2 (@posted_text_is_trimmed Reference.engine Reference.accepting "Posts"
                         (start Reference.ties) "two"))).
  apply (bool_decide_unpack _). vm_compute. reflexivity.
Defined.

(** ** Revision 1: a handled row is not handled again *)

Lemma cell_take n (s : Sheet) r c :
  cell (take n s) r c = if decide (r < n) then cell s r c else "".
Proof.
  unfold cell. case_decide; [by rewrite lookup_take_lt|].
  by rewrite lookup_take_ge by lia.
Qed.

Lemma readAZ_length (s : Sheet) : length (readAZ s) ≤ length s.
Proof.
  unfold readAZ. etrans; [apply dropTrailing_length|]. by rewrite length_fmap.
Qed.

Lemma tableOf_headers_kept (s s' : Sheet) :
  2 ≤ length (readAZ s) → 2 ≤ length (readAZ s') →
  (∀ c, cell s' 0 c = cell s 0 c) →
  (tableOf s').1 = (tableOf s).1.
Proof.
  intros Hs Hs' Hsame. unfold tableOf. rewrite !decide_False by lia. simpl.
  destruct (readAZ s) as [|row0 rest] eqn:Hread; [simpl in Hs; lia|].
  destruct (readAZ s') as [|row0' rest'] eqn:Hread'; [simpl in Hs'; lia|].
  simpl. f_equal. apply (readAZ_row_ext s s' 0); [by rewrite Hread|by rewrite Hread'|].
  intros c _. apply Hsame.
Qed.

Lemma foldedCol_same_column (headers : list string) n1 n2 c :
  foldedCol headers n1 = Some c → foldedCol headers n2 = Some c →
  JS.toLowerCase n1 = JS.toLowerCase n2.
Proof.
  intros [(h1 & Hh1 & Hs1) _]%findIndex_Some [(h2 & Hh2 & Hs2) _]%findIndex_Some.
  unfold JS.sameName in *. congruence.
Qed.

Lemma Rev1_columns_status headers cols :
  Rev1.columns headers = Some cols → foldedCol headers "Status" = Some (Rev1.idxStatus cols).
Proof.
  unfold Rev1.columns, foldedCol, Rev1.col.
  destruct (JS.findIndex (JS.sameName "Publish Date") headers); [|done].
  destruct (JS.findIndex (JS.sameName "Time (UTC)") headers); [|done].
  destruct (JS.findIndex (JS.sameName "Post Text") headers); [|done].
  destruct (JS.findIndex (JS.sameName "Status") headers); [|done].
  destruct (JS.findIndex (JS.sameName "id") headers); [|done].
  by intros [= <-].
Qed.

Section Done1.
Context `{Engine} `{Outside}.

Lemma Rev1_main_recorded tab (w : World) cols item :
  Rev1.columns (tableOf (take 10000 (sheet w))).1 = Some cols →
  head (Rev1.candidates cols (tableOf (take 10000 (sheet w))).2 (clock (clockReads w)))
    = Some item →
  (JS.truthy (Rev1.textOf cols item) = true →
   ok (postingApi (Rev1.textOf cols item)) = true) →
  ∃ status rest,
    status ∈ ["Posted"; "Skipped"] ∧
    Forall (λ kv : string * string, kv.1 ∈ ["Posted At"; "Tweet ID"]) rest ∧
    (Rev1.main tab w).1 = Ok () ∧
    ∀ r c, cell (sheet (Rev1.main tab w).2) r c =
           cellAfter (foldedCol (tableOf (take 10000 (sheet w))).1)
             (("Status", status) :: rest) (S (Rev1.i item)) (sheet w) r c.
Proof.
  intros Hcols Hhead Hreply.
  assert (item ∈ Rev1.candidates cols (tableOf (take 10000 (sheet w))).2
                   (clock (clockReads w))) as Hin.
  { destruct (Rev1.candidates _ _ _) as [|x l]; [done|]. injection Hhead as ->. left. }
  apply Rev1_candidates_elem_of, dueRows1_pending in Hin as (_ & Hrow & _).
  pose proof (tableOf_headers_width (take 10000 (sheet w))) as Hwidth.
  rewrite (Rev1_main_table _ _ _ Hcols). cbn zeta.
  destruct (Rev1.candidates _ _ _) as [|x l]; [done|]. injection Hhead as ->.
  destruct (JS.truthy (Rev1.textOf cols item)) eqn:Htext.
  - eexists "Posted", _. split; [set_solver|]. split; [|].
    2:{ rewrite Rev1_dispatch_posted by auto. rewrite Hrow.
        replace (Rev1.i item + 2) with (S (S (Rev1.i item))) by lia. split.
        - rewrite Rev1_updateRow_run. cbn zeta. by rewrite decide_True.
        - intros r c. by rewrite Rev1_updateRow_cells. }
    repeat constructor; set_solver.
  - eexists "Skipped", _. split; [set_solver|]. split; [|].
    2:{ rewrite Rev1_dispatch_empty by done. rewrite Hrow.
        replace (Rev1.i item + 2) with (S (S (Rev1.i item))) by lia. split.
        - rewrite Rev1_updateRow_run. cbn zeta. by rewrite decide_True.
        - intros r c. by rewrite Rev1_updateRow_cells. }
    repeat constructor; set_solver.
Qed.

End Done1.

Lemma lastWrite_none (addr : string → option nat) rest c :
  Forall (λ kv : string * string, addr kv.1 ≠ Some c) rest → lastWrite addr rest c = None.
Proof.
  induction 1 as [|kv rest Hkv _ IH]; [done|]. simpl. rewrite IH. by rewrite decide_False.
Qed.

(** X24.  After a run of revision 1 that handled a row (posted it with
    a successful reply, or skipped it for want of text), the row reads
    [Posted] or [Skipped] in the status column when the sheet is read
    again, under the same header: no later run selects it. *)
Theorem Rev1_handled_row_is_done `{Engine} `{Outside} tab (w : World) cols item :
  Rev1.columns (tableOf (take 10000 (sheet w))).1 = Some cols →
  head (Rev1.candidates cols (tableOf (take 10000 (sheet w))).2 (clock (clockReads w)))
    = Some item →
  (JS.truthy (Rev1.textOf cols item) = true →
   ok (postingApi (Rev1.textOf cols item)) = true) →
  (tableOf (take 10000 (sheet (Rev1.main tab w).2))).1 = (tableOf (take 10000 (sheet w))).1 ∧
  cell (sheet (Rev1.main tab w).2) (S (Rev1.i item)) (Rev1.idxStatus cols)
    ∈ ["Posted"; "Skipped"] ∧
  ∀ later x,
    x ∈ Rev1.candidates cols (tableOf (take 10000 (sheet (Rev1.main tab w).2))).2 later →
    Rev1.i x ≠ Rev1.i item.
Proof.
  intros Hcols Hhead Hreply.
  destruct (Rev1_main_recorded tab w cols item Hcols Hhead Hreply)
    as (status & rest & Hstatus & Hrest & _ & Hcells).
  set (s' := sheet (Rev1.main tab w).2) in *.
  set (headers := (tableOf (take 10000 (sheet w))).1) in *.
  pose proof (Rev1_columns_status _ _ Hcols) as Hcol.
  set (cS := Rev1.idxStatus cols) in *.
  assert (cS < 26) as HcS.
  { pose proof (tableOf_headers_width (take 10000 (sheet w))).
    apply findIndex_lt in Hcol. fold headers in H1. lia. }
  assert (item ∈ Rev1.candidates cols (tableOf (take 10000 (sheet w))).2
                   (clock (clockReads w))) as Hin.
  { destruct (Rev1.candidates _ _ _) as [|x l]; [done|]. injection Hhead as ->. left. }
  apply Rev1_candidates_elem_of, dueRows1_pending in Hin as (Hrow & _ & _).
  apply tableOf_rows in Hrow.
  assert (S (Rev1.i item) < 10000) as Hbound.
  { apply lookup_lt_Some in Hrow. pose proof (readAZ_length (take 10000 (sheet w))).
    rewrite length_take in H1. lia. }
  assert (cell s' (S (Rev1.i item)) cS = status) as Hdone.
  { rewrite Hcells. unfold cellAfter. rewrite decide_True by done.
    cbn [lastWrite]. rewrite lastWrite_none.
    - by rewrite decide_True.
    - eapply Forall_impl; [exact Hrest|]. intros kv Hkv Hsame. simpl in Hsame.
      pose proof (foldedCol_same_column _ _ _ _ Hsame Hcol) as Hlower.
      repeat (apply elem_of_cons in Hkv as [Hkv|Hkv];
              [rewrite Hkv in Hlower; vm_compute in Hlower; discriminate Hlower|]).
      by apply elem_of_nil in Hkv. }
  assert (status ≠ "") as Hnonempty.
  { intros ->. repeat (apply elem_of_cons in Hstatus as [Hstatus|Hstatus]; [done|]).
    by apply elem_of_nil in Hstatus. }
  assert (2 ≤ length (readAZ (take 10000 (sheet w)))) as Hlen
    by (apply lookup_lt_Some in Hrow; lia).
  assert (2 ≤ length (readAZ (take 10000 s'))) as Hlen'.
  { assert (S (Rev1.i item) < length (readAZ (take 10000 s'))); [|lia].
    apply (readAZ_length_cell _ _ cS); [|done].
    rewrite cell_take, decide_True by done. by rewrite Hdone. }
  assert ((tableOf (take 10000 s')).1 = headers) as Hheaders.
  { apply tableOf_headers_kept; [done..|]. intros c.
    rewrite !cell_take, !decide_True by lia. rewrite Hcells. unfold cellAfter.
    by rewrite decide_False by lia. }
  split; [done|]. split; [by rewrite Hdone|].
  intros later x (Hx & _ & Hpending)%Rev1_candidates_elem_of%dueRows1_pending Hsame.
  apply tableOf_rows in Hx. rewrite Hsame in Hx.
  unfold Rev1.isPending in Hpending. simpl in Hpending. fold cS in Hpending.
  unfold JS.orEmpty in Hpending.
  rewrite (readAZ_lookup _ _ _ Hx), decide_True in Hpending by done.
  rewrite cell_take, decide_True, Hdone in Hpending by done.
  repeat (apply elem_of_cons in Hstatus as [Hstatus|Hstatus];
          [rewrite Hstatus in Hpending; vm_compute in Hpending; discriminate Hpending|]).
  by apply elem_of_nil in Hstatus.
Qed.

Lemma Rev1_handled_row_is_done_witness :
  cell (sheet (@Rev1.main Reference.engine Reference.accepting "Posts"
                 (start Reference.blank)).2) 1 4 ∈ ["Posted"; "Skipped"].
Proof.
  eapply (@Rev1_handled_row_is_done Reference.engine Reference.accepting "Posts"
            (start Reference.blank) Reference.queueCols
            {| Rev1.r := ["1"; "2026-01-31"; "10:00"; ""; "Pending"]; Rev1.i := 0;
               Rev1.sheetRow := 2; Rev1.dt := Some 1769853600000%Z; Rev1.id := Some 1%Z |});
    [vm_compute; reflexivity|vm_compute; reflexivity|vm_compute; discriminate].
Defined.

(** ** Revision 4: a posted row is not picked again *)

(** X25.  After a run of revision 4 that posted a row and got the id
    of the post, the row reads [Posted] in the status column when the
    sheet is read again, under the same header: the loop of a later run
    never picks it. *)
Theorem Rev4_posted_row_is_done `{Engine} `{Outside} tab (w : World)
    headers rows iPublishDate iTimeUtc iPostText iStatus picked id :
  tableOf (sheet w) = (headers, rows) →
  headers ≠ [] →
  Rev4.headerIndex headers "Publish Date" = Ok iPublishDate →
  Rev4.headerIndex headers "Time (UTC)" = Ok iTimeUtc →
  Rev4.headerIndex headers "Post Text" = Ok iPostText →
  Rev4.headerIndex headers "Status" = Ok iStatus →
  Rev4.scan (clock (clockReads w)) iPublishDate iTimeUtc iPostText iStatus rows 0
    = Ok (Some picked) →
  ok (postingApi (Rev4.postText picked)) = true →
  dataId (default emptyJson (json (postingApi (Rev4.postText picked)))) = Some id →
  (tableOf (sheet (Rev4.main tab w).2)).1 = headers ∧
  cell (sheet (Rev4.main tab w).2) (S (Rev4.r picked)) iStatus = "Posted" ∧
  ∀ later again,
    Rev4.scan later iPublishDate iTimeUtc iPostText iStatus
      (tableOf (sheet (Rev4.main tab w).2)).2 0 = Ok (Some again) →
    Rev4.r again ≠ Rev4.r picked.
Proof.
  intros Htable Hheaders H1 H2 H3 H4 Hscan Hok Hid.
  destruct (Rev4_main_recorded tab w _ _ _ _ _ _ _ _ Htable Hheaders H1 H2 H3 H4 Hscan Hok Hid)
    as [_ Hcells].
  set (s' := sheet (Rev4.main tab w).2) in *.
  destruct (Rev4_scan_picked _ _ _ _ _ _ _ _ Hscan)
    as (j & row & Hr & Hj & Hn & _). simpl in Hr, Hn. subst j. rewrite Hn in Hcells.
  replace (Rev4.r picked + 2 - 1) with (S (Rev4.r picked)) in Hcells by lia.
  assert (foldedCol headers "Status" = Some iStatus) as Hcol.
  { unfold Rev4.headerIndex in H4. unfold foldedCol.
    by destruct (JS.findIndex _ _); [injection H4 as ->|]. }
  assert (iStatus < 26) as HcS.
  { pose proof (tableOf_headers_width (sheet w)) as Hwidth. rewrite Htable in Hwidth.
    apply findIndex_lt in Hcol. simpl in Hwidth. lia. }
  assert ((tableOf (sheet w)).2 !! Rev4.r picked = Some row) as Hrow by (by rewrite Htable).
  apply tableOf_rows in Hrow.
  assert (cell s' (S (Rev4.r picked)) iStatus = "Posted") as Hdone.
  { rewrite Hcells. unfold cellAfter. rewrite decide_True by done.
    cbn [lastWrite app]. rewrite lastWrite_none.
    - by rewrite decide_True.
    - apply Forall_app. split; [destruct (foldedCol headers "tweet_id")
                               |destruct (foldedCol headers "posted_at")];
        repeat constructor; simpl; intros Hsame;
        pose proof (foldedCol_same_column _ _ _ _ Hsame Hcol) as Hlower;
        vm_compute in Hlower; discriminate Hlower. }
  assert (2 ≤ length (readAZ (sheet w))) as Hlen
    by (apply lookup_lt_Some in Hrow; lia).
  assert (2 ≤ length (readAZ s')) as Hlen'.
  { assert (S (Rev4.r picked) < length (readAZ s')); [|lia].
    apply (readAZ_length_cell _ _ iStatus); [|done]. by rewrite Hdone. }
  assert ((tableOf s').1 = headers) as Hkept.
  { replace headers with (tableOf (sheet w)).1 by (by rewrite Htable).
    apply tableOf_headers_kept; [done..|]. intros c.
    rewrite Hcells. unfold cellAfter. by rewrite decide_False by lia. }
  split; [done|]. split; [done|].
  intros later again Hagain Hsame.
  destruct (Rev4_scan_picked _ _ _ _ _ _ _ _ Hagain)
    as (j & row' & Hr' & Hj' & _ & _ & _ & (Hpending & _) & _).
  simpl in Hr'. subst j. rewrite Hsame in Hj'. apply tableOf_rows in Hj'.
  unfold JS.orEmpty in Hpending.
  rewrite (readAZ_lookup _ _ _ Hj'), decide_True, Hdone in Hpending by done.
  vm_compute in Hpending. discriminate Hpending.
Qed.

Lemma Rev4_posted_row_is_done_witness :
  cell (sheet (@Rev4.main Reference.engine Reference.accepting "Posts"
                 (start Reference.logged)).2) 1 3 = "Posted".
Proof.
  edestruct (@Rev4_posted_row_is_done Reference.engine Reference.accepting "Posts"
               (start Reference.logged)) as (_ & Hdone & _);
    [vm_compute; reflexivity|done|vm_compute; reflexivity..|].
  exact Hdone.
Defined.

(** ** Revision 3: a posted row is not due again *)

Lemma parseSheet_header (s : Sheet) : (Rev3.parseSheet (readAZ s)).1 = (tableOf s).1.
Proof.
  unfold Rev3.parseSheet, tableOf. by case_decide.
Qed.

Lemma headerKey_status (header : list string) key :
  Rev3.headerKey header "status" = Some key →
  JS.truthy key = true ∧
  ∃ c, header !! c = Some key ∧ foldedCol header "Status" = Some c.
Proof.
  unfold Rev3.headerKey, JS.find.
  destruct (list_find _ header) as [[c x]|] eqn:Hfind; [|done]. simpl. intros [= ->].
  apply list_find_Some in Hfind as (Hc & Hlower & Hfirst). split.
  - by destruct key.
  - exists c. split; [done|]. apply findIndex_Some. split.
    + exists key. split; [done|]. unfold JS.sameName. by rewrite Hlower.
    + intros c' x' Hlt Hx' Hsame. by apply (Hfirst c' x' Hx' Hlt).
Qed.

(** X26.  After a run of revision 3 (the dry run off) that posted a
    row with a successful reply, in a sheet where no two columns share a
    name (none being named [__rowIndex1] or [__proto__]), the sheet has
    the same header when it is read again and the row is no longer
    among the due rows, at whatever time they are computed. *)
Theorem Rev3_posted_row_is_done `{Engine} `{Outside} tab (w : World)
    header items dueRows first :
  Rev3.parseSheet (readAZ (sheet w)) = (header, items) →
  header ≠ [] →
  (Rev3.due header items
     (emit (EvGet {| rangeTab := Rev3.safeSheetTab tab; rangeFrom := "A"; rangeTo := "Z" |})
           w)).1 = Ok dueRows →
  head dueRows = Some first →
  ok (postingApi (Rev3.finalTextOf header first.1)) = true →
  is_Some (json (postingApi (Rev3.finalTextOf header first.1))) →
  NoDup header →
  "__rowIndex1" ∉ header →
  "__proto__" ∉ header →
  (Rev3.parseSheet (readAZ (sheet (Rev3.main false tab w).2))).1 = header ∧
  ∀ (w' : World) dueRows' x,
    sheet w' = sheet (Rev3.main false tab w).2 →
    (Rev3.due header (Rev3.parseSheet (readAZ (sheet w'))).2 w').1 = Ok dueRows' →
    x ∈ dueRows' →
    Rev3.rowIndex1 x.1 ≠ Rev3.rowIndex1 first.1.
Proof.
  intros Hparse Hheader Hdue Hhead Hok Hjson Hnodup Hkey _.
  destruct (Rev3_main_recorded tab w _ _ _ _ Hparse Hheader Hdue Hhead Hok Hjson Hnodup Hkey)
    as [_ Hcells].
  set (s' := sheet (Rev3.main false tab w).2) in *.
  set (w1 := emit _ w) in *.
  destruct (Rev3_due_run header items w1) as (dueRows0 & Hrun & _ & _ & Hin).
  rewrite Hdue in Hrun. injection Hrun as <-.
  destruct (Hin first) as (Hitem & _ & Hpending).
  { destruct dueRows as [|x l]; [done|]. injection Hhead as ->. left. }
  apply list_elem_of_lookup_1 in Hitem as [k Hk].
  destruct (parseSheet_item _ _ _ _ _ Hparse Hk) as (cells & Hrow & Hwidth & Hindex & _).
  rewrite Hindex in *. replace (k + 2 - 1) with (S k) in Hcells by lia.
  destruct (pending3_status_key _ _ Hpending) as [key Hstatus].
  destruct (headerKey_status _ _ Hstatus) as (Htruthy & cS & HcS & Hcol).
  assert (cS < 26) as Hlt by (apply lookup_lt_Some in HcS; lia).
  assert (cell s' (S k) cS = "Posted") as Hdone.
  { rewrite Hcells. unfold cellAfter. rewrite decide_True by done.
    cbn [lastWrite]. rewrite lastWrite_none.
    - by rewrite decide_True.
    - destruct (foldedCol header "Posted At (UTC)"); repeat constructor.
      simpl. intros Hsame.
      pose proof (foldedCol_same_column _ _ _ _ Hsame Hcol) as Hlower.
      vm_compute in Hlower. discriminate Hlower. }
  assert (2 ≤ length (readAZ (sheet w))) as Hlen by (apply lookup_lt_Some in Hrow; lia).
  assert (2 ≤ length (readAZ s')) as Hlen'.
  { assert (S k < length (readAZ s')); [|lia].
    apply (readAZ_length_cell _ _ cS); [|done]. by rewrite Hdone. }
  assert ((Rev3.parseSheet (readAZ s')).1 = header) as Hkept.
  { rewrite parseSheet_header.
    replace header with (tableOf (sheet w)).1 by (by rewrite <- parseSheet_header, Hparse).
    apply tableOf_headers_kept; [done..|]. intros c.
    rewrite Hcells. unfold cellAfter. by rewrite decide_False by lia. }
  split; [done|].
  intros w' dueRows' x Hw' Hdue' Hx Hsame. rewrite Hw' in Hdue'.
  destruct (Rev3.parseSheet (readAZ s')) as [header' items'] eqn:Hparse'.
  simpl in Hkept, Hdue'. subst header'.
  destruct (Rev3_due_run header items' w') as (dueRows1 & Hrun & _ & _ & Hin').
  rewrite Hdue' in Hrun. injection Hrun as <-.
  destruct (Hin' x Hx) as (Hitem' & _ & Hpending').
  apply list_elem_of_lookup_1 in Hitem' as [k' Hk'].
  destruct (parseSheet_item _ _ _ _ _ Hparse' Hk') as (_ & _ & _ & Hindex' & _).
  assert (k' = k) as -> by lia.
  unfold pending3 in Hpending'. rewrite Hstatus in Hpending'. simpl in Hpending'.
  rewrite Htruthy in Hpending'.
  rewrite (Rev3_existing_cell _ _ _ _ _ _ _ Hparse' Hk' Hkey HcS) in Hpending'.
  rewrite sourceCol_NoDup, Hdone in Hpending' by done.
  vm_compute in Hpending'. discriminate Hpending'.
Qed.

Lemma Rev3_posted_row_is_done_witness :
  (Rev3.parseSheet
     (readAZ (sheet (@Rev3.main Reference.engine Reference.accepting false "Posts"
                       (start Reference.ties)).2))).1
  = ["id"; "Publish Date"; "Time (UTC)"; "Post Text"; "Status"; "Tweet ID"; "Posted At (UTC)"].
Proof.
  edestruct (@Rev3_posted_row_is_done Reference.engine Reference.accepting "Posts"
               (start Reference.ties)) as [Hkept _];
    [vm_compute; reflexivity|done|vm_compute; reflexivity..
    |vm_compute; reflexivity|by eexists
    |apply (bool_decide_unpack _); vm_compute; reflexivity
    |apply (bool_decide_unpack _); vm_compute; reflexivity
    |apply (bool_decide_unpack _); vm_compute; reflexivity|].
  exact Hkept.
Defined.
